(** * vite-plugin-astro-prerender: a shallow embedding

    The build-time pipeline (content cache, renderers, style/class
    extraction, stylesheet generator, orchestrator) and the browser-side
    lazy loader, translated function by function from the TypeScript and
    JavaScript sources, with the properties the design document states
    about them.

    Conventions.
    - A JavaScript string is a Rocq [string]; one character stands for one
      UTF-16 code unit below 256.
    - A [Map] or plain object used as a dictionary is a [gmap]; a [Set]
      whose iteration order is observed is a duplicate-free list in
      insertion order.
    - A function that can throw (or an awaited promise that can reject)
      returns a [Res]; code that mutates [this] threads the state
      explicitly and appends what it does to the outside world to a trace
      of events.
    - Whatever an external collaborator answers (the network, the file
      system, the component compiler, the utility CSS compiler) is read
      from an environment record or a section variable. *)

From Stdlib Require Import String Ascii List ZArith NArith QArith Lia Permutation Bool.
From stdpp Require Import base option gmap strings list fin_maps.

Import ListNotations.
Local Open Scope string_scope.
Local Open Scope list_scope.

(* ===================================================================== *)
(** * Results of fallible calls *)
(* ===================================================================== *)

(** The [Error] objects the sources construct, kept structured so that no
    number has to be formatted into a message. *)
Inductive Error : Type :=
| ErrHttp (status : Z) (statusText : string)   (* `HTTP ${status}: ${statusText}` *)
| ErrNotFound (url : string)                   (* `Not found: ${url}` *)
| ErrRetriesExhausted (url : string) (retries : Z)
                                               (* `Failed to fetch ${url} after ${retries} attempts` *)
| ErrManifest (statusText : string)            (* `Failed to load manifest: ${statusText}` *)
| ErrCss (what : string)                       (* `Failed to load ...` of a <link> *)
| ErrTargetNotFound (selector : string)        (* `Target element not found: ${selector}` *)
| ErrExternal (message : string).              (* thrown by a collaborator *)

Inductive Res (A : Type) : Type :=
| Ok (a : A)
| Throw (e : Error).
Arguments Ok {A} a.
Arguments Throw {A} e.

Definition is_ok {A} (r : Res A) : bool :=
  match r with Ok _ => true | Throw _ => false end.

(** JavaScript truthiness of a [string | null] value. *)
Definition truthy (v : option string) : bool :=
  match v with
  | None => false
  | Some s => negb (String.eqb s "")
  end.

(* ===================================================================== *)
(** * Content cache  (src/utils/cache.ts) *)
(* ===================================================================== *)

Module CacheManager.

(** [this.cache]: source path -> hash of the content last written. *)
Record t : Type := mk {
  cache : gmap string string;
  loaded : bool
}.

Definition empty : t := {| cache := ∅; loaded := false |}.

(** [cache.getKey(componentPath)]: the stored value or [undefined]. *)
Definition getKey (c : t) (componentPath : string) : option string :=
  cache c !! componentPath.

(** [undefined | string === string] *)
Definition strict_eq (v : option string) (hash : string) : bool :=
  match v with
  | Some stored => String.eqb stored hash
  | None => false
  end.

(** [isCached(componentPath, hash)]:
    [return this.cache.getKey(componentPath) === hash] *)
Definition isCached (c : t) (componentPath hash : string) : bool :=
  strict_eq (getKey c componentPath) hash.

(** [set(componentPath, hash)] *)
Definition set (c : t) (componentPath hash : string) : t :=
  {| cache := <[componentPath := hash]> (cache c); loaded := loaded c |}.

(** [delete(componentPath)] *)
Definition delete (c : t) (componentPath : string) : t :=
  {| cache := base.delete componentPath (cache c); loaded := loaded c |}.

(** [clear()] *)
Definition clear (c : t) : t :=
  {| cache := ∅; loaded := loaded c |}.

End CacheManager.

(* ===================================================================== *)
(** * State-and-exception monad *)
(* ===================================================================== *)

(** A method body reads and writes a state [S] and either returns or
    throws; what it changed before throwing stays changed. *)
Definition M (S A : Type) : Type := S -> Res A * S.

Definition ret {S A} (a : A) : M S A := fun s => (Ok a, s).

Definition throw {S A} (e : Error) : M S A := fun s => (Throw e, s).

Definition bind {S A B} (m : M S A) (k : A -> M S B) : M S B :=
  fun s =>
    match m s with
    | (Ok a, s') => k a s'
    | (Throw e, s') => (Throw e, s')
    end.

(** [try { m } catch (e) { h e }] *)
Definition try_catch {S A} (m : M S A) (h : Error -> M S A) : M S A :=
  fun s =>
    match m s with
    | (Ok a, s') => (Ok a, s')
    | (Throw e, s') => h e s'
    end.

Definition gets {S A} (f : S -> A) : M S A := fun s => (Ok (f s), s).

Definition modify {S} (f : S -> S) : M S unit := fun s => (Ok tt, f s).

(** Await a value some collaborator already decided. *)
Definition await {S A} (r : Res A) : M S A := fun s => (r, s).

Definition when {S} (b : bool) (m : M S unit) : M S unit :=
  if b then m else ret tt.

Declare Scope monad_scope.
Delimit Scope monad_scope with monad.
Notation "x <- c1 ;; c2" := (bind c1 (fun x => c2))
  (at level 100, c1 at next level, right associativity) : monad_scope.
Notation "c1 ;; c2" := (bind c1 (fun _ => c2))
  (at level 100, right associativity) : monad_scope.
Local Open Scope monad_scope.

(* ===================================================================== *)
(** * Build-side events *)
(* ===================================================================== *)

Inductive Level : Type := Info | Warn | Success | Failure | Debug.

(** The pieces of a template-literal log message. *)
Inductive Piece : Type :=
| Txt (s : string)
| Num (n : Z)
| Millis (q : Q)                            (* q.toFixed(2) *)
| Savings (originalSize minifiedSize : Z)   (* Math.round((1 - minified / original) * 100) *)
| Err (e : Error).

Inductive BuildEvent : Type :=
| Log (level : Level) (message : list Piece)
| WriteFile (path content : string)           (* writeFileWithDir(path, content) *)
| SaveCache (entries : gmap string string).   (* cache.save() *)

Definition Trace : Type := list BuildEvent.

Definition emit (e : BuildEvent) : M Trace unit :=
  modify (fun t => t ++ [e]).

Definition is_write (e : BuildEvent) : bool :=
  match e with WriteFile _ _ => true | _ => false end.

(** The files a trace writes, oldest first. *)
Definition writes (t : Trace) : list (string * string) :=
  omap (fun e => match e with WriteFile p c => Some (p, c) | _ => None end) t.

Definition len {A} (l : list A) : Z := Z.of_nat (length l).

(* ===================================================================== *)
(** * Stylesheet generator  (src/utils/css-generator.ts) *)
(* ===================================================================== *)

Module CSSGenerator.

(** [this.classes] is a [Set<string>]: iteration follows first insertion. *)
Record t : Type := mk {
  tailwindConfigPath : string;
  classes : list string;
  componentStyles : list string;
  generateTailwind : bool
}.

(** [new CSSGenerator(tailwindConfigPath, logger, generateTailwind = true)] *)
Definition new (path : string) (generateTailwind : bool) : t :=
  {| tailwindConfigPath := path; classes := []; componentStyles := [];
     generateTailwind := generateTailwind |}.

(** [Set.prototype.add] *)
Definition set_add (cls : string) (s : list string) : list string :=
  if decide (cls ∈ s) then s else s ++ [cls].

(** [addClasses(classes)]: [classes.forEach((cls) => this.classes.add(cls))] *)
Definition addClasses (g : t) (cls : list string) : t :=
  {| tailwindConfigPath := tailwindConfigPath g;
     classes := foldl (fun s c => set_add c s) (classes g) cls;
     componentStyles := componentStyles g;
     generateTailwind := generateTailwind g |}.

(** [addStyles(styles)]: [this.componentStyles.push(...styles)] *)
Definition addStyles (g : t) (styles : list string) : t :=
  {| tailwindConfigPath := tailwindConfigPath g;
     classes := classes g;
     componentStyles := componentStyles g ++ styles;
     generateTailwind := generateTailwind g |}.

(** [clear()] *)
Definition clear (g : t) : t :=
  {| tailwindConfigPath := tailwindConfigPath g;
     classes := [];
     componentStyles := [];
     generateTailwind := generateTailwind g |}.

Definition nl : string := String "010"%char EmptyString.
Definition dquote : string := String "034"%char EmptyString.

Section Generate.

(** The project's Tailwind configuration object is opaque. *)
Variable TailwindConfig : Type.

(** [{ ...tailwindConfig, content: [{ raw }], safelist }] *)
Record ModifiedConfig : Type := mkModified {
  base_config : TailwindConfig;
  content_raw : string;
  safelist : list string
}.

(** What the collaborators of [generate] answer. *)
Record Env : Type := mkEnv {
  (* import('postcss'), import('tailwindcss'), import('autoprefixer') *)
  import_peers : Res unit;
  (* import(pathToFileURL(tailwindConfigPath).href).default *)
  import_config : string -> Res TailwindConfig;
  (* postcss([tailwindcss(cfg), autoprefixer]).process(css).css *)
  postcss_process : ModifiedConfig -> string -> Res string;
  (* outputFile(path, content) *)
  outputFile : string -> string -> Res unit
}.

Variable env : Env.

(** [writeFileWithDir(filePath, content)] *)
Definition writeFileWithDir (filePath content : string) : M Trace unit :=
  emit (WriteFile filePath content) ;;
  await (outputFile env filePath content).

Definition raw_content (classArray : list string) : string :=
  String.concat nl
    (map (fun cls => "<div class=" +:+ dquote +:+ cls +:+ dquote +:+ "></div>")
         classArray).

Definition modifiedConfig (cfg : TailwindConfig) (classArray : list string)
  : ModifiedConfig :=
  {| base_config := cfg;
     content_raw := raw_content classArray;
     safelist := classArray |}.

Definition tailwind_directives : string :=
  nl +:+ "@tailwind base;" +:+ nl +:+ "@tailwind components;" +:+ nl
     +:+ "@tailwind utilities;" +:+ nl.

Definition component_styles_only (styles : list string) : string :=
  "/* Component Styles */" +:+ nl +:+ String.concat (nl +:+ nl) styles.

(** [cssContent] handed to PostCSS. *)
Definition cssContent (styles : list string) : string :=
  if (0 <? len styles)%Z
  then tailwind_directives +:+ nl +:+ "/* Component Styles */" +:+ nl
         +:+ String.concat (nl +:+ nl) styles
  else tailwind_directives.

(** The body of the [try] block of [generate]. *)
Definition generate_try (g : t) (outputPath : string) : M Trace unit :=
  let classArray := classes g in
  let styles := componentStyles g in
  if negb (generateTailwind g) && (0 <? len styles)%Z then
    writeFileWithDir outputPath (component_styles_only styles) ;;
    emit (Log Success [Txt "CSS generated (component styles only): "; Txt outputPath])
  else if negb (generateTailwind g) && (0 <? len classArray)%Z then
    emit (Log Warn [Txt "Found "; Num (len classArray);
                    Txt " Tailwind classes but generateTailwindCSS is disabled. Enable it to include Tailwind styles."]) ;;
    when (0 <? len styles)%Z
      (writeFileWithDir outputPath (component_styles_only styles) ;;
       emit (Log Success [Txt "CSS generated (component styles only): "; Txt outputPath]))
  else
    await (import_peers env) ;;
    tailwindConfig <- await (import_config env (tailwindConfigPath g)) ;;
    css <- await (postcss_process env (modifiedConfig tailwindConfig classArray)
                    (cssContent styles)) ;;
    writeFileWithDir outputPath css ;;
    emit (Log Success [Txt "CSS generated: "; Txt outputPath]).

(** [generate(outputPath)] *)
Definition generate (g : t) (outputPath : string) : M Trace unit :=
  let classArray := classes g in
  let styles := componentStyles g in
  emit (Log Info [Txt "CSS Generator state: "; Num (len classArray);
                  Txt " classes, "; Num (len styles); Txt " component styles"]) ;;
  if (len classArray =? 0)%Z && (len styles =? 0)%Z then
    emit (Log Warn [Txt "No classes or styles to generate CSS for"])
  else
    emit (Log Info [Txt "Generating CSS for "; Num (len classArray);
                    Txt " classes and "; Num (len styles);
                    Txt " component styles..."]) ;;
    try_catch (generate_try g outputPath)
      (fun error =>
         emit (Log Failure [Txt "Failed to generate CSS: "; Err error]) ;;
         throw error).

End Generate.

Arguments mkModified {TailwindConfig} _ _ _.
Arguments base_config {TailwindConfig} _.
Arguments content_raw {TailwindConfig} _.
Arguments safelist {TailwindConfig} _.
Arguments mkEnv {TailwindConfig} _ _ _ _.
Arguments import_peers {TailwindConfig} _.
Arguments import_config {TailwindConfig} _ _.
Arguments postcss_process {TailwindConfig} _ _ _.
Arguments outputFile {TailwindConfig} _ _ _.
Arguments writeFileWithDir {TailwindConfig} _ _ _ _.
Arguments modifiedConfig {TailwindConfig} _ _.
Arguments generate_try {TailwindConfig} _ _ _ _.
Arguments generate {TailwindConfig} _ _ _ _.

End CSSGenerator.

(* ===================================================================== *)
(** * Pipeline orchestrator  (src/index.ts) *)
(* ===================================================================== *)

Module Plugin.

Inductive RendererKind : Type := parser | container.

(** [PluginOptions], defaults applied. *)
Record Options : Type := mkOptions {
  componentsDir : string;
  outputDir : string;
  generateTailwindCSS : bool;
  tailwindConfigPath : string;
  renderer : RendererKind;
  minify : bool
}.

(** The [let] variables of the plugin closure; [None] is [null]. *)
Record State : Type := mkState {
  root : option string;                       (* config?.root *)
  cacheManager : option CacheManager.t;
  cssGenerator : option CSSGenerator.t;
  componentRenderer : option RendererKind;
  parserFallback : bool;                      (* a ParserRenderer or null *)
  trace : Trace
}.

Definition set_cacheManager (c : option CacheManager.t) (s : State) : State :=
  {| root := root s; cacheManager := c; cssGenerator := cssGenerator s;
     componentRenderer := componentRenderer s;
     parserFallback := parserFallback s; trace := trace s |}.

Definition set_cssGenerator (g : option CSSGenerator.t) (s : State) : State :=
  {| root := root s; cacheManager := cacheManager s; cssGenerator := g;
     componentRenderer := componentRenderer s;
     parserFallback := parserFallback s; trace := trace s |}.

Definition set_trace (t : Trace) (s : State) : State :=
  {| root := root s; cacheManager := cacheManager s;
     cssGenerator := cssGenerator s;
     componentRenderer := componentRenderer s;
     parserFallback := parserFallback s; trace := t |}.

(** Run a computation that only appends to the trace. *)
Definition lift_trace {A} (m : M Trace A) : M State A :=
  fun s => let '(r, t) := m (trace s) in (r, set_trace t s).

Definition log (level : Level) (message : list Piece) : M State unit :=
  lift_trace (emit (Log level message)).

(** What the collaborators answer during one [processComponent] call. *)
Record Answers : Type := mkAnswers {
  hash_before : Res string;            (* getFileHash at the cache check *)
  rendered : Res (option string);      (* componentRenderer.render *)
  fallback_rendered : Res (option string);   (* parserFallback.render *)
  extractStyles : string -> Res (list string);
  cleanHTML : string -> Res string;
  extractClasses : string -> Res (list string);
  minifier : string -> Res string;     (* html-minifier-terser *)
  written : Res unit;                  (* outputFile of the fragment *)
  hash_after : Res string              (* getFileHash at the cache update *)
}.

(** node:path, as far as the plugin uses it. *)
Record Paths : Type := mkPaths {
  join : string -> string -> string;
  relative : string -> string -> string;
  basename : string -> string -> string
}.

Section Pipeline.

Variable opts : Options.
Variable paths : Paths.

(** A string is truthy unless empty. *)
Definition root_of (s : State) : option string :=
  match root s with
  | Some r => if String.eqb r "" then None else Some r
  | None => None
  end.

(** [minifyHTML(html)]: any failure falls back to the input. *)
Definition minifyHTML (a : Answers) (html : string) : M State string :=
  match minifier a html with
  | Ok m => ret m
  | Throw _ =>
      log Warn [Txt "html-minifier-terser not available, skipping minification"] ;;
      ret html
  end.

(** [writeFileWithDir(htmlOutputPath, cleanedHTML)] *)
Definition writeFragment (a : Answers) (path content : string) : M State unit :=
  lift_trace (emit (WriteFile path content)) ;;
  await (written a).

(** The part of [processComponent] guarded by [if (html)]. *)
Definition emitFragment (a : Answers) (rootPath componentPath html : string)
  : M State unit :=
  let outputPath := join paths rootPath (outputDir opts) in
  styles <- await (extractStyles a html) ;;
  modify (fun s =>
            match cssGenerator s with
            | Some g =>
                if (0 <? len styles)%Z
                then set_cssGenerator (Some (CSSGenerator.addStyles g styles)) s
                else s
            | None => s
            end) ;;
  cleanedHTML <- await (cleanHTML a html) ;;
  g <- gets cssGenerator ;;
  match g with
   | Some _ =>
       classes <- await (extractClasses a cleanedHTML) ;;
       modify (fun s =>
                 match cssGenerator s with
                 | Some g => set_cssGenerator (Some (CSSGenerator.addClasses g classes)) s
                 | None => s
                 end)
   | None => ret tt
   end ;;
  cleanedHTML <-
    (if minify opts then
       minified <- minifyHTML a cleanedHTML ;;
       log Info [Txt "Minified: "; Num (Z.of_nat (String.length cleanedHTML));
                 Txt " -> "; Num (Z.of_nat (String.length minified));
                 Txt " bytes (";
                 Savings (Z.of_nat (String.length cleanedHTML))
                         (Z.of_nat (String.length minified));
                 Txt "% smaller)"] ;;
       ret minified
     else ret cleanedHTML) ;;
  let componentName := basename paths componentPath ".astro" in
  let htmlOutputPath := join paths outputPath (componentName +:+ ".html") in
  writeFragment a htmlOutputPath cleanedHTML ;;
  c <- gets cacheManager ;;
  match c with
   | Some _ =>
       hash <- await (hash_after a) ;;
       modify (fun s =>
                 match cacheManager s with
                 | Some c => set_cacheManager (Some (CacheManager.set c componentPath hash)) s
                 | None => s
                 end)
   | None => ret tt
   end ;;
  log Success [Txt componentName; Txt ".html ("; 
               Num (Z.of_nat (String.length cleanedHTML)); Txt " chars)"].

(** The body of the [try] block of [processComponent]. *)
Definition processComponent_try (a : Answers) (rootPath componentPath : string)
  : M State unit :=
  c <- gets cacheManager ;;
  cached <-
    match c with
    | Some c =>
        hash <- await (hash_before a) ;;
        ret (CacheManager.isCached c componentPath hash)
    | None => ret false
    end ;;
  if cached : bool then
    log Info [Txt "Skipping cached: "; Txt (relative paths rootPath componentPath)]
  else
    r <- gets componentRenderer ;;
    match r with
    | None => ret tt
    | Some _ =>
        html <- await (rendered a) ;;
        fb <- gets parserFallback ;;
        html <-
          (if negb (truthy html) && fb then
             log Info [Txt "Falling back to parser for: ";
                       Txt (relative paths rootPath componentPath)] ;;
             await (fallback_rendered a)
           else ret html) ;;
        match html with
        | Some h =>
            if truthy (Some h)
            then emitFragment a rootPath componentPath h
            else ret tt
        | None => ret tt
        end
    end.

(** [processComponent(componentPath)] *)
Definition processComponent (a : Answers) (componentPath : string) : M State unit :=
  r <- gets root_of ;;
  match r with
  | None => ret tt
  | Some rootPath =>
      try_catch (processComponent_try a rootPath componentPath)
        (fun error =>
           log Failure [Txt "Failed to process ";
                        Txt (relative paths rootPath componentPath);
                        Txt ": "; Err error])
  end.

Section Pass.

Variable TailwindConfig : Type.
Variable cssEnv : CSSGenerator.Env TailwindConfig.

(** [generateCSS()] *)
Definition generateCSS : M State unit :=
  g <- gets cssGenerator ;;
  r <- gets root_of ;;
  match g, r with
  | Some g, Some rootPath =>
      let outputPath := join paths rootPath (outputDir opts) in
      let cssOutputPath := join paths outputPath "lazy-components.css" in
      lift_trace (CSSGenerator.generate cssEnv g cssOutputPath)
  | _, _ => ret tt
  end.

(** [for (const componentPath of componentFiles) await processComponent(componentPath)] *)
Fixpoint processEach (files : list (string * Answers)) : M State unit :=
  match files with
  | [] => ret tt
  | (componentPath, a) :: rest =>
      processComponent a componentPath ;;
      processEach rest
  end.

(** [cacheManager.load()]: reads the persisted store once per process. *)
Definition loadCache (persisted : gmap string string) : M State unit :=
  modify (fun s =>
            match cacheManager s with
            | Some c =>
                if CacheManager.loaded c then s
                else set_cacheManager
                       (Some {| CacheManager.cache := persisted;
                                CacheManager.loaded := true |}) s
            | None => s
            end).

(** [cacheManager.save()] *)
Definition saveCache : M State unit :=
  c <- gets cacheManager ;;
  match c with
  | Some c => lift_trace (emit (SaveCache (CacheManager.cache c)))
  | None => ret tt
  end.

(** [processAll()]; [files] is what [findComponents] returns, each
    path with what the collaborators answer while it is processed. *)
Definition processAll (persisted : gmap string string)
           (files : list (string * Answers)) : M State unit :=
  r <- gets root_of ;;
  match r with
  | None => ret tt
  | Some _ =>
      log Info [Txt "Processing components from "; Txt (componentsDir opts); Txt "..."] ;;
      loadCache persisted ;;
      modify (fun s =>
                match cssGenerator s with
                | Some g => set_cssGenerator (Some (CSSGenerator.clear g)) s
                | None => s
                end) ;;
      if (len files =? 0)%Z then
        log Warn [Txt "No .astro files found in "; Txt (componentsDir opts)]
      else
        processEach files ;;
        generateCSS ;;
        saveCache ;;
        log Success [Txt "Processed "; Num (len files); Txt " component(s)"]
  end.

End Pass.

(** [configResolved(resolvedConfig)] *)
Definition configResolved (rootPath : string) (t : Trace) : State :=
  {| root := Some rootPath;
     cacheManager :=
       Some {| CacheManager.cache := ∅; CacheManager.loaded := false |};
     cssGenerator :=
       Some (CSSGenerator.new (join paths rootPath (tailwindConfigPath opts))
                              (generateTailwindCSS opts));
     componentRenderer := Some (renderer opts);
     parserFallback :=
       match renderer opts with container => true | parser => false end;
     trace :=
       t ++ [Log Info [Txt (match renderer opts with
                            | container => "Using Container API renderer (supports imports)"
                            | parser => "Using Parser renderer (simpler, no imports)"
                            end)]] |}.

(** The watcher's [unlink] handler. *)
Definition onUnlink (filePath : string) : M State unit :=
  r <- gets root_of ;;
  match r with
  | None => ret tt
  | Some rootPath =>
      log Info [Txt "Component removed: "; Txt (relative paths rootPath filePath)] ;;
      modify (fun s =>
                match cacheManager s with
                | Some c => set_cacheManager (Some (CacheManager.delete c filePath)) s
                | None => s
                end)
  end.

End Pipeline.

(** Rendering produced no fragment: the renderer threw, or every
    strategy tried gave no HTML. *)
Definition no_html (r : Res (option string)) : bool :=
  match r with
  | Ok v => negb (truthy v)
  | Throw _ => false
  end.

Definition throws {A} (r : Res A) : bool := negb (is_ok r).

Definition rendering_fails (s : State) (a : Answers) : bool :=
  throws (rendered a)
  || (no_html (rendered a)
      && (negb (parserFallback s)
          || throws (fallback_rendered a)
          || no_html (fallback_rendered a))).

End Plugin.


(* ===================================================================== *)
(** * Client runtime loader  (src/utils/LazyLoader.ts) *)
(* ===================================================================== *)

Module LazyLoader.

(** [Required<LazyLoaderConfig>]; the three callbacks are the caller's
    observers: a call of one appears as an event, and the callback is taken
    to return normally. *)
Record Config : Type := mkConfig {
  baseUrl : string;
  cssModules : bool;
  manifestUrl : string;
  baseCssUrl : string;
  legacyCssUrl : string;
  preloadCSS : bool;
  cacheHTML : bool;
  enableRetry : bool;
  maxRetries : Z;
  retryDelay : Z;
  debug : bool
}.

(** [new LazyHTMLLoader({})]: every option at its default. *)
Definition defaultConfig : Config :=
  {| baseUrl := "/prerendered";
     cssModules := false;
     manifestUrl := "/prerendered/manifest.json";
     baseCssUrl := "/prerendered/base.css";
     legacyCssUrl := "/prerendered/lazy-components.css";
     preloadCSS := false;
     cacheHTML := true;
     enableRetry := true;
     maxRetries := 3;
     retryDelay := 1000;
     debug := false |}.

Definition set_cssModules (b : bool) (c : Config) : Config :=
  {| baseUrl := baseUrl c; cssModules := b; manifestUrl := manifestUrl c;
     baseCssUrl := baseCssUrl c; legacyCssUrl := legacyCssUrl c;
     preloadCSS := preloadCSS c; cacheHTML := cacheHTML c;
     enableRetry := enableRetry c; maxRetries := maxRetries c;
     retryDelay := retryDelay c; debug := debug c |}.

(** [CSSModuleManifest] *)
Record CSSModuleManifest : Type := mkManifest {
  components : gmap string string
}.

(** [this.stats]; the counters only ever count up from zero. *)
Record Stats : Type := mkStats {
  totalLoads : N;
  cacheHits : N;
  cacheMisses : N;
  errors : N;
  totalLoadTime : Q;
  totalBytes : N
}.

Definition zeroStats : Stats :=
  {| totalLoads := 0; cacheHits := 0; cacheMisses := 0; errors := 0;
     totalLoadTime := 0; totalBytes := 0 |}.

Record Asset : Type := mkAsset {
  asset_url : string;
  asset_bytes : N;
  asset_duration : Q;
  asset_type : string
}.

(** An entry of [this.detailedStats]. *)
Record LoadInfo : Type := mkLoadInfo {
  duration : Q;
  bytes : N;
  fromCache : bool;
  timestamp : Z;
  secondaryAssets : option (list Asset)
}.

(** The fields of a [LazyHTMLLoader]. *)
Record Loader : Type := mkLoader {
  config : Config;
  htmlCache : gmap string string;
  cssCache : gset string;
  observers : gset string;
  manifest : option CSSModuleManifest;
  manifestLoaded : bool;
  baseCssLoaded : bool;
  legacyCssLoaded : bool;
  stats : Stats;
  detailedStats : gmap string LoadInfo
}.

(** [new LazyHTMLLoader(config)] *)
Definition new (c : Config) : Loader :=
  {| config := c; htmlCache := ∅; cssCache := ∅; observers := ∅;
     manifest := None; manifestLoaded := false; baseCssLoaded := false;
     legacyCssLoaded := false; stats := zeroStats; detailedStats := ∅ |}.

(** A [Response]: status line, and what reading the body gives. *)
Record Response : Type := mkResponse {
  status : Z;
  statusText : string;
  text : Res string;                          (* response.text() *)
  json : Res (option CSSModuleManifest)       (* response.json(); None is null *)
}.

(** [response.ok] *)
Definition ok (r : Response) : bool :=
  (200 <=? status r)%Z && (status r <=? 299)%Z.

(** What the loader does to the page and the network, in order. *)
Inductive Event : Type :=
| Fetch (url : string)                          (* fetch(url) *)
| AppendLink (rel href : string)                (* document.head.appendChild(link) *)
| SetTimeout (ms : Z)
| Console (level : Level) (message : list Piece)
| OnLoad (componentName : string) (duration : Q) (bytes : N) (fromCache : bool)
         (secondaryAssets : option (list Asset))
| OnError (componentName : string) (error : Error)
| OnCSSLoad (cssFile : string) (duration : Q)
| Observe (buffered : bool)                     (* resourceObserver.observe(...) *)
| SetInnerHTML (selector html : string)
| Intersect (componentName selector : string)   (* observer.observe(target) *)
| Disconnect (componentName : string).

(** A network request: a fetch, or a link element the browser loads. *)
Definition is_request (e : Event) : bool :=
  match e with
  | Fetch _ | AppendLink _ _ => true
  | _ => false
  end.

Definition requests (evs : list Event) : list Event :=
  List.filter is_request evs.

(** The browser around the loader: what the n-th call of each kind
    answers. *)
Record Browser : Type := mkBrowser {
  fetch_outcome : nat -> string -> Res Response;   (* rejects on a network error *)
  link_loads : nat -> string -> bool;              (* onload (true) or onerror *)
  performance_now : nat -> Q;
  date_now : nat -> Z;
  observer_new : Res unit;                         (* new PerformanceObserver(...) *)
  observe_throws : bool -> bool;                   (* observe({buffered}) throws *)
  querySelector : string -> Res bool               (* throws on an invalid selector *)
}.

(** The loader together with the page it runs in. *)
Record World : Type := mkWorld {
  loader : Loader;
  events : list Event;
  fetches : nat;            (* calls of fetch so far *)
  links : nat;              (* stylesheet links appended so far *)
  readings : nat;           (* readings of performance.now() so far *)
  dates : nat               (* readings of Date.now() so far *)
}.

Definition boot (l : Loader) : World :=
  {| loader := l; events := []; fetches := 0; links := 0; readings := 0;
     dates := 0 |}.

Definition with_loader (f : Loader -> Loader) (w : World) : World :=
  {| loader := f (loader w); events := events w; fetches := fetches w;
     links := links w; readings := readings w; dates := dates w |}.

Definition with_config (f : Config -> Config) (l : Loader) : Loader :=
  {| config := f (config l); htmlCache := htmlCache l; cssCache := cssCache l;
     observers := observers l; manifest := manifest l;
     manifestLoaded := manifestLoaded l; baseCssLoaded := baseCssLoaded l;
     legacyCssLoaded := legacyCssLoaded l; stats := stats l;
     detailedStats := detailedStats l |}.

Definition with_htmlCache (f : gmap string string -> gmap string string)
           (l : Loader) : Loader :=
  {| config := config l; htmlCache := f (htmlCache l); cssCache := cssCache l;
     observers := observers l; manifest := manifest l;
     manifestLoaded := manifestLoaded l; baseCssLoaded := baseCssLoaded l;
     legacyCssLoaded := legacyCssLoaded l; stats := stats l;
     detailedStats := detailedStats l |}.

Definition with_cssCache (f : gset string -> gset string) (l : Loader) : Loader :=
  {| config := config l; htmlCache := htmlCache l; cssCache := f (cssCache l);
     observers := observers l; manifest := manifest l;
     manifestLoaded := manifestLoaded l; baseCssLoaded := baseCssLoaded l;
     legacyCssLoaded := legacyCssLoaded l; stats := stats l;
     detailedStats := detailedStats l |}.

Definition with_observers (f : gset string -> gset string) (l : Loader) : Loader :=
  {| config := config l; htmlCache := htmlCache l; cssCache := cssCache l;
     observers := f (observers l); manifest := manifest l;
     manifestLoaded := manifestLoaded l; baseCssLoaded := baseCssLoaded l;
     legacyCssLoaded := legacyCssLoaded l; stats := stats l;
     detailedStats := detailedStats l |}.

Definition with_manifest (m : option CSSModuleManifest) (loaded : bool)
           (l : Loader) : Loader :=
  {| config := config l; htmlCache := htmlCache l; cssCache := cssCache l;
     observers := observers l; manifest := m;
     manifestLoaded := loaded; baseCssLoaded := baseCssLoaded l;
     legacyCssLoaded := legacyCssLoaded l; stats := stats l;
     detailedStats := detailedStats l |}.

Definition with_manifestLoaded (b : bool) (l : Loader) : Loader :=
  with_manifest (manifest l) b l.

Definition with_baseCssLoaded (b : bool) (l : Loader) : Loader :=
  {| config := config l; htmlCache := htmlCache l; cssCache := cssCache l;
     observers := observers l; manifest := manifest l;
     manifestLoaded := manifestLoaded l; baseCssLoaded := b;
     legacyCssLoaded := legacyCssLoaded l; stats := stats l;
     detailedStats := detailedStats l |}.

Definition with_legacyCssLoaded (b : bool) (l : Loader) : Loader :=
  {| config := config l; htmlCache := htmlCache l; cssCache := cssCache l;
     observers := observers l; manifest := manifest l;
     manifestLoaded := manifestLoaded l; baseCssLoaded := baseCssLoaded l;
     legacyCssLoaded := b; stats := stats l;
     detailedStats := detailedStats l |}.

Definition with_stats (f : Stats -> Stats) (l : Loader) : Loader :=
  {| config := config l; htmlCache := htmlCache l; cssCache := cssCache l;
     observers := observers l; manifest := manifest l;
     manifestLoaded := manifestLoaded l; baseCssLoaded := baseCssLoaded l;
     legacyCssLoaded := legacyCssLoaded l; stats := f (stats l);
     detailedStats := detailedStats l |}.

Definition with_detailedStats (f : gmap string LoadInfo -> gmap string LoadInfo)
           (l : Loader) : Loader :=
  {| config := config l; htmlCache := htmlCache l; cssCache := cssCache l;
     observers := observers l; manifest := manifest l;
     manifestLoaded := manifestLoaded l; baseCssLoaded := baseCssLoaded l;
     legacyCssLoaded := legacyCssLoaded l; stats := stats l;
     detailedStats := f (detailedStats l) |}.

(** [this.stats.cacheHits++] and its siblings. *)
Definition bump_cacheHits (s : Stats) : Stats :=
  {| totalLoads := totalLoads s; cacheHits := cacheHits s + 1;
     cacheMisses := cacheMisses s; errors := errors s;
     totalLoadTime := totalLoadTime s; totalBytes := totalBytes s |}.

Definition bump_cacheMisses (s : Stats) : Stats :=
  {| totalLoads := totalLoads s; cacheHits := cacheHits s;
     cacheMisses := cacheMisses s + 1; errors := errors s;
     totalLoadTime := totalLoadTime s; totalBytes := totalBytes s |}.

Definition bump_errors (s : Stats) : Stats :=
  {| totalLoads := totalLoads s; cacheHits := cacheHits s;
     cacheMisses := cacheMisses s; errors := errors s + 1;
     totalLoadTime := totalLoadTime s; totalBytes := totalBytes s |}.

Definition bump_totalLoads (s : Stats) : Stats :=
  {| totalLoads := totalLoads s + 1; cacheHits := cacheHits s;
     cacheMisses := cacheMisses s; errors := errors s;
     totalLoadTime := totalLoadTime s; totalBytes := totalBytes s |}.

(** [this.stats.totalLoadTime += duration] *)
Definition add_loadTime (d : Q) (s : Stats) : Stats :=
  {| totalLoads := totalLoads s; cacheHits := cacheHits s;
     cacheMisses := cacheMisses s; errors := errors s;
     totalLoadTime := (totalLoadTime s + d)%Q; totalBytes := totalBytes s |}.

(** [this.stats.totalBytes += bytes] *)
Definition add_bytes (b : N) (s : Stats) : Stats :=
  {| totalLoads := totalLoads s; cacheHits := cacheHits s;
     cacheMisses := cacheMisses s; errors := errors s;
     totalLoadTime := totalLoadTime s; totalBytes := totalBytes s + b |}.

(** [new Blob([html]).size]: the length of the UTF-8 encoding. *)
Fixpoint blob_size (html : string) : N :=
  match html with
  | EmptyString => 0
  | String c rest =>
      (if (nat_of_ascii c <? 128)%nat then 1 else 2) + blob_size rest
  end.

Section Methods.

Variable browser : Browser.

Definition emit (e : Event) : M World unit :=
  modify (fun w =>
            {| loader := loader w; events := events w ++ [e];
               fetches := fetches w; links := links w;
               readings := readings w; dates := dates w |}).

Definition update (f : Loader -> Loader) : M World unit :=
  modify (with_loader f).

Definition read {A} (f : Loader -> A) : M World A :=
  gets (fun w => f (loader w)).

(** [this.log(message, ...args)] *)
Definition log (message : list Piece) : M World unit :=
  d <- read (fun l => debug (config l)) ;;
  when d (emit (Console Debug message)).

(** [performance.now()] *)
Definition now : M World Q :=
  n <- gets readings ;;
  modify (fun w =>
            {| loader := loader w; events := events w; fetches := fetches w;
               links := links w; readings := S (readings w); dates := dates w |}) ;;
  ret (performance_now browser n).

(** [Date.now()] *)
Definition today : M World Z :=
  n <- gets dates ;;
  modify (fun w =>
            {| loader := loader w; events := events w; fetches := fetches w;
               links := links w; readings := readings w; dates := S (dates w) |}) ;;
  ret (date_now browser n).

(** [await fetch(url)] *)
Definition fetch (url : string) : M World Response :=
  n <- gets fetches ;;
  modify (fun w =>
            {| loader := loader w; events := events w ++ [Fetch url];
               fetches := S (fetches w); links := links w;
               readings := readings w; dates := dates w |}) ;;
  await (fetch_outcome browser n url).

(** One turn of the [for] loop of [fetchWithRetry]: [Some response] when
    the turn returns, [None] when it falls through to the back-off. *)
Definition fetchWithRetry_attempt (url : string) (retries attempt : Z)
  : M World (option Response) :=
  try_catch
    (log [Txt "Fetching "; Txt url; Txt " (attempt "; Num attempt; Txt "/";
          Num retries; Txt ")"] ;;
     response <- fetch url ;;
     if ok response then ret (Some response)
     else if (attempt =? retries)%Z then
       throw (ErrHttp (status response) (statusText response))
     else if (status response =? 404)%Z then
       (* Don't retry on 404 *)
       throw (ErrNotFound url)
     else
       log [Txt "Fetch failed with status "; Num (status response);
            Txt ", retrying..."] ;;
       ret None)
    (fun error =>
       if (attempt =? retries)%Z then throw error
       else
         log [Txt "Fetch error: "; Err error; Txt ", retrying..."] ;;
         ret None).

(** [for (let attempt = 1; attempt <= retries; attempt++) { ... }] followed
    by the final [throw]; [fuel] bounds the turns still to run. *)
Fixpoint fetchWithRetry_loop (fuel : nat) (url : string) (retries attempt : Z)
  : M World Response :=
  match fuel with
  | O => throw (ErrRetriesExhausted url retries)
  | S fuel' =>
      if (attempt <=? retries)%Z then
        r <- fetchWithRetry_attempt url retries attempt ;;
        match r with
        | Some response => ret response
        | None =>
            delay <- read (fun l => retryDelay (config l)) ;;
            when (attempt <? retries)%Z (emit (SetTimeout (delay * attempt))) ;;
            fetchWithRetry_loop fuel' url retries (attempt + 1)
        end
      else throw (ErrRetriesExhausted url retries)
  end.

(** [fetchWithRetry(url, retries)] *)
Definition fetchWithRetry (url : string) (retries : Z) : M World Response :=
  fetchWithRetry_loop (Z.to_nat retries) url retries 1.

(** [enableRetry ? this.fetchWithRetry(url) : fetch(url)] *)
Definition fetchMaybeRetry (url : string) : M World Response :=
  c <- read config ;;
  if enableRetry c then fetchWithRetry url (maxRetries c) else fetch url.

(** Append a stylesheet link (after its preload twin, if asked for) and
    wait for [onload] or [onerror]. *)
Definition appendStylesheet (href : string) : M World bool :=
  p <- read (fun l => preloadCSS (config l)) ;;
  when p (emit (AppendLink "preload" href)) ;;
  n <- gets links ;;
  modify (fun w =>
            {| loader := loader w;
               events := events w ++ [AppendLink "stylesheet" href];
               fetches := fetches w; links := S (links w);
               readings := readings w; dates := dates w |}) ;;
  ret (link_loads browser n href).

(** [loadManifest()] *)
Definition loadManifest : M World unit :=
  done <- read manifestLoaded ;;
  if done : bool then ret tt
  else
    startTime <- now ;;
    try_catch
      (url <- read (fun l => manifestUrl (config l)) ;;
       response <- fetchMaybeRetry url ;;
       (if ok response then ret tt
        else throw (ErrManifest (statusText response))) ;;
       m <- await (json response) ;;
       update (with_manifest m true) ;;
       t <- now ;;
       log [Txt "Manifest loaded in "; Millis (t - startTime); Txt "ms"] ;;
       emit (OnCSSLoad url (t - startTime)))
      (fun error =>
         emit (Console Failure [Txt "Failed to load CSS manifest:"; Err error]) ;;
         update (with_config (set_cssModules false)) ;;
         update (with_manifestLoaded true)).

(** [loadBaseCSS()] *)
Definition loadBaseCSS : M World unit :=
  done <- read baseCssLoaded ;;
  if done : bool then ret tt
  else
    loadManifest ;;
    m <- read manifest ;;
    match m with
    | None => ret tt
    | Some _ =>
        startTime <- now ;;
        href <- read (fun l => baseCssUrl (config l)) ;;
        loaded <- appendStylesheet href ;;
        if loaded : bool then
          update (with_baseCssLoaded true) ;;
          t <- now ;;
          log [Txt "Base CSS loaded in "; Millis (t - startTime); Txt "ms"] ;;
          emit (OnCSSLoad href (t - startTime))
        else
          emit (Console Failure [Txt "Failed to load base CSS"]) ;;
          throw (ErrCss "Failed to load base CSS")
    end.

(** [loadComponentCSS(componentName)] *)
Definition loadComponentCSS (componentName : string) : M World unit :=
  c <- read config ;;
  m <- read manifest ;;
  match cssModules c, m with
  | true, Some m =>
      match components m !! componentName with
      | Some cssFile =>
          if String.eqb cssFile "" then
            log [Txt "No CSS file for component: "; Txt componentName]
          else
            cached <- read (fun l => bool_decide (cssFile ∈ cssCache l)) ;;
            if cached : bool then log [Txt "CSS already loaded: "; Txt cssFile]
            else
              startTime <- now ;;
              let cssUrl := baseUrl c +:+ "/" +:+ cssFile in
              loaded <- appendStylesheet cssUrl ;;
              if loaded : bool then
                update (with_cssCache (fun s => {[cssFile]} ∪ s)) ;;
                t <- now ;;
                log [Txt "Component CSS loaded in "; Millis (t - startTime);
                     Txt "ms: "; Txt cssFile] ;;
                emit (OnCSSLoad cssFile (t - startTime))
              else
                emit (Console Failure [Txt "Failed to load component CSS: ";
                                       Txt cssFile]) ;;
                throw (ErrCss ("Failed to load CSS: " +:+ cssFile))
      | None => log [Txt "No CSS file for component: "; Txt componentName]
      end
  | _, _ => ret tt
  end.

(** [loadLegacyCSS()] *)
Definition loadLegacyCSS : M World unit :=
  done <- read legacyCssLoaded ;;
  if done : bool then ret tt
  else
    startTime <- now ;;
    href <- read (fun l => legacyCssUrl (config l)) ;;
    loaded <- appendStylesheet href ;;
    if loaded : bool then
      update (with_legacyCssLoaded true) ;;
      t <- now ;;
      log [Txt "Legacy CSS loaded in "; Millis (t - startTime); Txt "ms"] ;;
      emit (OnCSSLoad href (t - startTime))
    else
      emit (Console Failure [Txt "Failed to load legacy CSS"]) ;;
      throw (ErrCss "Failed to load lazy components CSS").

(** [promise.catch((err) => console.warn(message, err))] *)
Definition warn_on_failure (message : string) (m : M World unit) : M World unit :=
  try_catch m (fun err => emit (Console Warn [Txt message; Err err])).

(** The cache-hit branch of [load]. *)
Definition load_hit (componentName html : string) (startTime : Q) : M World string :=
  update (with_stats bump_cacheHits) ;;
  log [Txt "Cache hit: "; Txt componentName] ;;
  let bytes := blob_size html in
  t <- now ;;
  let duration := (t - startTime)%Q in
  update (with_stats bump_totalLoads) ;;
  update (with_stats (add_loadTime duration)) ;;
  ts <- today ;;
  update (with_detailedStats
            (insert componentName
               {| duration := duration; bytes := bytes; fromCache := true;
                  timestamp := ts; secondaryAssets := None |})) ;;
  emit (OnLoad componentName duration bytes true None) ;;
  ret html.

(** Start watching for resources the injected fragment pulls in: the
    inner [try] around [resourceObserver.observe]. The observer itself is
    constructed before it, outside that [try]. What the observer's
    callback adds to [totalBytes] later, when resource entries arrive, is
    not part of the call. *)
Definition observeResources : M World unit :=
  emit (Observe true) ;;
  if observe_throws browser true then
    log [Txt "PerformanceObserver failed"] ;;
    emit (Observe false)
  else
    emit (SetTimeout 6000).

(** The cache-miss branch of [load]. *)
Definition load_miss (componentName : string) (startTime : Q) : M World string :=
  update (with_stats bump_cacheMisses) ;;
  modules <- read (fun l => cssModules (config l)) ;;
  (if modules : bool then
     warn_on_failure "Failed to load base CSS:" loadBaseCSS ;;
     warn_on_failure ("Failed to load CSS for " +:+ componentName +:+ ":")
       (loadComponentCSS componentName)
   else
     warn_on_failure "Failed to load legacy CSS:" loadLegacyCSS) ;;
  base <- read (fun l => baseUrl (config l)) ;;
  let url := base +:+ "/" +:+ componentName +:+ ".html" in
  response <- fetchMaybeRetry url ;;
  (if ok response then ret tt
   else throw (ErrHttp (status response) (statusText response))) ;;
  html <- await (text response) ;;
  let bytes := blob_size html in
  caching <- read (fun l => cacheHTML (config l)) ;;
  when caching (update (with_htmlCache (insert componentName html))) ;;
  t <- now ;;
  let duration := (t - startTime)%Q in
  update (with_stats bump_totalLoads) ;;
  update (with_stats (add_loadTime duration)) ;;
  update (with_stats (add_bytes bytes)) ;;
  log [Txt "Loaded "; Txt componentName; Txt " in "; Millis duration;
       Txt "ms ("; Num (Z.of_N bytes); Txt " bytes)"] ;;
  await (observer_new browser) ;;
  observeResources ;;
  ts <- today ;;
  update (with_detailedStats
            (insert componentName
               {| duration := duration; bytes := bytes; fromCache := false;
                  timestamp := ts; secondaryAssets := Some [] |})) ;;
  emit (OnLoad componentName duration bytes false (Some [])) ;;
  ret html.

(** [load(componentName)] *)
Definition load (componentName : string) : M World string :=
  startTime <- now ;;
  try_catch
    (caching <- read (fun l => cacheHTML (config l)) ;;
     cached <- read (fun l => htmlCache l !! componentName) ;;
     match caching, cached with
     | true, Some html => load_hit componentName html startTime
     | _, _ => load_miss componentName startTime
     end)
    (fun err =>
       update (with_stats bump_errors) ;;
       log [Txt "Error loading "; Txt componentName; Txt ":"; Err err] ;;
       emit (OnError componentName err) ;;
       throw err).


(** [preload(componentName)] *)
Definition preload (componentName : string) : M World unit :=
  load componentName ;; ret tt.

End Methods.

(** A JavaScript number: finite, or what a division by zero leaves. *)
Inductive Number : Type :=
| Finite (q : Q)
| Infinity (negative : bool)
| NaN.

(** [a / n] for a finite [a] and a counter [n]. *)
Definition divide (a : Q) (n : N) : Number :=
  if (n =? 0)%N then
    match Qcompare a 0 with
    | Eq => NaN
    | Gt => Infinity false
    | Lt => Infinity true
    end
  else Finite (a / inject_Z (Z.of_N n)).

(** [LoadStats] *)
Record LoadStats : Type := mkLoadStats {
  ls_totalLoads : N;
  ls_cacheHits : N;
  ls_cacheMisses : N;
  ls_errors : N;
  averageLoadTime : Number;
  ls_totalBytes : N
}.

(** [getStats()] *)
Definition getStats (l : Loader) : LoadStats :=
  {| ls_totalLoads := totalLoads (stats l);
     ls_cacheHits := cacheHits (stats l);
     ls_cacheMisses := cacheMisses (stats l);
     ls_errors := errors (stats l);
     averageLoadTime :=
       if (0 <? totalLoads (stats l))%N
       then divide (totalLoadTime (stats l)) (totalLoads (stats l))
       else Finite 0;
     ls_totalBytes := totalBytes (stats l) |}.

(** [clearCache()] *)
Definition clearCache (l : Loader) : Loader :=
  with_htmlCache (fun _ => ∅) l.

(** [clearCSSCache()] *)
Definition clearCSSCache (l : Loader) : Loader :=
  with_manifest None false
    (with_legacyCssLoaded false
       (with_baseCssLoaded false (with_cssCache (fun _ => ∅) l))).

(** [reset()], as far as the loader's own fields go. *)
Definition reset (l : Loader) : Loader :=
  with_detailedStats (fun _ => ∅)
    (with_stats (fun _ => zeroStats)
       (with_observers (fun _ => ∅) (clearCSSCache (clearCache l)))).

End LazyLoader.


(* ===================================================================== *)
(** * JavaScript strings and regular expressions *)
(* ===================================================================== *)

Module Js.

Definition chars (s : string) : list ascii := list_ascii_of_string s.
Definition text (l : list ascii) : string := string_of_list_ascii l.

Definition code (c : ascii) : nat := nat_of_ascii c.

(** [\s], and what [trim] strips: white space and line terminators. *)
Definition is_space (c : ascii) : bool :=
  let n := code c in
  ((9 <=? n) && (n <=? 13) || (n =? 32) || (n =? 160))%nat.

Definition is_upper (c : ascii) : bool := ((65 <=? code c) && (code c <=? 90))%nat.
Definition is_lower (c : ascii) : bool := ((97 <=? code c) && (code c <=? 122))%nat.
Definition is_digit (c : ascii) : bool := ((48 <=? code c) && (code c <=? 57))%nat.

(** [\w] *)
Definition is_word (c : ascii) : bool :=
  is_upper c || is_lower c || is_digit c || (code c =? 95)%nat.

(** Canonicalisation under the [i] flag: upper case, which below 256 only
    moves the letters a to z onto A to Z as far as matching ASCII goes. *)
Definition canonical (c : ascii) : ascii :=
  if is_lower c then ascii_of_nat (code c - 32) else c.

Definition lower (c : ascii) : ascii :=
  if is_upper c then ascii_of_nat (code c + 32) else c.

Definition same_char (ignoreCase : bool) (a b : ascii) : bool :=
  if ignoreCase then Ascii.eqb (canonical a) (canonical b) else Ascii.eqb a b.

Fixpoint drop_spaces (l : list ascii) : list ascii :=
  match l with
  | [] => []
  | c :: rest => if is_space c then drop_spaces rest else l
  end.

(** [String.prototype.trim] *)
Definition trim_chars (l : list ascii) : list ascii :=
  rev (drop_spaces (rev (drop_spaces l))).

Definition trim (s : string) : string := text (trim_chars (chars s)).

End Js.

Module RegExp.

Import Js.

Inductive ClassItem : Type :=
| Chr (c : ascii)
| Space                    (* \s *)
| Word.                    (* \w *)

(** The syntax of the patterns the sources use. *)
Inductive Re : Type :=
| Lit (c : ascii)
| Class (negated : bool) (items : list ClassItem)     (* [...] and [^...] *)
| Seq (r1 r2 : Re)
| Alt (r1 r2 : Re)
| Star (r : Re)                                       (* greedy r* *)
| Group (index : nat) (r : Re)                        (* (r), the index-th capture *)
| NegLookahead (r : Re)                               (* (?!r) *)
| WordBoundary                                        (* \b *)
| Epsilon.

(** [r+] *)
Definition Plus (r : Re) : Re := Seq r (Star r).

(** A run of literal characters. *)
Fixpoint literal (l : list ascii) : Re :=
  match l with
  | [] => Epsilon
  | [c] => Lit c
  | c :: rest => Seq (Lit c) (literal rest)
  end.

Definition str (s : string) : Re := literal (chars s).

(** Concatenation of the parts of a pattern. *)
Fixpoint seq (parts : list Re) : Re :=
  match parts with
  | [] => Epsilon
  | [r] => r
  | r :: rest => Seq r (seq rest)
  end.

(** A position in the subject: what lies behind (nearest first) and ahead. *)
Record Pos : Type := mkPos {
  behind : list ascii;
  ahead : list ascii
}.

Definition Captures : Type := list (nat * list ascii).

Definition item_matches (c : ascii) (i : ClassItem) : bool :=
  match i with
  | Chr d => Ascii.eqb c d
  | Space => is_space c
  | Word => is_word c
  end.

Definition in_class (ignoreCase : bool) (items : list ClassItem) (c : ascii) : bool :=
  existsb (item_matches c) items
  || (ignoreCase
      && (existsb (item_matches (canonical c)) items
          || existsb (item_matches (lower c)) items)).

Definition word_at (o : option ascii) : bool :=
  match o with
  | Some c => is_word c
  | None => false
  end.

Definition advance (p : Pos) : option (ascii * Pos) :=
  match ahead p with
  | [] => None
  | c :: rest => Some (c, {| behind := c :: behind p; ahead := rest |})
  end.

(** What was consumed between two positions of one subject. *)
Definition consumed (from to : Pos) : list ascii :=
  take (length (ahead from) - length (ahead to)) (ahead from).

(** The turns of a greedy star: one more turn is preferred, a turn that
    consumes nothing is refused, and when no turn leads to a match the
    star stops here. [n] bounds the turns by the characters still ahead. *)
Fixpoint star_turns (R : Type)
         (turn : Pos -> Captures -> (Pos -> Captures -> option R) -> option R)
         (k : Pos -> Captures -> option R)
         (n : nat) (p : Pos) (caps : Captures) {struct n} : option R :=
  match n with
  | O => k p caps
  | S n' =>
      match turn p caps
                 (fun p' caps' =>
                    if (length (ahead p') <? length (ahead p))%nat
                    then star_turns R turn k n' p' caps'
                    else None)
      with
      | Some x => Some x
      | None => k p caps
      end
  end.

(** The backtracking matcher: [k] is what remains to be matched after [r];
    alternatives are tried in order. *)
Fixpoint run (ignoreCase : bool) (r : Re) (R : Type) (p : Pos) (caps : Captures)
         (k : Pos -> Captures -> option R) {struct r} : option R :=
  match r with
  | Epsilon => k p caps
  | Lit c =>
      match advance p with
      | Some (x, p') => if same_char ignoreCase c x then k p' caps else None
      | None => None
      end
  | Class negated items =>
      match advance p with
      | Some (x, p') =>
          if xorb negated (in_class ignoreCase items x) then k p' caps else None
      | None => None
      end
  | Seq r1 r2 =>
      run ignoreCase r1 R p caps (fun p' caps' => run ignoreCase r2 R p' caps' k)
  | Alt r1 r2 =>
      match run ignoreCase r1 R p caps k with
      | Some x => Some x
      | None => run ignoreCase r2 R p caps k
      end
  | Star r1 =>
      star_turns R (fun p' caps' k' => run ignoreCase r1 R p' caps' k') k
                 (length (ahead p)) p caps
  | Group index r1 =>
      run ignoreCase r1 R p caps
          (fun p' caps' => k p' ((index, consumed p p') :: caps'))
  | NegLookahead r1 =>
      match run ignoreCase r1 unit p caps (fun _ _ => Some tt) with
      | Some _ => None
      | None => k p caps
      end
  | WordBoundary =>
      if xorb (word_at (head (behind p))) (word_at (head (ahead p)))
      then k p caps else None
  end.

(** The least number of characters a match of [r] consumes. *)
Fixpoint min_length (r : Re) : nat :=
  match r with
  | Lit _ | Class _ _ => 1
  | Seq r1 r2 => min_length r1 + min_length r2
  | Alt r1 r2 => Nat.min (min_length r1) (min_length r2)
  | Group _ r1 => min_length r1
  | Star _ | NegLookahead _ | WordBoundary | Epsilon => 0
  end.

(** A compiled pattern with its flags ([g] is implied by the callers). *)
Record t : Type := mk {
  source : Re;
  ignoreCase : bool
}.

(** Try to match at exactly this position: where the match ends, and the
    captures. *)
Definition match_at (re : t) (p : Pos) : option (Pos * Captures) :=
  run (ignoreCase re) (source re) (Pos * Captures) p []
      (fun p' caps => Some (p', caps)).

Definition capture (caps : Captures) (index : nat) : option (list ascii) :=
  snd <$> List.find (fun c => Nat.eqb (fst c) index) caps.

(** [GetSubstitution] for a pattern without capture groups: [$$], [$&],
    [$`] and [$'] are replaced, any other text is copied. *)
Fixpoint substitution (template matched before after : list ascii) : list ascii :=
  match template with
  | [] => []
  | c :: rest =>
      if Ascii.eqb c "$" then
        match rest with
        | d :: rest' =>
            if Ascii.eqb d "$" then "$"%char :: substitution rest' matched before after
            else if Ascii.eqb d "&" then matched ++ substitution rest' matched before after
            else if Ascii.eqb d "`" then before ++ substitution rest' matched before after
            else if Ascii.eqb d "'" then after ++ substitution rest' matched before after
            else c :: substitution rest matched before after
        | [] => [c]
        end
      else c :: substitution rest matched before after
  end.

(** [subject.replace(re, template)] with the [g] flag: scan from the left;
    [skip] counts the characters of the current match still to drop. *)
Fixpoint replace_scan (re : t) (template : list ascii)
         (behind : list ascii) (ahead : list ascii) (skip : nat) : list ascii :=
  match skip with
  | S skip' =>
      match ahead with
      | [] => []
      | c :: rest => replace_scan re template (c :: behind) rest skip'
      end
  | O =>
      match match_at re {| behind := behind; ahead := ahead |} with
      | Some (p', _) =>
          let n := (length ahead - length (RegExp.ahead p'))%nat in
          substitution template (take n ahead) (rev behind) (RegExp.ahead p')
          ++ match ahead with
             | [] => []
             | c :: rest =>
                 match n with
                 | O => c :: replace_scan re template (c :: behind) rest 0
                 | S n' => replace_scan re template (c :: behind) rest n'
                 end
             end
      | None =>
          match ahead with
          | [] => []
          | c :: rest => c :: replace_scan re template (c :: behind) rest 0
          end
      end
  end.

Definition replace (re : t) (template subject : string) : string :=
  text (replace_scan re (chars template) [] (chars subject) 0).

(** [subject.matchAll(re)]: the captures of each match, left to right. *)
Fixpoint matchAll_scan (re : t) (behind : list ascii) (ahead : list ascii)
         (skip : nat) : list Captures :=
  match skip with
  | S skip' =>
      match ahead with
      | [] => []
      | c :: rest => matchAll_scan re (c :: behind) rest skip'
      end
  | O =>
      match match_at re {| behind := behind; ahead := ahead |} with
      | Some (p', caps) =>
          let n := (length ahead - length (RegExp.ahead p'))%nat in
          caps :: match ahead with
                  | [] => []
                  | c :: rest => matchAll_scan re (c :: behind) rest (Nat.pred n)
                  end
      | None =>
          match ahead with
          | [] => []
          | c :: rest => matchAll_scan re (c :: behind) rest 0
          end
      end
  end.

Definition matchAll (re : t) (subject : string) : list Captures :=
  matchAll_scan re [] (chars subject) 0.

(** [re.test(subject)] from a given position on: is there a match
    starting here or further right? *)
Fixpoint search (re : t) (behind : list ascii) (ahead : list ascii) : bool :=
  match match_at re {| behind := behind; ahead := ahead |} with
  | Some _ => true
  | None =>
      match ahead with
      | [] => false
      | c :: rest => search re (c :: behind) rest
      end
  end.

Definition test (re : t) (subject : string) : bool :=
  search re [] (chars subject).

End RegExp.


(* ===================================================================== *)
(** * HTML utilities, regular-expression implementation  (utils/index) *)
(* ===================================================================== *)

Module Utils.

Import RegExp.

Definition dq : ascii := "034"%char.
Definition sq : ascii := "039"%char.

(** The pattern, its parts set apart by spaces and with flags [gi]:
      <script  \b  [^<]*  (?: (?!<\/script>)  <  [^<]* )*  <\/script> *)
Definition script_elements : RegExp.t :=
  {| source :=
       seq [str "<script"; WordBoundary; Star (Class true [Chr "<"]);
            Star (seq [NegLookahead (str "</script>"); Lit "<";
                       Star (Class true [Chr "<"])]);
            str "</script>"];
     ignoreCase := true |}.

(** The pattern, with Q for the double quote and flag [g]:
      \s*  data-astro-source-  [^=]*  =  Q  [^Q]*  Q *)
Definition source_attributes : RegExp.t :=
  {| source :=
       seq [Star (Class false [Space]); str "data-astro-source-";
            Star (Class true [Chr "="]); Lit "="; Lit dq;
            Star (Class true [Chr dq]); Lit dq];
     ignoreCase := false |}.

(** The pattern, its parts set apart by spaces and with flags [gi]:
      <style  \b  [^<]*  (?: (?!<\/style>)  <  [^<]* )*  <\/style> *)
Definition style_elements : RegExp.t :=
  {| source :=
       seq [str "<style"; WordBoundary; Star (Class true [Chr "<"]);
            Star (seq [NegLookahead (str "</style>"); Lit "<";
                       Star (Class true [Chr "<"])]);
            str "</style>"];
     ignoreCase := true |}.

(** [cleanHTML(html)] *)
Definition cleanHTML (html : string) : string :=
  let html := replace script_elements "" html in
  let html := replace source_attributes "" html in
  let html := replace style_elements "" html in
  Js.trim html.

(** No script element, source attribute or style element is left to
    remove. *)
Definition is_clean (html : string) : bool :=
  negb (test script_elements html)
  && negb (test source_attributes html)
  && negb (test style_elements html).

End Utils.


(* ===================================================================== *)
(** * Plain objects used as dictionaries *)
(* ===================================================================== *)

Module JsObject.

(** Own string-keyed properties, in the order they were created. *)
Definition t : Type := list (string * string).

(** [o[k] = v] *)
Fixpoint set (k v : string) (o : t) : t :=
  match o with
  | [] => [(k, v)]
  | (k', v') :: rest =>
      if String.eqb k k' then (k, v) :: rest else (k', v') :: set k v rest
  end.

Fixpoint decimal (l : list ascii) (acc : N) : N :=
  match l with
  | [] => acc
  | c :: rest => decimal rest (10 * acc + N.of_nat (Js.code c - 48))
  end.

(** The array index a key spells, if it is the canonical spelling of an
    integer below 2^32 - 1. *)
Definition array_index (k : string) : option N :=
  match Js.chars k with
  | [] => None
  | c :: rest =>
      if forallb Js.is_digit (c :: rest)
         && (negb (Ascii.eqb c "0") || Nat.eqb (length rest) 0)
         && (length rest <? 10)%nat
         && (decimal (c :: rest) 0 <? 4294967295)%N
      then Some (decimal (c :: rest) 0)
      else None
  end.

Fixpoint insert_by_index (i : N) (kv : string * string)
         (l : list (N * (string * string))) : list (N * (string * string)) :=
  match l with
  | [] => [(i, kv)]
  | (j, kv') :: rest =>
      if (i <? j)%N then (i, kv) :: l else (j, kv') :: insert_by_index i kv rest
  end.

(** [Object.entries(o)]: array indices in ascending order, then the other
    keys in creation order. *)
Definition entries (o : t) : list (string * string) :=
  let indexed :=
    fold_right (fun kv acc =>
                  match array_index (fst kv) with
                  | Some i => insert_by_index i kv acc
                  | None => acc
                  end) [] o in
  map snd indexed
  ++ List.filter (fun kv => match array_index (fst kv) with
                            | Some _ => false
                            | None => true
                            end) o.

End JsObject.

(* ===================================================================== *)
(** * The component compiler's syntax tree, as the renderers read it *)
(* ===================================================================== *)

Module Ast.

Inductive AttrKind : Type :=
| quoted | empty | expression_attr | spread | shorthand | template_literal.

Record AttributeNode : Type := mkAttr {
  kind : AttrKind;
  attr_name : string;
  attr_value : string
}.

#[warnings="-register-all"]
Inductive Node : Type :=
| text (value : string)
| element (name : string) (attributes : list AttributeNode) (children : list Node)
| component (name : string) (attributes : list AttributeNode) (children : list Node)
| expression (value : option string) (children : list Node)
| frontmatter (value : string)
| style (attributes : option (list AttributeNode)) (children : option (list Node))
        (content : option string)
| other (type : string).

Record Frontmatter : Type := mkFrontmatter {
  fm_value : option string          (* None: not a string *)
}.

(** [result.ast] of [parse(fileContent)], as the renderers read it: its
    children, and a [frontmatter] property they look for through a cast.
    The parser's own [RootNode] type declares children only, and its
    expression nodes carry children and no [value]; the fields are
    optional here because the code reads them, not because the parser
    sets them. *)
Record RootNode : Type := mkRoot {
  root_frontmatter : option Frontmatter;
  root_children : option (list Node)
}.

(** The collaborators of a renderer. *)
Record Env : Type := mkEnv {
  readFile : string -> Res string;
  parse : string -> Res RootNode
}.

End Ast.

(* ===================================================================== *)
(** * Structural renderer  (src/utils/parser-renderer.ts) *)
(* ===================================================================== *)

Module ParserRenderer.

Import Ast RegExp.

Definition dq : ascii := "034"%char.
Definition sq : ascii := "039"%char.
Definition quote : string := String dq EmptyString.
Definition newline : string := String "010"%char EmptyString.

(** The pattern, with Q for either quote character and flag [g]:
      (?:const|let|var)  \s+  (\w+)  \s*  =  \s*  [Q]  ([^Q]+)  [Q] *)
Definition declarations : RegExp.t :=
  {| source :=
       seq [Alt (str "const") (Alt (str "let") (str "var"));
            Plus (Class false [Space]);
            Group 1 (Plus (Class false [Word]));
            Star (Class false [Space]); Lit "=";
            Star (Class false [Space]);
            Class false [Chr dq; Chr sq];
            Group 2 (Plus (Class true [Chr dq; Chr sq]));
            Class false [Chr dq; Chr sq]];
     ignoreCase := false |}.

(** [for (const match of varMatches) if (match[1] && match[2]) vars[match[1]] = match[2]] *)
Definition assign_match (vars : JsObject.t) (caps : Captures) : JsObject.t :=
  match capture caps 1, capture caps 2 with
  | Some (k1 :: k), Some (v1 :: v) =>
      JsObject.set (Js.text (k1 :: k)) (Js.text (v1 :: v)) vars
  | _, _ => vars
  end.

(** [extractFrontmatter(ast)] *)
Definition extractFrontmatter (ast : RootNode) : JsObject.t :=
  match root_frontmatter ast with
  | Some {| fm_value := Some code |} =>
      fold_left assign_match (matchAll declarations code) []
  | _ => []
  end.

Definition nonempty (s : string) : bool := negb (String.eqb s "").

(** The callback of [attributes.map(...)] *)
Definition attributeToString (attr : AttributeNode) : string :=
  match kind attr with
  | quoted =>
      if nonempty (attr_name attr) && nonempty (attr_value attr)
      then attr_name attr +:+ "=" +:+ quote +:+ attr_value attr +:+ quote
      else ""
  | empty => if nonempty (attr_name attr) then attr_name attr else ""
  | _ => ""
  end.

(** [attributes.map(...).filter(Boolean).join(' ')] *)
Definition attributesToString (attributes : list AttributeNode) : string :=
  String.concat " " (List.filter nonempty (map attributeToString attributes)).

Definition voidElements : list string := ["img"; "br"; "hr"; "input"; "meta"; "link"].

(** [tag.replace('>', ' />')]: only the first [>] is replaced. *)
Fixpoint selfClose (tag : string) : string :=
  match tag with
  | EmptyString => EmptyString
  | String c rest =>
      if Ascii.eqb c ">" then " />" +:+ rest else String c (selfClose rest)
  end.

(** [String(node)] of a plain object. *)
Definition objectToString : string := "[object Object]".

(** [nodeToHTML(node)] *)
Fixpoint nodeToHTML (node : Node) : string :=
  match node with
  | text value => value
  | element name attributes children =>
      let attrs := attributesToString attributes in
      let openTag :=
        if nonempty attrs then "<" +:+ name +:+ " " +:+ attrs +:+ ">"
        else "<" +:+ name +:+ ">" in
      match children with
      | [] =>
          if existsb (String.eqb name) voidElements
          then selfClose openTag
          else openTag +:+ "</" +:+ name +:+ ">"
      | _ =>
          openTag +:+ String.concat newline (map nodeToHTML children)
                  +:+ "</" +:+ name +:+ ">"
      end
  | component name _ _ => "<!-- Component: " +:+ name +:+ " -->"
  | expression _ _ => "{" +:+ objectToString +:+ "}"
  | frontmatter _ => ""
  | style attributes children content =>
      let attrs := attributesToString (default [] attributes) in
      let openTag :=
        if nonempty attrs then "<style " +:+ attrs +:+ ">" else "<style>" in
      let inner :=
        String.concat ""
          (map (fun child => match child with text value => value | _ => "" end)
               (default [] children)) in
      let directContent := default "" content in
      openTag +:+ (if nonempty inner then inner else directContent) +:+ "</style>"
  | other _ => ""
  end.

(** The warnings [nodeToHTML] logs on its way: one per component met. *)
Fixpoint warnings (node : Node) : list BuildEvent :=
  match node with
  | element _ _ children => flat_map warnings children
  | component name _ _ =>
      [Log Warn [Txt "Component <"; Txt name;
                 Txt " /> found but won't be resolved (use container renderer for imports)"]]
  | _ => []
  end.

(** Escaped by [key.replace(/[.*+?^${}()|[\]\\]/g, '\\$&')], the key stands
    for itself in [new RegExp(`\\{${escapedKey}\\}`, 'g')]. *)
Definition placeholder (key : string) : RegExp.t :=
  {| source := str ("{" +:+ key +:+ "}"); ignoreCase := false |}.

(** [replaceFrontmatterVars(html, vars)] *)
Definition replaceFrontmatterVars (html : string) (vars : JsObject.t) : string :=
  fold_left (fun result kv => replace (placeholder (fst kv)) (snd kv) result)
            (JsObject.entries vars) html.

(** What [render] computes once the file is parsed. *)
Definition renderAst (ast : RootNode) : string :=
  let vars := extractFrontmatter ast in
  let html :=
    match root_children ast with
    | Some children => String.concat newline (map nodeToHTML children)
    | None => ""
    end in
  replaceFrontmatterVars html vars.

Section Render.

Variable env : Env.

(** [render(filePath)] *)
Definition render (filePath : string) : M Trace string :=
  emit (Log Info [Txt "Rendering component: "; Txt filePath]) ;;
  try_catch
    (fileContent <- await (readFile env filePath) ;;
     ast <- await (parse env fileContent) ;;
     let vars := extractFrontmatter ast in
     emit (Log Debug [Txt "Extracted "; Num (len vars); Txt " frontmatter variables"]) ;;
     modify (fun t => t ++ flat_map warnings (default [] (root_children ast))) ;;
     let html := renderAst ast in
     emit (Log Success [Txt "Rendered "; Txt filePath; Txt " (";
                        Num (Z.of_nat (String.length html)); Txt " chars)"]) ;;
     ret html)
    (fun error =>
       emit (Log Failure [Txt "Failed to render "; Txt filePath; Txt ": "; Err error]) ;;
       throw error).

End Render.

End ParserRenderer.

(* ===================================================================== *)
(** * Structural renderer, earlier JavaScript version  (parser-renderer) *)
(* ===================================================================== *)

Module ParserRendererJs.

Import Ast RegExp.

(** [extractFrontmatter(ast)]: the same declaration pattern, no guards. *)
Definition extractFrontmatter (ast : RootNode) : Res JsObject.t :=
  match root_frontmatter ast with
  | None => Ok []
  | Some {| fm_value := Some code |} =>
      Ok (fold_left
            (fun vars caps =>
               JsObject.set (Js.text (default [] (capture caps 1)))
                            (Js.text (default [] (capture caps 2))) vars)
            (matchAll ParserRenderer.declarations code) [])
  | Some {| fm_value := None |} =>
      Throw (ErrExternal "code.matchAll is not a function")
  end.

Definition attributeToString (attr : AttributeNode) : string :=
  match kind attr with
  | quoted => attr_name attr +:+ "=" +:+ ParserRenderer.quote +:+ attr_value attr
                +:+ ParserRenderer.quote
  | empty => attr_name attr
  | _ => ""
  end.

Definition attributesToString (attributes : list AttributeNode) : string :=
  String.concat " "
    (List.filter ParserRenderer.nonempty (map attributeToString attributes)).

(** [nodeToHTML(node)] *)
Fixpoint nodeToHTML (node : Node) : string :=
  match node with
  | text value => value
  | element name attributes children =>
      let attrs := attributesToString attributes in
      let openTag :=
        if ParserRenderer.nonempty attrs then "<" +:+ name +:+ " " +:+ attrs +:+ ">"
        else "<" +:+ name +:+ ">" in
      match children with
      | [] =>
          if existsb (String.eqb name) ParserRenderer.voidElements
          then ParserRenderer.selfClose openTag
          else openTag +:+ "</" +:+ name +:+ ">"
      | _ =>
          openTag +:+ String.concat "" (map nodeToHTML children)
                  +:+ "</" +:+ name +:+ ">"
      end
  | component name _ _ => "<!-- Component: " +:+ name +:+ " -->"
  | expression value _ => "{" +:+ default "undefined" value +:+ "}"
  | _ => ""
  end.

(** The keys come out of [(\w+)], so [new RegExp(`\\{${key}\\}`, 'g')]
    reads them as themselves. *)
Definition replaceFrontmatterVars (html : string) (vars : JsObject.t) : string :=
  fold_left (fun html kv =>
               replace (ParserRenderer.placeholder (fst kv)) (snd kv) html)
            (JsObject.entries vars) html.

(** What [render] computes once the file is parsed. *)
Definition renderAst (ast : RootNode) : Res string :=
  match extractFrontmatter ast with
  | Ok vars =>
      let html :=
        match root_children ast with
        | Some children => String.concat "" (map nodeToHTML children)
        | None => ""
        end in
      Ok (replaceFrontmatterVars html vars)
  | Throw e => Throw e
  end.

Section Render.

Variable env : Env.

(** [render(componentPath)] *)
Definition render (componentPath : string) : M Trace string :=
  try_catch
    (fileContent <- await (readFile env componentPath) ;;
     ast <- await (parse env fileContent) ;;
     html <- await (renderAst ast) ;;
     modify (fun t => t ++ flat_map ParserRenderer.warnings
                            (default [] (root_children ast))) ;;
     ret html)
    (fun error =>
       emit (Log Failure [Txt "Failed to render "; Txt componentPath; Txt ": ";
                          Err error]) ;;
       throw error).

End Render.

End ParserRendererJs.


(* ===================================================================== *)
(** * Class extraction  (the regular-expression utilities) *)
(* ===================================================================== *)

Module Extract.

Import Js RegExp.

(** The pattern, with Q for the double quote and flag [g]:
      class=  Q  ( [^Q]* )  Q *)
Definition class_attributes : RegExp.t :=
  {| source :=
       seq [str "class="; Lit Utils.dq;
            Group 1 (Star (Class true [Chr Utils.dq])); Lit Utils.dq];
     ignoreCase := false |}.

(** The separator [\s+]. *)
Definition white_space : RegExp.t :=
  {| source := Plus (Class false [Space]); ignoreCase := false |}.

(** [subject.split(separator)] for a separator without capture groups and
    a subject that is not empty: the separator is tried at each position
    in turn; [piece] holds, latest first, the characters since the last
    separator, and [skip] counts the characters of the current separator
    still to pass. A match that ends where the current piece began does
    not split. *)
Fixpoint split_scan (separator : RegExp.t) (behind : list ascii) (ahead : list ascii)
         (skip : nat) (piece : list ascii) : list (list ascii) :=
  match ahead with
  | [] => [rev piece]
  | c :: rest =>
      match skip with
      | S skip' => split_scan separator (c :: behind) rest skip' piece
      | O =>
          match match_at separator {| behind := behind; ahead := ahead |} with
          | None => split_scan separator (c :: behind) rest 0 (c :: piece)
          | Some (p', _) =>
              match (length ahead - length (RegExp.ahead p'))%nat, piece with
              | O, [] => split_scan separator (c :: behind) rest 0 [c]
              | O, _ => rev piece :: split_scan separator (c :: behind) rest 0 [c]
              | S n, _ => rev piece :: split_scan separator (c :: behind) rest n []
              end
          end
      end
  end.

(** [subject.split(separator)]: the empty subject gives no piece if the
    separator matches it, and itself as the one piece otherwise. *)
Definition split (separator : RegExp.t) (subject : string) : list string :=
  match chars subject with
  | [] =>
      match match_at separator {| behind := []; ahead := [] |} with
      | Some _ => []
      | None => [""]
      end
  | l => map text (split_scan separator [] l 0 [])
  end.

(** [classList.forEach((cls) => { if (cls) classes.add(cls); })] *)
Definition add_tokens (classes : list string) (classList : list string) : list string :=
  fold_left (fun classes cls =>
               if negb (String.eqb cls "") then CSSGenerator.set_add cls classes
               else classes)
            classList classes.

(** [extractClasses(html)] *)
Definition extractClasses (html : string) : list string :=
  fold_left (fun classes caps =>
               add_tokens classes
                          (split white_space (text (default [] (capture caps 1)))))
            (matchAll class_attributes html) [].

End Extract.


(* ##################################################################### *)
(** * Properties *)
(* ##################################################################### *)

(* ===================================================================== *)
(** * Theorems: content cache *)
(* ===================================================================== *)

Section CacheFacts.

Import CacheManager.

Lemma strict_eq_spec (v : option string) (hash : string) :
  strict_eq v hash = true <-> v = Some hash.
Proof.
  destruct v as [stored|]; simpl.
  - rewrite String.eqb_eq. split; [intros ->; reflexivity | congruence].
  - split; discriminate.
Qed.

(** C4: [isCached path hash] answers true exactly when the cache holds an
    entry for [path] whose stored value is the string [hash]; with no
    entry for [path] it answers false. *)
Theorem isCached_iff_stored (c : CacheManager.t) (path hash : string) :
  (isCached c path hash = true <-> cache c !! path = Some hash)
  /\ (cache c !! path = None -> isCached c path hash = false).
Proof.
  unfold isCached, getKey. split.
  - apply strict_eq_spec.
  - intros ->. reflexivity.
Qed.

Lemma isCached_after_set (c : CacheManager.t) (path hash : string) :
  isCached (set c path hash) path hash = true.
Proof.
  apply strict_eq_spec. unfold getKey; simpl. apply lookup_insert_eq.
Qed.

Lemma isCached_after_delete (c : CacheManager.t) (path hash : string) :
  isCached (delete c path) path hash = false.
Proof.
  unfold isCached, getKey; simpl. rewrite lookup_delete_eq. reflexivity.
Qed.

End CacheFacts.

(* ===================================================================== *)
(** * Theorems: stylesheet generator *)
(* ===================================================================== *)

Section SetOfClasses.

Import CSSGenerator.

(** Adding a batch of classes to a [Set] appends the new ones, once
    each, after what was there. *)
Lemma add_all_shape (l s : list string) :
  exists k,
    foldl (fun s c => set_add c s) s l = s ++ k
    /\ NoDup k
    /\ (forall x, x ∈ k <-> x ∈ l /\ x ∉ s).
Proof.
  revert s. induction l as [|c l IH]; intros s; simpl.
  - exists []. rewrite app_nil_r. split; [reflexivity|].
    split; [constructor|]. intros x. rewrite elem_of_nil. tauto.
  - unfold set_add at 2. destruct (decide (c ∈ s)) as [Hin|Hnin].
    + destruct (IH s) as (k & -> & Hnd & Hk). exists k.
      split; [reflexivity|]. split; [assumption|].
      intros x. rewrite Hk, elem_of_cons. split.
      * intros [? ?]; auto.
      * intros [[->|?] ?]; [contradiction | auto].
    + destruct (IH (s ++ [c])) as (k & -> & Hnd & Hk). exists (c :: k).
      split; [rewrite <- app_assoc; reflexivity|]. split.
      * constructor; [|assumption]. rewrite Hk. intros [_ Hc].
        apply Hc. apply elem_of_app. right. apply list_elem_of_singleton.
        reflexivity.
      * intros x. rewrite !elem_of_cons, Hk, elem_of_app, list_elem_of_singleton.
        destruct (decide (x = c)) as [->|Hne]; [tauto|]. tauto.
Qed.

Lemma addClasses_perm (g : CSSGenerator.t) (l1 l2 : list string) :
  l1 ≡ₚ l2 -> classes (addClasses g l1) ≡ₚ classes (addClasses g l2).
Proof.
  intros Hp. simpl.
  destruct (add_all_shape l1 (classes g)) as (k1 & -> & Hnd1 & Hk1).
  destruct (add_all_shape l2 (classes g)) as (k2 & -> & Hnd2 & Hk2).
  apply Permutation_app_head. apply NoDup_Permutation; try assumption.
  intros x. rewrite Hk1, Hk2. rewrite Hp. reflexivity.
Qed.

(** The generator itself keeps first-insertion order and does not sort. *)
Example addClasses_keeps_insertion_order :
  classes (addClasses (new "tailwind.config.mjs" true) ["p-4"; "flex"; "p-4"])
  = ["p-4"; "flex"].
Proof. reflexivity. Qed.

Lemma addClasses_NoDup (g : CSSGenerator.t) (l : list string) :
  NoDup (classes g) -> NoDup (classes (addClasses g l)).
Proof.
  intros Hg. simpl.
  destruct (add_all_shape l (classes g)) as (k & -> & Hnd & Hk).
  apply NoDup_app. split; [assumption|]. split; [|assumption].
  intros x Hx Hxk. apply Hk in Hxk. tauto.
Qed.

(** The classes of a list in the order they first occur, each once. *)
Fixpoint first_occurrences (l : list string) : list string :=
  match l with
  | [] => []
  | c :: rest => c :: filter (fun x => x <> c) (first_occurrences rest)
  end.

Example first_occurrences_sample :
  first_occurrences ["p-4"; "flex"; "p-4"; "flex"; "m-1"] = ["p-4"; "flex"; "m-1"].
Proof. vm_compute. reflexivity. Qed.



End SetOfClasses.

Section GenerateFacts.

Import CSSGenerator.

Variable TailwindConfig : Type.
Variable env : Env TailwindConfig.

(** [generate] looks at the class array only through its length and
    through what the utility compiler makes of it. *)
Lemma generate_congruence (g1 g2 : CSSGenerator.t) (outputPath : string) (t : Trace) :
  tailwindConfigPath g1 = tailwindConfigPath g2 ->
  componentStyles g1 = componentStyles g2 ->
  generateTailwind g1 = generateTailwind g2 ->
  length (classes g1) = length (classes g2) ->
  (forall cfg css,
      postcss_process env (modifiedConfig cfg (classes g1)) css
      = postcss_process env (modifiedConfig cfg (classes g2)) css) ->
  generate env g1 outputPath t = generate env g2 outputPath t.
Proof.
  destruct g1 as [p1 c1 s1 f1], g2 as [p2 c2 s2 f2]; simpl.
  intros -> -> -> Hlen Hproc.
  unfold generate, generate_try, len; simpl. rewrite Hlen.
  destruct (Z.of_nat (length c2) =? 0)%Z, (Z.of_nat (length s2) =? 0)%Z;
    simpl; try reflexivity.
  all: unfold bind, try_catch, emit, modify, await, when; simpl.
  all: destruct f2; simpl; try reflexivity.
  all: destruct (import_peers env); simpl; try reflexivity.
  all: destruct (import_config env p2); simpl; try reflexivity.
  all: rewrite Hproc; reflexivity.
Qed.

(** Permuted additions reach the compiler as arrangements of one
    duplicate-free class list, with everything else it is handed
    unchanged; where the compiler answers these two arrangements alike,
    so does [generate]. *)
Lemma generate_permuted_safelist
    (g : CSSGenerator.t) (l1 l2 : list string) (outputPath : string) (t : Trace) :
  l1 ≡ₚ l2 ->
  (forall cfg css,
      postcss_process env (modifiedConfig cfg (classes (addClasses g l1))) css
      = postcss_process env (modifiedConfig cfg (classes (addClasses g l2))) css) ->
  generate env (addClasses g l1) outputPath t
  = generate env (addClasses g l2) outputPath t.
Proof.
  intros Hp Hproc. pose proof (addClasses_perm g l1 l2 Hp) as Hc.
  apply generate_congruence; try reflexivity.
  - apply Permutation_length. exact Hc.
  - exact Hproc.
Qed.


End GenerateFacts.

Section GenerateEmpty.

Import CSSGenerator.

Variable TailwindConfig : Type.
Variable env : Env TailwindConfig.

(** C7: with no class and no style block accumulated, [generate] logs its
    state and a warning, writes no file and returns normally. *)
Theorem generate_nothing_accumulated
    (g : CSSGenerator.t) (outputPath : string) (t : Trace) :
  classes g = [] ->
  componentStyles g = [] ->
  generate env g outputPath t
  = (Ok tt,
     t ++ [Log Info [Txt "CSS Generator state: "; Num 0; Txt " classes, ";
                     Num 0; Txt " component styles"]]
       ++ [Log Warn [Txt "No classes or styles to generate CSS for"]])
  /\ writes (snd (generate env g outputPath t)) = writes t.
Proof.
  intros Hc Hs. unfold generate. rewrite Hc, Hs. simpl.
  unfold bind, emit, modify; simpl. split.
  - rewrite <- app_assoc. reflexivity.
  - unfold writes. rewrite !omap_app. simpl. rewrite !app_nil_r. reflexivity.
Qed.

End GenerateEmpty.

(** A stand-in utility compiler: it knows a fixed vocabulary and emits one
    rule per allowed class, in vocabulary order. *)
Module ToyCompiler.

Import CSSGenerator.

Definition vocabulary : list string := ["flex"; "p-4"; "text-center"].

Definition rules (allowed : list string) : string :=
  String.concat ""
    (map (fun u => "." +:+ u +:+ "{}")
         (filter (fun u => u ∈ allowed) vocabulary)).

Definition env : Env unit :=
  {| import_peers := Ok tt;
     import_config := fun _ => Ok tt;
     postcss_process := fun cfg css => Ok (rules (safelist cfg) +:+ css);
     outputFile := fun _ _ => Ok tt |}.

Lemma ignores_order (cfg : unit) (l1 l2 : list string) (css : string) :
  l1 ≡ₚ l2 ->
  postcss_process env (modifiedConfig cfg l1) css
  = postcss_process env (modifiedConfig cfg l2) css.
Proof.
  intros Hp. simpl. unfold rules. do 4 f_equal.
  apply list_filter_iff. intros u. rewrite Hp. reflexivity.
Qed.

End ToyCompiler.

(** A utility compiler that emits one rule per class of its safelist, in
    the order of the safelist. *)
Module OrderedCompiler.

Import CSSGenerator.

Definition rules (allowed : list string) : string :=
  String.concat "" (map (fun u => "." +:+ u +:+ "{}") allowed).

Definition env : Env unit :=
  {| import_peers := Ok tt;
     import_config := fun _ => Ok tt;
     postcss_process := fun cfg css => Ok (rules (safelist cfg) +:+ css);
     outputFile := fun _ _ => Ok tt |}.

End OrderedCompiler.



Lemma generate_nothing_accumulated_witness :
  writes (snd (CSSGenerator.generate ToyCompiler.env
                 (CSSGenerator.new "tailwind.config.mjs" true)
                 "out/lazy-components.css" []))
  = writes [].
Proof.
  apply (generate_nothing_accumulated unit ToyCompiler.env
           (CSSGenerator.new "tailwind.config.mjs" true)
           "out/lazy-components.css" []); reflexivity.
Defined.


(* ===================================================================== *)
(** * Theorems: pipeline orchestrator *)
(* ===================================================================== *)

(** Unfold the monad down to functions on states. *)
Ltac unfold_monad :=
  unfold bind, try_catch, ret, throw, gets, modify, await, when, emit in *.

Lemma bind_ok {S A B} (m : M S A) (k : A -> M S B) (s : S) (a : A) (s1 : S) :
  m s = (Ok a, s1) -> bind m k s = k a s1.
Proof. intros H. unfold bind. rewrite H. reflexivity. Qed.

Lemma bind_ext {S A B} (m : M S A) (k1 k2 : A -> M S B) (s : S) :
  (forall a s', k1 a s' = k2 a s') -> bind m k1 s = bind m k2 s.
Proof. intros H. unfold bind. destruct (m s) as [[a|e] s']; [apply H | reflexivity]. Qed.

Lemma bind_throw {S A B} (m : M S A) (k : A -> M S B) (s : S) (e : Error) (s1 : S) :
  m s = (Throw e, s1) -> bind m k s = (Throw e, s1).
Proof. intros H. unfold bind. rewrite H. reflexivity. Qed.

Section Preservation.

Context {S : Type}.
Variable R : S -> S -> Prop.
Hypothesis R_refl : forall s, R s s.
Hypothesis R_trans : forall s1 s2 s3, R s1 s2 -> R s2 s3 -> R s1 s3.

(** Whatever [m] returns or throws, the state it leaves is related to the
    one it started in. *)
Definition preserves {A} (m : M S A) : Prop :=
  forall s, R s (snd (m s)).

Lemma preserves_ret {A} (a : A) : preserves (ret a).
Proof. intros s. apply R_refl. Qed.

Lemma preserves_throw {A} (e : Error) : preserves (@throw S A e).
Proof. intros s. apply R_refl. Qed.

Lemma preserves_await {A} (r : Res A) : preserves (await r).
Proof. intros s. apply R_refl. Qed.

Lemma preserves_gets {A} (f : S -> A) : preserves (gets f).
Proof. intros s. apply R_refl. Qed.

Lemma preserves_modify (f : S -> S) :
  (forall s, R s (f s)) -> preserves (modify f).
Proof. intros Hf s. apply Hf. Qed.

Lemma preserves_bind {A B} (m : M S A) (k : A -> M S B) :
  preserves m -> (forall a, preserves (k a)) -> preserves (bind m k).
Proof.
  intros Hm Hk s. unfold bind. specialize (Hm s).
  destruct (m s) as [[a|e] s']; simpl in *.
  - eapply R_trans; [exact Hm | apply Hk].
  - exact Hm.
Qed.

Lemma preserves_try_catch {A} (m : M S A) (h : Error -> M S A) :
  preserves m -> (forall e, preserves (h e)) -> preserves (try_catch m h).
Proof.
  intros Hm Hh s. unfold try_catch. specialize (Hm s).
  destruct (m s) as [[a|e] s']; simpl in *.
  - exact Hm.
  - eapply R_trans; [exact Hm | apply Hh].
Qed.

Lemma preserves_when (b : bool) (m : M S unit) :
  preserves m -> preserves (when b m).
Proof. intros Hm. destruct b; simpl; [exact Hm | apply preserves_ret]. Qed.

End Preservation.

(** Walk down a monadic body, leaving the state-changing steps as goals. *)
Ltac preserve_steps :=
  repeat first
    [ match goal with H : context [preserves] |- _ => apply H end
    | apply preserves_ret; assumption
    | apply preserves_throw; assumption
    | apply preserves_await; assumption
    | apply preserves_gets; assumption
    | apply preserves_bind; [assumption | | intros ?]
    | apply preserves_try_catch; [assumption | | intros ?]
    | apply preserves_when; [assumption | ]
    | match goal with
      | |- preserves _ (match ?x with _ => _ end) => destruct x
      | |- preserves _ (if ?b then _ else _) => destruct b
      end ].

Section PipelineFacts.

Import Plugin.

Variable opts : Options.
Variable paths : Paths.

(** The cache entry of a path; [None] without a cache or without an entry. *)
Definition entry (s : State) (path : string) : option string :=
  match cacheManager s with
  | Some c => CacheManager.cache c !! path
  | None => None
  end.

(** What no step of the pipeline rebinds. *)
Definition same_wiring (s s' : State) : Prop :=
  root s' = root s
  /\ componentRenderer s' = componentRenderer s
  /\ parserFallback s' = parserFallback s.

(** The entry of [path] is left alone. *)
Definition keeps_entry (path : string) (s s' : State) : Prop :=
  same_wiring s s' /\ entry s' path = entry s path.

(** Neither the cache nor the written files nor the accumulators move. *)
Definition untouched (s s' : State) : Prop :=
  same_wiring s s'
  /\ cacheManager s' = cacheManager s
  /\ cssGenerator s' = cssGenerator s
  /\ writes (trace s') = writes (trace s).

Lemma keeps_entry_refl path s : keeps_entry path s s.
Proof. unfold keeps_entry, same_wiring. auto. Qed.

Lemma keeps_entry_trans path s1 s2 s3 :
  keeps_entry path s1 s2 -> keeps_entry path s2 s3 -> keeps_entry path s1 s3.
Proof.
  unfold keeps_entry, same_wiring.
  intros ((? & ? & ?) & ?) ((? & ? & ?) & ?). repeat split; congruence.
Qed.

Lemma untouched_refl s : untouched s s.
Proof. unfold untouched, same_wiring. auto 10. Qed.

Lemma untouched_trans s1 s2 s3 :
  untouched s1 s2 -> untouched s2 s3 -> untouched s1 s3.
Proof.
  unfold untouched, same_wiring.
  intros ((? & ? & ?) & ? & ? & ?) ((? & ? & ?) & ? & ? & ?).
  repeat split; congruence.
Qed.

Lemma untouched_keeps_entry path s s' : untouched s s' -> keeps_entry path s s'.
Proof.
  unfold untouched, keeps_entry, entry. intros (? & -> & _). auto.
Qed.

Lemma writes_snoc_log (t : Trace) level message :
  writes (t ++ [Log level message]) = writes t.
Proof. unfold writes. rewrite omap_app. simpl. apply app_nil_r. Qed.

Lemma log_untouched level message : preserves untouched (log level message).
Proof.
  intros s. unfold log, lift_trace, emit, modify, untouched, same_wiring; simpl.
  rewrite writes_snoc_log. auto 10.
Qed.

Lemma log_keeps_entry path level message :
  preserves (keeps_entry path) (log level message).
Proof. intros s. apply untouched_keeps_entry, log_untouched. Qed.

(** Anything that only appends to the trace leaves every entry alone. *)
Lemma lift_trace_keeps_entry {A} path (m : M Trace A) :
  preserves (keeps_entry path) (lift_trace m).
Proof.
  intros s. unfold lift_trace. destruct (m (trace s)) as [r t]. simpl.
  unfold keeps_entry, same_wiring, entry; simpl; auto.
Qed.

Lemma set_cssGenerator_keeps_entry path g s :
  keeps_entry path s (set_cssGenerator g s).
Proof. unfold keeps_entry, same_wiring, entry; simpl; auto. Qed.

(** Writing a fragment updates the accumulators and the entry of the
    component being processed, and no other entry. *)
Lemma emitFragment_keeps_entry (a : Answers) (rootPath componentPath html path : string) :
  path <> componentPath ->
  preserves (keeps_entry path) (emitFragment opts paths a rootPath componentPath html).
Proof.
  intros Hne.
  pose proof (keeps_entry_refl path) as Hrefl.
  pose proof (keeps_entry_trans path) as Htrans.
  unfold emitFragment, writeFragment, minifyHTML.
  preserve_steps.
  all: try apply log_keeps_entry.
  all: try apply lift_trace_keeps_entry.
  all: try solve [apply preserves_modify; intros s; destruct (cssGenerator s);
                  [try destruct (0 <? len _)%Z|];
                  unfold keeps_entry, same_wiring, entry; simpl; auto].
  apply preserves_modify. intros s. unfold keeps_entry, same_wiring, entry.
  destruct (cacheManager s) as [c|] eqn:Hc; simpl; rewrite ?Hc; auto.
  rewrite lookup_insert_ne by congruence. auto.
Qed.

Lemma processComponent_keeps_entry (a : Answers) (componentPath path : string) :
  path <> componentPath ->
  preserves (keeps_entry path) (processComponent opts paths a componentPath).
Proof.
  intros Hne.
  pose proof (keeps_entry_refl path) as Hrefl.
  pose proof (keeps_entry_trans path) as Htrans.
  pose proof (fun rootPath h =>
                emitFragment_keeps_entry a rootPath componentPath h path Hne) as Hemit.
  unfold processComponent, processComponent_try.
  preserve_steps.
  all: apply log_keeps_entry.
Qed.

(** A component whose rendering fails: the cache, the accumulators and
    the written files are as they were. *)
Lemma processComponent_fails_untouched (a : Answers) (componentPath : string) (s : State) :
  rendering_fails s a = true ->
  untouched s (snd (processComponent opts paths a componentPath s)).
Proof.
  intros Hf.
  pose proof (log_untouched) as Hlog.
  unfold processComponent, processComponent_try, rendering_fails, throws, no_html in *.
  unfold_monad. simpl.
  destruct (root_of s) as [rootPath|]; [|apply untouched_refl].
  destruct (cacheManager s) as [c|] eqn:Hc; simpl.
  - destruct (hash_before a) as [hash|e]; simpl; [|apply Hlog].
    destruct (CacheManager.isCached c componentPath hash); simpl; [apply Hlog|].
    destruct (componentRenderer s); simpl; [|apply untouched_refl].
    destruct (rendered a) as [[h|]|e]; simpl in *; try discriminate.
    + destruct (negb (h =? "")%string) eqn:Hh; simpl in *; try discriminate.
      destruct (parserFallback s) eqn:Hfb; simpl in *.
      * destruct (fallback_rendered a) as [[h'|]|e'] eqn:Hfr; simpl in *;
          try discriminate; rewrite ?Hfr; simpl.
        -- destruct (negb (h' =? "")%string) eqn:Hh'; simpl in *; try discriminate.
           eapply untouched_trans; [apply Hlog|]. simpl. apply untouched_refl.
        -- eapply untouched_trans; [apply Hlog|]. simpl. apply untouched_refl.
        -- eapply untouched_trans; [apply Hlog|]. simpl.
           eapply untouched_trans; [|apply Hlog]. apply untouched_refl.
      * rewrite Hh. apply untouched_refl.
    + destruct (parserFallback s) eqn:Hfb; simpl in *.
      * destruct (fallback_rendered a) as [[h'|]|e'] eqn:Hfr; simpl in *;
          try discriminate; rewrite ?Hfr; simpl.
        -- destruct (negb (h' =? "")%string) eqn:Hh'; simpl in *; try discriminate.
           eapply untouched_trans; [apply Hlog|]. simpl. apply untouched_refl.
        -- eapply untouched_trans; [apply Hlog|]. simpl. apply untouched_refl.
        -- eapply untouched_trans; [apply Hlog|]. simpl.
           eapply untouched_trans; [|apply Hlog]. apply untouched_refl.
      * apply untouched_refl.
    + apply Hlog.
  - destruct (componentRenderer s); simpl; [|apply untouched_refl].
    destruct (rendered a) as [[h|]|e]; simpl in *; try discriminate.
    + destruct (negb (h =? "")%string) eqn:Hh; simpl in *; try discriminate.
      destruct (parserFallback s) eqn:Hfb; simpl in *.
      * destruct (fallback_rendered a) as [[h'|]|e'] eqn:Hfr; simpl in *;
          try discriminate; rewrite ?Hfr; simpl.
        -- destruct (negb (h' =? "")%string) eqn:Hh'; simpl in *; try discriminate.
           eapply untouched_trans; [apply Hlog|]. simpl. apply untouched_refl.
        -- eapply untouched_trans; [apply Hlog|]. simpl. apply untouched_refl.
        -- eapply untouched_trans; [apply Hlog|]. simpl.
           eapply untouched_trans; [|apply Hlog]. apply untouched_refl.
      * rewrite Hh. apply untouched_refl.
    + destruct (parserFallback s) eqn:Hfb; simpl in *.
      * destruct (fallback_rendered a) as [[h'|]|e'] eqn:Hfr; simpl in *;
          try discriminate; rewrite ?Hfr; simpl.
        -- destruct (negb (h' =? "")%string) eqn:Hh'; simpl in *; try discriminate.
           eapply untouched_trans; [apply Hlog|]. simpl. apply untouched_refl.
        -- eapply untouched_trans; [apply Hlog|]. simpl. apply untouched_refl.
        -- eapply untouched_trans; [apply Hlog|]. simpl.
           eapply untouched_trans; [|apply Hlog]. apply untouched_refl.
      * apply untouched_refl.
    + apply Hlog.
Qed.

(** Every occurrence of [path] among the files of a pass fails to render. *)
Definition fails_when_processed (path : string) (s : State)
           (files : list (string * Answers)) : bool :=
  forallb (fun f => negb (String.eqb (fst f) path) || rendering_fails s (snd f)) files.

Lemma fails_when_processed_wiring path s s' files :
  same_wiring s s' ->
  fails_when_processed path s' files = fails_when_processed path s files.
Proof.
  intros (_ & _ & Hfb). unfold fails_when_processed, rendering_fails.
  rewrite Hfb. reflexivity.
Qed.

Lemma processEach_keeps_entry path files :
  forall s,
    fails_when_processed path s files = true ->
    keeps_entry path s (snd (processEach opts paths files s)).
Proof.
  induction files as [|[q a] rest IH]; intros s Hf; simpl.
  - apply keeps_entry_refl.
  - simpl in Hf. apply andb_prop in Hf as [Hq Hrest].
    assert (keeps_entry path s (snd (processComponent opts paths a q s))) as Hstep.
    { destruct (String.eqb_spec q path) as [->|Hne]; simpl in Hq.
      - apply untouched_keeps_entry, processComponent_fails_untouched, Hq.
      - apply processComponent_keeps_entry. congruence. }
    unfold bind. destruct (processComponent opts paths a q s) as [[[]|e] s1];
      simpl in *; [|exact Hstep].
    eapply keeps_entry_trans; [exact Hstep|]. apply IH.
    rewrite (fails_when_processed_wiring path s s1); [exact Hrest | apply Hstep].
Qed.

Section PassFacts.

Variable TailwindConfig : Type.
Variable cssEnv : CSSGenerator.Env TailwindConfig.

Lemma generateCSS_keeps_entry path :
  preserves (keeps_entry path) (generateCSS opts paths TailwindConfig cssEnv).
Proof.
  pose proof (keeps_entry_refl path) as Hrefl.
  pose proof (keeps_entry_trans path) as Htrans.
  unfold generateCSS. preserve_steps.
  apply lift_trace_keeps_entry.
Qed.

Lemma saveCache_keeps_entry path : preserves (keeps_entry path) saveCache.
Proof.
  pose proof (keeps_entry_refl path) as Hrefl.
  pose proof (keeps_entry_trans path) as Htrans.
  unfold saveCache. preserve_steps.
  apply lift_trace_keeps_entry.
Qed.

(** The state in which the components of a pass are processed as far as
    the cache goes: the persisted store read in, unless it was already. *)
Definition at_pass_start (persisted : gmap string string) (s : State) : State :=
  match root_of s with
  | Some _ => snd (loadCache persisted s)
  | None => s
  end.

(** C3: in a pass, a component whose processing fails (its renderer throws,
    or every strategy tried yields no HTML) keeps the cache entry it had
    when the pass started; the entry is not set to the new hash. *)
Theorem failed_component_keeps_cache_entry
    (persisted : gmap string string) (files : list (string * Answers))
    (s : State) (path : string) :
  fails_when_processed path s files = true ->
  entry (snd (processAll opts paths TailwindConfig cssEnv persisted files s)) path
  = entry (at_pass_start persisted s) path.
Proof.
  intros Hf. unfold processAll, at_pass_start.
  rewrite (bind_ok _ _ s (root_of s) s) by reflexivity.
  destruct (root_of s) as [rootPath|]; [|reflexivity].
  pose (s1 := snd (log Info [Txt "Processing components from ";
                            Txt (componentsDir opts); Txt "..."] s)).
  pose (s2 := snd (loadCache persisted s1)).
  rewrite (bind_ok _ _ s tt s1) by reflexivity.
  rewrite (bind_ok _ _ s1 tt s2) by reflexivity.
  assert (keeps_entry path s s1) as H1 by apply log_keeps_entry.
  assert (same_wiring s s2) as Hw2.
  { unfold s2, loadCache, modify; simpl.
    destruct (cacheManager s) as [c|]; [destruct (CacheManager.loaded c)|];
      apply H1. }
  assert (entry s2 path = entry (snd (loadCache persisted s)) path) as He2.
  { unfold s2, loadCache, modify, entry; simpl.
    destruct (cacheManager s) as [c|]; [destruct (CacheManager.loaded c)|];
      reflexivity. }
  rewrite <- He2.
  pose proof (keeps_entry_refl path) as Hrefl.
  pose proof (keeps_entry_trans path) as Htrans.
  assert (forall s', same_wiring s s' ->
            keeps_entry path s' (snd (processEach opts paths files s'))) as Heach.
  { intros s' Hw. apply processEach_keeps_entry.
    rewrite (fails_when_processed_wiring path s s'); assumption. }
  match goal with
  | |- entry (snd (?m s2)) path = _ =>
      assert (forall s', same_wiring s s' -> keeps_entry path s' (snd (m s'))) as Hrest
  end.
  { intros s' Hw. unfold bind at 1, modify at 1.
    set (s3 := match cssGenerator s' with
               | Some g => set_cssGenerator (Some (CSSGenerator.clear g)) s'
               | None => s'
               end).
    assert (keeps_entry path s' s3) as H3.
    { unfold s3. destruct (cssGenerator s'); unfold keeps_entry, same_wiring, entry;
        simpl; auto. }
    eapply keeps_entry_trans; [exact H3|].
    assert (same_wiring s s3) as Hw3.
    { destruct H3 as ((? & ? & ?) & _), Hw as (? & ? & ?).
      unfold same_wiring. repeat split; congruence. }
    destruct (len files =? 0)%Z; [apply log_keeps_entry|].
    unfold bind at 1. specialize (Heach s3 Hw3).
    destruct (processEach opts paths files s3) as [[[]|e] s4]; simpl in *;
      [|exact Heach].
    eapply keeps_entry_trans; [exact Heach|].
    revert s4 Heach. 
    assert (preserves (keeps_entry path)
              (generateCSS opts paths TailwindConfig cssEnv ;; saveCache ;;
               log Success [Txt "Processed "; Num (len files); Txt " component(s)"]))
      as Hp.
    { pose proof (generateCSS_keeps_entry path) as Hg.
      pose proof (saveCache_keeps_entry path) as Hs.
      preserve_steps. apply log_keeps_entry. }
    intros s4 _. apply Hp. }
  apply Hrest. exact Hw2.
Qed.

End PassFacts.

End PipelineFacts.

(** One pass over one component whose renderer throws. *)
Module FailingPass.

Import Plugin.

Definition opts : Options :=
  {| componentsDir := "src/components/Lazy"; outputDir := "public/prerendered";
     generateTailwindCSS := true; tailwindConfigPath := "tailwind.config.mjs";
     renderer := parser; minify := true |}.

Definition paths : Paths :=
  {| join := fun a b => a +:+ "/" +:+ b;
     relative := fun _ p => p;
     basename := fun p _ => p |}.

Definition footer : string := "/site/src/components/Lazy/Footer.astro".

Definition answers : Answers :=
  {| hash_before := Ok "new-hash";
     rendered := Throw (ErrExternal "Unable to parse");
     fallback_rendered := Ok None;
     extractStyles := fun _ => Ok [];
     cleanHTML := fun h => Ok h;
     extractClasses := fun _ => Ok [];
     minifier := fun h => Ok h;
     written := Ok tt;
     hash_after := Ok "new-hash" |}.

Definition persisted : gmap string string := {[ footer := "old-hash" ]}.

Definition start : State := configResolved opts paths "/site" [].

End FailingPass.

Lemma failed_component_keeps_cache_entry_witness :
  entry (snd (Plugin.processAll FailingPass.opts FailingPass.paths unit ToyCompiler.env
                FailingPass.persisted
                [(FailingPass.footer, FailingPass.answers)] FailingPass.start))
        FailingPass.footer
  = entry (at_pass_start FailingPass.persisted FailingPass.start) FailingPass.footer.
Proof.
  apply (failed_component_keeps_cache_entry FailingPass.opts FailingPass.paths
           unit ToyCompiler.env FailingPass.persisted
           [(FailingPass.footer, FailingPass.answers)] FailingPass.start
           FailingPass.footer).
  reflexivity.
Defined.

Example failing_pass_entry :
  entry (snd (Plugin.processAll FailingPass.opts FailingPass.paths unit ToyCompiler.env
                FailingPass.persisted
                [(FailingPass.footer, FailingPass.answers)] FailingPass.start))
        FailingPass.footer
  = Some "old-hash".
Proof. vm_compute. reflexivity. Qed.

(** For contrast: a component that renders gets its entry set to the new
    hash, and one for which both strategies give nothing keeps the old. *)
Example rendering_pass_entry :
  entry (snd (Plugin.processAll FailingPass.opts FailingPass.paths unit ToyCompiler.env
                FailingPass.persisted
                [(FailingPass.footer,
                  {| Plugin.hash_before := Ok "new-hash";
                     Plugin.rendered := Ok (Some "<footer class=flex></footer>");
                     Plugin.fallback_rendered := Ok None;
                     Plugin.extractStyles := fun _ => Ok [];
                     Plugin.cleanHTML := fun h => Ok h;
                     Plugin.extractClasses := fun _ => Ok ["flex"];
                     Plugin.minifier := fun h => Ok h;
                     Plugin.written := Ok tt;
                     Plugin.hash_after := Ok "new-hash" |})]
                FailingPass.start))
        FailingPass.footer
  = Some "new-hash".
Proof. vm_compute. reflexivity. Qed.

Example no_html_pass_entry :
  entry (snd (Plugin.processAll
                {| Plugin.componentsDir := "src/components/Lazy";
                   Plugin.outputDir := "public/prerendered";
                   Plugin.generateTailwindCSS := true;
                   Plugin.tailwindConfigPath := "tailwind.config.mjs";
                   Plugin.renderer := Plugin.container;
                   Plugin.minify := true |}
                FailingPass.paths unit ToyCompiler.env
                FailingPass.persisted
                [(FailingPass.footer,
                  {| Plugin.hash_before := Ok "new-hash";
                     Plugin.rendered := Ok None;
                     Plugin.fallback_rendered := Ok (Some "");
                     Plugin.extractStyles := fun _ => Ok [];
                     Plugin.cleanHTML := fun h => Ok h;
                     Plugin.extractClasses := fun _ => Ok [];
                     Plugin.minifier := fun h => Ok h;
                     Plugin.written := Ok tt;
                     Plugin.hash_after := Ok "new-hash" |})]
                (Plugin.configResolved
                   {| Plugin.componentsDir := "src/components/Lazy";
                      Plugin.outputDir := "public/prerendered";
                      Plugin.generateTailwindCSS := true;
                      Plugin.tailwindConfigPath := "tailwind.config.mjs";
                      Plugin.renderer := Plugin.container;
                      Plugin.minify := true |}
                   FailingPass.paths "/site" [])))
        FailingPass.footer
  = Some "old-hash".
Proof. vm_compute. reflexivity. Qed.

(** For contrast: with one class accumulated the stylesheet is written. *)
Example generate_one_class_writes :
  writes (snd (CSSGenerator.generate ToyCompiler.env
                 (CSSGenerator.addClasses (CSSGenerator.new "tailwind.config.mjs" true)
                                          ["flex"])
                 "out/lazy-components.css" []))
  = [("out/lazy-components.css",
      ".flex{}" +:+ CSSGenerator.tailwind_directives)].
Proof. vm_compute. reflexivity. Qed.

(* ===================================================================== *)
(** * Theorems: client runtime loader *)
(* ===================================================================== *)

Section LoaderFacts.

Import LazyLoader.

Variable browser : Browser.

Lemma requests_snoc (evs : list Event) (e : Event) :
  is_request e = false -> requests (evs ++ [e]) = requests evs.
Proof.
  intros He. unfold requests. rewrite List.filter_app. simpl. rewrite He.
  apply app_nil_r.
Qed.

(** The world a cache hit leaves behind, whether or not debugging logs. *)
Definition after_hit (componentName html : string) (w : World) : World :=
  let d := (performance_now browser (S (readings w)) - performance_now browser (readings w))%Q in
  let b := blob_size html in
  {| loader :=
       with_detailedStats
         (insert componentName
            {| duration := d; bytes := b; fromCache := true;
               timestamp := date_now browser (dates w);
               secondaryAssets := None |})
         (with_stats
            (fun s => add_loadTime d (bump_totalLoads (bump_cacheHits s)))
            (loader w));
     events :=
       events w
       ++ (if debug (config (loader w))
           then [Console Debug [Txt "Cache hit: "; Txt componentName]] else [])
       ++ [OnLoad componentName d b true None];
     fetches := fetches w;
     links := links w;
     readings := S (S (readings w));
     dates := S (dates w) |}.

Lemma load_hit_runs (componentName html : string) (w : World) :
  cacheHTML (config (loader w)) = true ->
  htmlCache (loader w) !! componentName = Some html ->
  load browser componentName w = (Ok html, after_hit componentName html w).
Proof.
  intros Hc Hh. unfold load, load_hit, now, today, log, read, update, emit, after_hit.
  unfold_monad. simpl. rewrite Hc, Hh. simpl.
  destruct w as [l evs nf nl nr nd]; simpl in *.
  destruct l as [c hc cc ob mf ml bl ll st ds]; simpl in *.
  destruct (debug c); simpl; rewrite <- ?app_assoc; reflexivity.
Qed.

(** C8: with HTML caching on and an entry for the name in the HTML cache,
    [load] returns the cached HTML, counts a cache hit, and issues no
    network request: no fetch is made and no link element is appended. *)
Theorem load_cache_hit_no_network (componentName html : string) (w : World) :
  cacheHTML (config (loader w)) = true ->
  htmlCache (loader w) !! componentName = Some html ->
  fst (load browser componentName w) = Ok html
  /\ cacheHits (stats (loader (snd (load browser componentName w))))
     = (cacheHits (stats (loader w)) + 1)%N
  /\ requests (events (snd (load browser componentName w))) = requests (events w)
  /\ fetches (snd (load browser componentName w)) = fetches w
  /\ links (snd (load browser componentName w)) = links w.
Proof.
  intros Hc Hh. rewrite (load_hit_runs componentName html w Hc Hh). simpl.
  repeat split.
  rewrite app_assoc. rewrite requests_snoc by reflexivity.
  destruct (debug (config (loader w))).
  - apply requests_snoc. reflexivity.
  - rewrite app_nil_r. reflexivity.
Qed.

(** C9: on the cache-hit path [totalLoads] and [cacheHits] each go up by
    one and [totalBytes] stays as it was; the size of the cached fragment
    is what the [onLoad] callback is told, in the last event of the call. *)
Theorem load_cache_hit_stats (componentName html : string) (w : World) :
  cacheHTML (config (loader w)) = true ->
  htmlCache (loader w) !! componentName = Some html ->
  totalLoads (stats (loader (snd (load browser componentName w))))
  = (totalLoads (stats (loader w)) + 1)%N
  /\ cacheHits (stats (loader (snd (load browser componentName w))))
     = (cacheHits (stats (loader w)) + 1)%N
  /\ totalBytes (stats (loader (snd (load browser componentName w))))
     = totalBytes (stats (loader w))
  /\ exists d,
      last (events (snd (load browser componentName w)))
      = Some (OnLoad componentName d (blob_size html) true None).
Proof.
  intros Hc Hh. rewrite (load_hit_runs componentName html w Hc Hh). simpl.
  repeat split. eexists. rewrite app_assoc. apply last_snoc.
Qed.

(** A division by zero would show: its result is not a finite number. *)
Lemma divide_by_zero_not_finite (a q : Q) : divide a 0 <> Finite q.
Proof. unfold divide. simpl. destruct (Qcompare a 0); discriminate. Qed.

Lemma divide_finite (a : Q) (n : N) :
  n <> 0%N -> divide a n = Finite (a / inject_Z (Z.of_N n)).
Proof.
  intros Hn. unfold divide. destruct (N.eqb_spec n 0); [contradiction|reflexivity].
Qed.

(** C10: [getStats] never divides by zero. With [totalLoads] at zero the
    average is 0; otherwise it is [totalLoadTime / totalLoads]; either way
    a finite number. *)
Theorem getStats_average_guarded (l : Loader) :
  averageLoadTime (getStats l)
  = Finite (if (totalLoads (stats l) =? 0)%N then 0
            else totalLoadTime (stats l) / inject_Z (Z.of_N (totalLoads (stats l)))).
Proof.
  unfold getStats; simpl.
  destruct (N.eqb_spec (totalLoads (stats l)) 0) as [Hz|Hnz].
  - rewrite Hz. reflexivity.
  - destruct (N.ltb_spec 0 (totalLoads (stats l))) as [_|Hle]; [|lia].
    apply divide_finite. exact Hnz.
Qed.

(** A 404 on a turn that is not the last does not leave the loop: the
    error thrown for it is caught by the turn's own [catch]. *)
Lemma attempt_404_falls_through (url : string) (retries attempt : Z)
      (response : Response) (w : World) :
  fetch_outcome browser (fetches w) url = Ok response ->
  status response = 404%Z ->
  attempt <> retries ->
  fst (fetchWithRetry_attempt browser url retries attempt w) = Ok None.
Proof.
  intros Hf Hs Hne.
  unfold fetchWithRetry_attempt, fetch, log, read, emit. unfold_monad. simpl.
  destruct (debug (config (loader w))); simpl; rewrite Hf; simpl.
  all: unfold ok; rewrite Hs; simpl.
  all: destruct (Z.eqb_spec attempt retries) as [|_]; [contradiction|]; simpl.
  all: destruct (debug (config (loader w))); reflexivity.
Qed.

(** The loop's fuel is never what stops it: any fuel that covers the turns
    from [attempt] to [retries] gives the same run. *)
Lemma fetchWithRetry_loop_fuel (url : string) (retries : Z) (fuel1 : nat) :
  forall (fuel2 : nat) (attempt : Z) (w : World),
    (Z.to_nat (retries - attempt + 1) <= fuel1)%nat ->
    (Z.to_nat (retries - attempt + 1) <= fuel2)%nat ->
    fetchWithRetry_loop browser fuel1 url retries attempt w
    = fetchWithRetry_loop browser fuel2 url retries attempt w.
Proof.
  induction fuel1 as [|fuel1 IH]; intros fuel2 attempt w H1 H2.
  - destruct fuel2 as [|fuel2]; simpl; [reflexivity|].
    destruct (Z.leb_spec attempt retries); [lia | reflexivity].
  - destruct fuel2 as [|fuel2]; simpl.
    + destruct (Z.leb_spec attempt retries); [lia | reflexivity].
    + destruct (Z.leb_spec attempt retries); [|reflexivity].
      apply bind_ext. intros [response|] w1; [reflexivity|].
      apply bind_ext. intros delay w2.
      apply bind_ext. intros [] w3.
      apply IH; lia.
Qed.

(** [fetchWithRetry] always comes back, with a response or an error. *)
Lemma fetchWithRetry_total (url : string) (retries : Z) (w : World) :
  exists r w', fetchWithRetry browser url retries w = (r, w').
Proof. destruct (fetchWithRetry browser url retries w) as [r w']. eauto. Qed.

End LoaderFacts.

(** A server that answers the first request with 404 and every later one
    with the fragment. *)
Module NotFoundOnce.

Import LazyLoader.

Definition notFound : Response :=
  {| status := 404; statusText := "Not Found"; text := Ok ""; json := Ok None |}.

Definition found : Response :=
  {| status := 200; statusText := "OK"; text := Ok "<footer></footer>";
     json := Ok None |}.

Definition browser : Browser :=
  {| fetch_outcome := fun n _ => match n with O => Ok notFound | S _ => Ok found end;
     link_loads := fun _ _ => true;
     performance_now := fun n => inject_Z (Z.of_nat n);
     date_now := fun n => Z.of_nat n;
     observer_new := Ok tt;
     observe_throws := fun _ => false;
     querySelector := fun _ => Ok true |}.

Definition url : string := "/prerendered/Footer.html".

End NotFoundOnce.

(** C1 (as the code behaves): with three attempts allowed and a 404 on the
    first, [fetchWithRetry] waits the back-off, fetches again and resolves
    with the second response. *)
Theorem fetchWithRetry_retries_after_404 :
  LazyLoader.fetchWithRetry NotFoundOnce.browser NotFoundOnce.url 3
    (LazyLoader.boot (LazyLoader.new LazyLoader.defaultConfig))
  = (Ok NotFoundOnce.found,
     {| LazyLoader.loader := LazyLoader.new LazyLoader.defaultConfig;
        LazyLoader.events :=
          [LazyLoader.Fetch NotFoundOnce.url;
           LazyLoader.SetTimeout 1000;
           LazyLoader.Fetch NotFoundOnce.url];
        LazyLoader.fetches := 2;
        LazyLoader.links := 0;
        LazyLoader.readings := 0;
        LazyLoader.dates := 0 |}).
Proof. reflexivity. Qed.

(** Only on the last turn does a 404 end the call, and then with the
    generic HTTP error. *)
Example fetchWithRetry_404_last_turn :
  fst (LazyLoader.fetchWithRetry NotFoundOnce.browser NotFoundOnce.url 1
         (LazyLoader.boot (LazyLoader.new LazyLoader.defaultConfig)))
  = Throw (ErrHttp 404 "Not Found").
Proof. reflexivity. Qed.

Example load_succeeds_after_404 :
  fst (LazyLoader.load NotFoundOnce.browser "Footer"
         (LazyLoader.boot (LazyLoader.new LazyLoader.defaultConfig)))
  = Ok "<footer></footer>".
Proof. reflexivity. Qed.

(** A loader that has already fetched the footer. *)
Module WarmCache.

Import LazyLoader.

Definition world : World :=
  snd (load NotFoundOnce.browser "Footer" (boot (new defaultConfig))).

Lemma caching_on : cacheHTML (config (loader world)) = true.
Proof. reflexivity. Qed.

Lemma footer_cached : htmlCache (loader world) !! "Footer" = Some "<footer></footer>".
Proof. vm_compute. reflexivity. Qed.

End WarmCache.

Lemma load_cache_hit_no_network_witness :
  fst (LazyLoader.load NotFoundOnce.browser "Footer" WarmCache.world)
  = Ok "<footer></footer>"
  /\ LazyLoader.cacheHits
       (LazyLoader.stats (LazyLoader.loader
          (snd (LazyLoader.load NotFoundOnce.browser "Footer" WarmCache.world))))
     = (LazyLoader.cacheHits (LazyLoader.stats (LazyLoader.loader WarmCache.world)) + 1)%N
  /\ LazyLoader.requests
       (LazyLoader.events (snd (LazyLoader.load NotFoundOnce.browser "Footer" WarmCache.world)))
     = LazyLoader.requests (LazyLoader.events WarmCache.world)
  /\ LazyLoader.fetches (snd (LazyLoader.load NotFoundOnce.browser "Footer" WarmCache.world))
     = LazyLoader.fetches WarmCache.world
  /\ LazyLoader.links (snd (LazyLoader.load NotFoundOnce.browser "Footer" WarmCache.world))
     = LazyLoader.links WarmCache.world.
Proof.
  apply (load_cache_hit_no_network NotFoundOnce.browser "Footer" "<footer></footer>"
           WarmCache.world).
  - reflexivity.
  - vm_compute. reflexivity.
Defined.

Lemma load_cache_hit_stats_witness :
  LazyLoader.totalLoads
    (LazyLoader.stats (LazyLoader.loader
       (snd (LazyLoader.load NotFoundOnce.browser "Footer" WarmCache.world))))
  = (LazyLoader.totalLoads (LazyLoader.stats (LazyLoader.loader WarmCache.world)) + 1)%N
  /\ LazyLoader.cacheHits
       (LazyLoader.stats (LazyLoader.loader
          (snd (LazyLoader.load NotFoundOnce.browser "Footer" WarmCache.world))))
     = (LazyLoader.cacheHits (LazyLoader.stats (LazyLoader.loader WarmCache.world)) + 1)%N
  /\ LazyLoader.totalBytes
       (LazyLoader.stats (LazyLoader.loader
          (snd (LazyLoader.load NotFoundOnce.browser "Footer" WarmCache.world))))
     = LazyLoader.totalBytes (LazyLoader.stats (LazyLoader.loader WarmCache.world))
  /\ exists d,
      last (LazyLoader.events
              (snd (LazyLoader.load NotFoundOnce.browser "Footer" WarmCache.world)))
      = Some (LazyLoader.OnLoad "Footer" d (LazyLoader.blob_size "<footer></footer>")
                true None).
Proof.
  apply (load_cache_hit_stats NotFoundOnce.browser "Footer" "<footer></footer>"
           WarmCache.world).
  - reflexivity.
  - vm_compute. reflexivity.
Defined.

Example warm_cache_counters :
  LazyLoader.getStats
    (LazyLoader.loader
       (snd (LazyLoader.load NotFoundOnce.browser "Footer" WarmCache.world)))
  = {| LazyLoader.ls_totalLoads := 2; LazyLoader.ls_cacheHits := 1;
       LazyLoader.ls_cacheMisses := 1; LazyLoader.ls_errors := 0;
       LazyLoader.averageLoadTime :=
         LazyLoader.divide (LazyLoader.totalLoadTime
           (LazyLoader.stats (LazyLoader.loader
             (snd (LazyLoader.load NotFoundOnce.browser "Footer" WarmCache.world))))) 2;
       LazyLoader.ls_totalBytes := 17 |}.
Proof. vm_compute. reflexivity. Qed.

(* ===================================================================== *)
(** * Theorems: cleaning HTML *)
(* ===================================================================== *)

Section TrimFacts.

Import Js.

Lemma drop_spaces_suffix (l : list ascii) :
  exists pre, l = pre ++ drop_spaces l.
Proof.
  induction l as [|c l [pre IH]]; simpl.
  - exists []. reflexivity.
  - destruct (is_space c).
    + exists (c :: pre). simpl. rewrite <- IH. reflexivity.
    + exists []. reflexivity.
Qed.

(** What is left after dropping spaces does not start with one. *)
Lemma drop_spaces_head (l : list ascii) (c : ascii) (rest : list ascii) :
  drop_spaces l = c :: rest -> is_space c = false.
Proof.
  induction l as [|d l IH]; simpl; [discriminate|].
  destruct (is_space d) eqn:Hd; [exact IH|].
  intros [= <- _]. exact Hd.
Qed.

Lemma drop_spaces_fixed (l : list ascii) :
  match l with [] => True | c :: _ => is_space c = false end ->
  drop_spaces l = l.
Proof. destruct l as [|c l]; simpl; [reflexivity|]. intros ->. reflexivity. Qed.

Lemma drop_spaces_idempotent (l : list ascii) :
  drop_spaces (drop_spaces l) = drop_spaces l.
Proof.
  apply drop_spaces_fixed. destruct (drop_spaces l) as [|c rest] eqn:E; [exact I|].
  eapply drop_spaces_head. exact E.
Qed.

Lemma trim_chars_idempotent (l : list ascii) :
  trim_chars (trim_chars l) = trim_chars l.
Proof.
  unfold trim_chars.
  set (a := drop_spaces l). set (c := drop_spaces (rev a)).
  assert (drop_spaces (rev c) = rev c) as Hfix.
  { apply drop_spaces_fixed.
    destruct (rev c) as [|x xs] eqn:Erc; [exact I|].
    destruct (drop_spaces_suffix (rev a)) as [pre Hpre]. fold c in Hpre.
    assert (a = rev c ++ rev pre) as Ha.
    { rewrite <- (rev_involutive a), Hpre, rev_app_distr. reflexivity. }
    rewrite Erc in Ha. simpl in Ha.
    eapply (drop_spaces_head l). fold a. exact Ha. }
  rewrite Hfix, rev_involutive. unfold c. rewrite drop_spaces_idempotent.
  reflexivity.
Qed.

Lemma chars_text (l : list ascii) : chars (text l) = l.
Proof. apply list_ascii_of_string_of_list_ascii. Qed.

Lemma text_chars (s : string) : text (chars s) = s.
Proof. apply string_of_list_ascii_of_string. Qed.

Lemma trim_idempotent (s : string) : trim (trim s) = trim s.
Proof. unfold trim. rewrite chars_text, trim_chars_idempotent. reflexivity. Qed.

End TrimFacts.

Section ReplaceFacts.

Import RegExp.

(** Where the pattern matches nowhere, replacing changes nothing. *)
Lemma replace_scan_no_match (re : RegExp.t) (template ahead behind : list ascii) :
  search re behind ahead = false ->
  replace_scan re template behind ahead 0 = ahead.
Proof.
  revert behind. induction ahead as [|c rest IH]; intros behind; simpl.
  - destruct (match_at re _); [discriminate|reflexivity].
  - destruct (match_at re _); [discriminate|].
    intros H. rewrite (IH _ H). reflexivity.
Qed.

Lemma replace_no_match (re : RegExp.t) (template subject : string) :
  test re subject = false -> replace re template subject = subject.
Proof.
  unfold test, replace. intros H.
  rewrite (replace_scan_no_match _ _ _ _ H). apply text_chars.
Qed.

End ReplaceFacts.

Section MatcherFacts.

Import RegExp.

(** A star never hands its continuation a position further left. *)
Lemma star_turns_consumes (R : Type)
      (turn : Pos -> Captures -> (Pos -> Captures -> option R) -> option R)
      (k : Pos -> Captures -> option R) (x : R) :
  (forall p caps k', turn p caps k' = Some x ->
     exists p' caps', length (ahead p') <= length (ahead p) /\ k' p' caps' = Some x) ->
  forall n p caps,
    star_turns R turn k n p caps = Some x ->
    exists p' caps', length (ahead p') <= length (ahead p) /\ k p' caps' = Some x.
Proof.
  intros Hturn. induction n as [|n IH]; intros p caps H; simpl in H.
  - exists p, caps. split; [lia | exact H].
  - destruct (turn p caps _) as [y|] eqn:E.
    + injection H as ->. apply Hturn in E as (p1 & caps1 & Hle & Hk).
      destruct (Nat.ltb_spec (length (ahead p1)) (length (ahead p))) as [Hlt|];
        [|discriminate].
      apply IH in Hk as (p2 & caps2 & Hle2 & Hk2).
      exists p2, caps2. split; [lia | exact Hk2].
    + exists p, caps. split; [lia | exact H].
Qed.

(** A match of [r] moves the position at least [min_length r] characters
    to the right before the continuation takes over. *)
Lemma run_consumes (ci : bool) (r : Re) :
  forall (R : Type) (p : Pos) (caps : Captures) (k : Pos -> Captures -> option R) (x : R),
    run ci r R p caps k = Some x ->
    exists p' caps',
      length (ahead p') + min_length r <= length (ahead p) /\ k p' caps' = Some x.
Proof.
  induction r as [c|negated items|r1 IH1 r2 IH2|r1 IH1 r2 IH2|r1 IH1|index r1 IH1|r1 IH1| |];
    intros R p caps k x H; simpl in H |- *.
  - unfold advance in H. destruct (ahead p) as [|a rest] eqn:E; [discriminate|].
    destruct (Js.same_char ci c a); [|discriminate].
    eexists _, caps. split; [|exact H]. simpl. lia.
  - unfold advance in H. destruct (ahead p) as [|a rest] eqn:E; [discriminate|].
    destruct (xorb negated (in_class ci items a)); [|discriminate].
    eexists _, caps. split; [|exact H]. simpl. lia.
  - apply IH1 in H as (p1 & caps1 & Hle1 & H).
    apply IH2 in H as (p2 & caps2 & Hle2 & H).
    exists p2, caps2. split; [lia | exact H].
  - destruct (run ci r1 R p caps k) as [y|] eqn:E.
    + injection H as ->. apply IH1 in E as (p1 & caps1 & Hle & Hk).
      exists p1, caps1. split; [lia | exact Hk].
    + apply IH2 in H as (p1 & caps1 & Hle & Hk).
      exists p1, caps1. split; [lia | exact Hk].
  - apply star_turns_consumes in H as (p1 & caps1 & Hle & Hk).
    + exists p1, caps1. split; [lia | exact Hk].
    + intros q qcaps k' Hq. apply IH1 in Hq as (p1 & caps1 & Hle & Hk).
      exists p1, caps1. split; [lia | exact Hk].
  - apply IH1 in H as (p1 & caps1 & Hle & Hk). eexists p1, _. split; [lia | exact Hk].
  - destruct (run ci r1 unit p caps _); [discriminate|].
    exists p, caps. split; [lia | exact H].
  - destruct (xorb _ _); [|discriminate]. exists p, caps. split; [lia | exact H].
  - exists p, caps. split; [lia | exact H].
Qed.

Lemma match_at_consumes (re : RegExp.t) (p p' : Pos) (caps : Captures) :
  match_at re p = Some (p', caps) ->
  length (ahead p') + min_length (source re) <= length (ahead p).
Proof.
  unfold match_at. intros H.
  apply run_consumes in H as (p1 & caps1 & Hle & [= <- <-]). exact Hle.
Qed.

(** Deleting matches never lengthens the subject. *)
Lemma replace_scan_length (re : RegExp.t) (ahead behind : list ascii) (skip : nat) :
  length (replace_scan re [] behind ahead skip) <= length ahead.
Proof.
  revert behind skip. induction ahead as [|c rest IH]; intros behind skip.
  - destruct skip; simpl; [|lia]. destruct (match_at re _) as [[p' caps]|]; simpl; lia.
  - destruct skip as [|skip]; simpl.
    + destruct (match_at re _) as [[p' caps]|]; simpl.
      * destruct (_ - _); simpl; [specialize (IH (c :: behind) 0) | specialize (IH (c :: behind) n)]; lia.
      * specialize (IH (c :: behind) 0). lia.
    + specialize (IH (c :: behind) skip). lia.
Qed.

(** Deleting the matches of a pattern that cannot match the empty string
    shortens any subject that has a match. *)
Lemma replace_scan_shrinks (re : RegExp.t) (ahead behind : list ascii) :
  1 <= min_length (source re) ->
  search re behind ahead = true ->
  length (replace_scan re [] behind ahead 0) < length ahead.
Proof.
  intros Hmin. revert behind. induction ahead as [|c rest IH]; intros behind; simpl.
  - destruct (match_at re _) as [[p' caps]|] eqn:E; [|discriminate].
    apply match_at_consumes in E. simpl in E. lia.
  - destruct (match_at re _) as [[p' caps]|] eqn:E; simpl.
    + intros _. apply match_at_consumes in E. simpl in E.
      destruct (S (length rest) - length (RegExp.ahead p')) as [|n] eqn:En; [lia|].
      pose proof (replace_scan_length re rest (c :: behind) n). lia.
    + intros H. specialize (IH _ H). lia.
Qed.

Lemma length_text (l : list ascii) : String.length (Js.text l) = length l.
Proof. induction l as [|c l IH]; simpl; [reflexivity | rewrite IH; reflexivity]. Qed.

Lemma length_chars (s : string) : length (Js.chars s) = String.length s.
Proof. induction s as [|c s IH]; simpl; [reflexivity | rewrite IH; reflexivity]. Qed.

Lemma delete_length (re : RegExp.t) (subject : string) :
  String.length (replace re "" subject) <= String.length subject.
Proof.
  unfold replace. rewrite length_text, <- length_chars. apply replace_scan_length.
Qed.

Lemma delete_shrinks (re : RegExp.t) (subject : string) :
  1 <= min_length (source re) ->
  test re subject = true ->
  String.length (replace re "" subject) < String.length subject.
Proof.
  unfold replace, test. intros Hmin H.
  rewrite length_text, <- length_chars. apply replace_scan_shrinks; assumption.
Qed.

Lemma drop_spaces_length (l : list ascii) : length (Js.drop_spaces l) <= length l.
Proof.
  induction l as [|c l IH]; simpl; [lia|]. destruct (Js.is_space c); simpl; lia.
Qed.

Lemma trim_length (s : string) : String.length (Js.trim s) <= String.length s.
Proof.
  unfold Js.trim, Js.trim_chars. rewrite length_text, length_rev, <- length_chars.
  etransitivity; [apply drop_spaces_length|]. rewrite length_rev.
  apply drop_spaces_length.
Qed.

End MatcherFacts.

Section CleanFacts.

Import Utils.

(** A string with nothing left to remove is only trimmed. *)
Lemma cleanHTML_of_clean (html : string) :
  is_clean html = true -> cleanHTML html = Js.trim html.
Proof.
  unfold is_clean, cleanHTML. intros H.
  apply andb_prop in H as [H Hstyle]. apply andb_prop in H as [Hscript Hattr].
  apply negb_true_iff in Hscript, Hattr, Hstyle.
  rewrite (replace_no_match _ _ _ Hscript).
  rewrite (replace_no_match _ _ _ Hattr).
  rewrite (replace_no_match _ _ _ Hstyle).
  reflexivity.
Qed.

(** A string with something left to remove gets shorter. *)
Lemma cleanHTML_shrinks (html : string) :
  is_clean html = false ->
  String.length (cleanHTML html) < String.length html.
Proof.
  unfold is_clean, cleanHTML. intros H.
  pose proof (trim_length
                (RegExp.replace style_elements ""
                   (RegExp.replace source_attributes ""
                      (RegExp.replace script_elements "" html)))) as Htrim.
  pose proof (delete_length script_elements html) as H1.
  pose proof (delete_length source_attributes
                (RegExp.replace script_elements "" html)) as H2.
  pose proof (delete_length style_elements
                (RegExp.replace source_attributes ""
                   (RegExp.replace script_elements "" html))) as H3.
  destruct (RegExp.test script_elements html) eqn:Hs; simpl in H.
  { pose proof (delete_shrinks script_elements html) as Hlt.
    specialize (Hlt ltac:(vm_compute; lia) Hs). lia. }
  rewrite (replace_no_match _ "" _ Hs) in *.
  destruct (RegExp.test source_attributes html) eqn:Ha; simpl in H.
  { pose proof (delete_shrinks source_attributes html) as Hlt.
    specialize (Hlt ltac:(vm_compute; lia) Ha). lia. }
  rewrite (replace_no_match _ "" _ Ha) in *.
  destruct (RegExp.test style_elements html) eqn:Hy; simpl in H; [|discriminate].
  pose proof (delete_shrinks style_elements html) as Hlt.
  specialize (Hlt ltac:(vm_compute; lia) Hy). lia.
Qed.

End CleanFacts.

(** Removing the inner element splices the pieces around it into a new
    script element. *)
Definition spliced_script : string := "<scr<script></script>ipt>alert(1)</script>".

(** C5 (as the code behaves): one cleaning of the spliced input leaves a
    script element standing, which a second cleaning removes; so cleaning
    twice does not give what cleaning once gives. *)
Theorem cleanHTML_not_idempotent :
  Utils.cleanHTML spliced_script = "<script>alert(1)</script>"
  /\ RegExp.test Utils.script_elements (Utils.cleanHTML spliced_script) = true
  /\ Utils.cleanHTML (Utils.cleanHTML spliced_script) = ""
  /\ Utils.cleanHTML (Utils.cleanHTML spliced_script) <> Utils.cleanHTML spliced_script.
Proof. vm_compute. repeat split; discriminate. Qed.

Example cleanHTML_sample :
  Utils.cleanHTML "  <p>a</p><script>track()</script><style>p{}</style> " = "<p>a</p>".
Proof. vm_compute. reflexivity. Qed.

(* ===================================================================== *)
(** * Theorems: structural renderer *)
(* ===================================================================== *)

(** The Footer component: frontmatter declaring [year], template
    [<p>{year}</p>]. *)
Module Footer.

Import Ast.

Definition frontmatterCode : string :=
  ParserRenderer.newline +:+ "const year = " +:+ ParserRenderer.quote +:+ "2024"
    +:+ ParserRenderer.quote +:+ ";" +:+ ParserRenderer.newline.

Definition source : string :=
  "---" +:+ frontmatterCode +:+ "---" +:+ ParserRenderer.newline +:+ "<p>{year}</p>".

(** The tree the compiler's parser returns for it. As its [RootNode] and
    [ExpressionNode] types say, a root has children only: the frontmatter
    is the first of them, not a property of the root, and the expression
    between the braces holds its text as a child, with no [value] of its
    own. *)
Definition ast : RootNode :=
  {| root_frontmatter := None;
     root_children :=
       Some [frontmatter frontmatterCode;
             element "p" [] [expression None [text "year"]]] |}.

Definition env : Env :=
  {| readFile := fun _ => Ok source;
     parse := fun content =>
                if String.eqb content source then Ok ast
                else Throw (ErrExternal "Unable to parse") |}.

End Footer.

(** The renderers look for the declarations in a [frontmatter] property
    of the root; the tree has none, and no variable is found. *)
Example footer_frontmatter :
  ParserRenderer.extractFrontmatter Footer.ast = []
  /\ ParserRendererJs.extractFrontmatter Footer.ast = Ok [].
Proof. split; reflexivity. Qed.

(** Whatever an expression node holds, it is serialised as the text of
    [String(node)], never as its source. *)
Lemma nodeToHTML_expression (value : option string) (children : list Ast.Node) :
  ParserRenderer.nodeToHTML (Ast.expression value children) = "{[object Object]}".
Proof. reflexivity. Qed.

(** On a root without a [frontmatter] property nothing is substituted:
    the result is the serialised children, joined by line breaks. *)
Lemma renderAst_without_root_frontmatter (children : list Ast.Node) :
  ParserRenderer.renderAst
    {| Ast.root_frontmatter := None; Ast.root_children := Some children |}
  = String.concat ParserRenderer.newline (map ParserRenderer.nodeToHTML children).
Proof. reflexivity. Qed.

(** C2 (as the code behaves): the Footer component does not render to
    [<p>2024</p>]. The renderer finds no frontmatter variable, writes an
    empty line for the frontmatter node and serialises the expression as
    [{[object Object]}]; the earlier JavaScript renderer writes the
    expression's missing [value], [{undefined}]. *)
Theorem render_footer_prints_object :
  fst (ParserRenderer.render Footer.env "Footer.astro" [])
  = Ok (ParserRenderer.newline +:+ "<p>{[object Object]}</p>")
  /\ fst (ParserRendererJs.render Footer.env "Footer.astro" [])
     = Ok "<p>{undefined}</p>".
Proof. split; vm_compute; reflexivity. Qed.

(** Given the variable and a placeholder written out as text, the
    substitution step itself does what the component needs. *)
Example replaceFrontmatterVars_year :
  ParserRenderer.replaceFrontmatterVars "<p>{year}</p>" [("year", "2024")]
  = "<p>2024</p>".
Proof. vm_compute. reflexivity. Qed.

(* ##################################################################### *)
(** * Further properties *)
(* ##################################################################### *)

(* ===================================================================== *)
(** * More on the content cache *)
(* ===================================================================== *)

Section CacheRoundTrips.

Import CacheManager.

(** After [set(path, hash)] the cache answers for [path] exactly at [hash],
    and answers for every other path as before. *)
Theorem isCached_set (c : CacheManager.t) (path hash other probe : string) :
  isCached (set c path hash) path probe = String.eqb hash probe
  /\ (other <> path ->
      isCached (set c path hash) other probe = isCached c other probe).
Proof.
  unfold isCached, getKey; simpl. split.
  - rewrite lookup_insert_eq. reflexivity.
  - intros Hne. rewrite lookup_insert_ne by congruence. reflexivity.
Qed.

(** After [delete(path)] nothing is cached for [path], other paths answer
    as before, and deleting again changes nothing. *)
Theorem isCached_delete (c : CacheManager.t) (path other probe : string) :
  isCached (delete c path) path probe = false
  /\ (other <> path ->
      isCached (delete c path) other probe = isCached c other probe)
  /\ delete (delete c path) path = delete c path.
Proof.
  unfold isCached, getKey, delete; simpl. repeat split.
  - rewrite lookup_delete_eq. reflexivity.
  - intros Hne. rewrite lookup_delete_ne by congruence. reflexivity.
  - f_equal. apply map_eq. intros k.
    destruct (decide (path = k)) as [->|Hne].
    + rewrite !lookup_delete_eq. reflexivity.
    + rewrite !lookup_delete_ne by assumption. reflexivity.
Qed.

End CacheRoundTrips.

Lemma isCached_set_witness :
  CacheManager.isCached (CacheManager.set CacheManager.empty "a.astro" "h1")
    "b.astro" "h1"
  = CacheManager.isCached CacheManager.empty "b.astro" "h1".
Proof.
  apply (isCached_set CacheManager.empty "a.astro" "h1" "b.astro" "h1").
  discriminate.
Defined.

Lemma isCached_delete_witness :
  CacheManager.isCached
    (CacheManager.delete (CacheManager.set CacheManager.empty "b.astro" "h1") "a.astro")
    "b.astro" "h1"
  = CacheManager.isCached (CacheManager.set CacheManager.empty "b.astro" "h1")
      "b.astro" "h1".
Proof.
  apply (isCached_delete (CacheManager.set CacheManager.empty "b.astro" "h1")
           "a.astro" "b.astro" "h1").
  discriminate.
Defined.

(* ===================================================================== *)
(** * More on the stylesheet generator *)
(* ===================================================================== *)

Section GeneratorAccumulators.

Import CSSGenerator.

Lemma add_all_present (l s : list string) :
  (forall x, x ∈ l -> x ∈ s) ->
  foldl (fun s c => set_add c s) s l = s.
Proof.
  induction l as [|c l IH]; intros H; simpl; [reflexivity|].
  unfold set_add at 2. destruct (decide (c ∈ s)) as [_|Hn].
  - apply IH. intros x Hx. apply H. apply elem_of_cons. auto.
  - exfalso. apply Hn, H. apply elem_of_cons. auto.
Qed.

Lemma add_all_elem (l s : list string) (x : string) :
  x ∈ foldl (fun s c => set_add c s) s l <-> x ∈ s \/ x ∈ l.
Proof.
  destruct (add_all_shape l s) as (k & -> & _ & Hk).
  rewrite elem_of_app, Hk. destruct (decide (x ∈ s)); tauto.
Qed.

(** Adding classes that were already added changes nothing: the class
    accumulator behaves as a set, and the same batch added twice counts
    once. *)
Theorem addClasses_absorbs (g : CSSGenerator.t) (l k : list string) :
  (forall x, x ∈ k -> x ∈ l) ->
  addClasses (addClasses g l) k = addClasses g l.
Proof.
  intros H. unfold addClasses; simpl. f_equal.
  apply add_all_present. intros x Hx. apply add_all_elem. right. auto.
Qed.

(** The class accumulator holds exactly what was there plus what was
    added, and stays free of duplicates. *)
Theorem addClasses_membership (g : CSSGenerator.t) (l : list string) (x : string) :
  NoDup (classes g) ->
  NoDup (classes (addClasses g l))
  /\ (x ∈ classes (addClasses g l) <-> x ∈ classes g \/ x ∈ l).
Proof.
  intros Hnd. split.
  - apply addClasses_NoDup. exact Hnd.
  - apply add_all_elem.
Qed.

End GeneratorAccumulators.

Lemma addClasses_absorbs_witness :
  CSSGenerator.addClasses
    (CSSGenerator.addClasses (CSSGenerator.new "tailwind.config.mjs" true)
                             ["flex"; "p-4"])
    ["p-4"; "flex"; "p-4"]
  = CSSGenerator.addClasses (CSSGenerator.new "tailwind.config.mjs" true)
                            ["flex"; "p-4"].
Proof.
  apply (addClasses_absorbs (CSSGenerator.new "tailwind.config.mjs" true)
           ["flex"; "p-4"] ["p-4"; "flex"; "p-4"]).
  intros x Hx. rewrite !elem_of_cons in *. rewrite elem_of_nil in *. tauto.
Defined.

Lemma addClasses_membership_witness :
  NoDup (CSSGenerator.classes
           (CSSGenerator.addClasses (CSSGenerator.new "tailwind.config.mjs" true)
                                    ["flex"; "flex"]))
  /\ ("flex" ∈ CSSGenerator.classes
                 (CSSGenerator.addClasses (CSSGenerator.new "tailwind.config.mjs" true)
                                          ["flex"; "flex"])
      <-> "flex" ∈ CSSGenerator.classes (CSSGenerator.new "tailwind.config.mjs" true)
          \/ "flex" ∈ ["flex"; "flex"]).
Proof.
  apply (addClasses_membership (CSSGenerator.new "tailwind.config.mjs" true)
           ["flex"; "flex"] "flex").
  simpl. constructor.
Defined.

Section GenerateModes.

Import CSSGenerator.

Variable TailwindConfig : Type.
Variable env : Env TailwindConfig.

(** With utility CSS generation switched off and style blocks accumulated,
    [generate] writes the style blocks alone, in the order they were added,
    and asks nothing of PostCSS or Tailwind; whether it returns or throws is
    the file system's word. *)
Theorem generate_styles_only
    (g : CSSGenerator.t) (outputPath : string) (t : Trace) :
  generateTailwind g = false ->
  componentStyles g <> [] ->
  writes (snd (generate env g outputPath t))
  = writes t ++ [(outputPath, component_styles_only (componentStyles g))]
  /\ fst (generate env g outputPath t)
     = outputFile env outputPath (component_styles_only (componentStyles g)).
Proof.
  intros Hg Hs. unfold generate, generate_try, writeFileWithDir.
  destruct (componentStyles g) as [|st styles] eqn:Est; [contradiction|].
  rewrite Hg. unfold len. simpl length.
  replace (Z.of_nat (S (length styles)) =? 0)%Z with false by (symmetry; apply Z.eqb_neq; lia).
  replace (0 <? Z.of_nat (S (length styles)))%Z with true by (symmetry; apply Z.ltb_lt; lia).
  rewrite andb_false_r. simpl.
  unfold bind, try_catch, emit, modify, await, throw; simpl.
  destruct (outputFile env outputPath _) as [[]|e]; simpl.
  all: unfold writes; rewrite !omap_app; simpl; rewrite ?app_nil_r; split; reflexivity.
Qed.

(** With utility CSS generation switched off and only classes accumulated,
    [generate] warns and writes no file. *)
Theorem generate_disabled_classes_only
    (g : CSSGenerator.t) (outputPath : string) (t : Trace) :
  generateTailwind g = false ->
  componentStyles g = [] ->
  fst (generate env g outputPath t) = Ok tt
  /\ writes (snd (generate env g outputPath t)) = writes t.
Proof.
  intros Hg Hs. unfold generate, generate_try. rewrite Hg, Hs. unfold len. simpl.
  destruct (Z.of_nat (length (classes g)) =? 0)%Z eqn:E0; simpl.
  - unfold bind, emit, modify; simpl. split; [reflexivity|].
    unfold writes. rewrite !omap_app. simpl. rewrite !app_nil_r. reflexivity.
  - replace (0 <? Z.of_nat (length (classes g)))%Z with true
      by (symmetry; apply Z.ltb_lt; apply Z.eqb_neq in E0; lia).
    unfold bind, try_catch, emit, modify, when, ret; simpl. split; [reflexivity|].
    unfold writes. rewrite !omap_app. simpl. rewrite !app_nil_r. reflexivity.
Qed.

(** With utility CSS generation on and something accumulated, a failure of
    the peer imports, of the Tailwind configuration or of PostCSS makes
    [generate] log it, throw the same error, and write no file. *)
Theorem generate_compiler_failure
    (g : CSSGenerator.t) (outputPath : string) (t : Trace) (e : Error) :
  generateTailwind g = true ->
  (classes g <> [] \/ componentStyles g <> []) ->
  (import_peers env = Throw e
   \/ (import_peers env = Ok tt /\ import_config env (tailwindConfigPath g) = Throw e)
   \/ (import_peers env = Ok tt
       /\ exists cfg, import_config env (tailwindConfigPath g) = Ok cfg
          /\ postcss_process env (modifiedConfig cfg (classes g))
                             (cssContent (componentStyles g)) = Throw e)) ->
  fst (generate env g outputPath t) = Throw e
  /\ writes (snd (generate env g outputPath t)) = writes t
  /\ last (snd (generate env g outputPath t))
     = Some (Log Failure [Txt "Failed to generate CSS: "; Err e]).
Proof.
  intros Hg Hne Hfail. unfold generate, generate_try. rewrite Hg. simpl.
  assert ((len (classes g) =? 0)%Z && (len (componentStyles g) =? 0)%Z = false) as ->.
  { unfold len. destruct Hne as [H|H].
    - destruct (classes g); [contradiction|reflexivity].
    - destruct (componentStyles g); [contradiction|]. simpl. apply andb_false_r. }
  unfold bind, try_catch, emit, modify, await, throw; simpl.
  destruct Hfail as [H|[[H1 H2]|[H1 (cfg & H2 & H3)]]].
  - rewrite H. simpl. repeat split.
    + unfold writes. rewrite !omap_app. simpl. rewrite !app_nil_r. reflexivity.
    + apply last_snoc.
  - rewrite H1, H2. simpl. repeat split.
    + unfold writes. rewrite !omap_app. simpl. rewrite !app_nil_r. reflexivity.
    + apply last_snoc.
  - rewrite H1, H2, H3. simpl. repeat split.
    + unfold writes. rewrite !omap_app. simpl. rewrite !app_nil_r. reflexivity.
    + apply last_snoc.
Qed.

End GenerateModes.

(** A utility compiler whose PostCSS run fails. *)
Module BrokenCompiler.

Import CSSGenerator.

Definition failure : Error := ErrExternal "Cannot find module 'tailwindcss'".

Definition env : Env unit :=
  {| import_peers := Ok tt;
     import_config := fun _ => Ok tt;
     postcss_process := fun _ _ => Throw failure;
     outputFile := fun _ _ => Ok tt |}.

Definition styled (generateTailwind : bool) : CSSGenerator.t :=
  addStyles (new "tailwind.config.mjs" generateTailwind) ["footer{margin:0}"].

End BrokenCompiler.

Lemma generate_styles_only_witness :
  writes (snd (CSSGenerator.generate BrokenCompiler.env (BrokenCompiler.styled false)
                 "out/lazy-components.css" []))
  = writes [] ++ [("out/lazy-components.css",
                   CSSGenerator.component_styles_only
                     (CSSGenerator.componentStyles (BrokenCompiler.styled false)))]
  /\ fst (CSSGenerator.generate BrokenCompiler.env (BrokenCompiler.styled false)
            "out/lazy-components.css" [])
     = CSSGenerator.outputFile BrokenCompiler.env "out/lazy-components.css"
         (CSSGenerator.component_styles_only
            (CSSGenerator.componentStyles (BrokenCompiler.styled false))).
Proof.
  apply (generate_styles_only unit BrokenCompiler.env (BrokenCompiler.styled false)
           "out/lazy-components.css" []).
  - reflexivity.
  - discriminate.
Defined.

Lemma generate_disabled_classes_only_witness :
  fst (CSSGenerator.generate BrokenCompiler.env
         (CSSGenerator.addClasses (CSSGenerator.new "tailwind.config.mjs" false) ["flex"])
         "out/lazy-components.css" [])
  = Ok tt
  /\ writes (snd (CSSGenerator.generate BrokenCompiler.env
                    (CSSGenerator.addClasses
                       (CSSGenerator.new "tailwind.config.mjs" false) ["flex"])
                    "out/lazy-components.css" []))
     = writes [].
Proof.
  apply (generate_disabled_classes_only unit BrokenCompiler.env
           (CSSGenerator.addClasses (CSSGenerator.new "tailwind.config.mjs" false) ["flex"])
           "out/lazy-components.css" []); reflexivity.
Defined.

Lemma generate_compiler_failure_witness :
  fst (CSSGenerator.generate BrokenCompiler.env (BrokenCompiler.styled true)
         "out/lazy-components.css" [])
  = Throw BrokenCompiler.failure
  /\ writes (snd (CSSGenerator.generate BrokenCompiler.env (BrokenCompiler.styled true)
                    "out/lazy-components.css" []))
     = writes []
  /\ last (snd (CSSGenerator.generate BrokenCompiler.env (BrokenCompiler.styled true)
                  "out/lazy-components.css" []))
     = Some (Log Failure [Txt "Failed to generate CSS: "; Err BrokenCompiler.failure]).
Proof.
  apply (generate_compiler_failure unit BrokenCompiler.env (BrokenCompiler.styled true)
           "out/lazy-components.css" [] BrokenCompiler.failure).
  - reflexivity.
  - right. discriminate.
  - right. right. split; [reflexivity|]. exists tt. split; reflexivity.
Defined.

(* ===================================================================== *)
(** * More on the pipeline orchestrator *)
(* ===================================================================== *)

Section FailingSteps.

Context {S : Type}.
Variable R : S -> S -> Prop.
Hypothesis R_refl : forall s, R s s.
Hypothesis R_trans : forall s1 s2 s3, R s1 s2 -> R s2 s3 -> R s1 s3.

(** [m] always throws, and leaves a state related to where it started. *)
Definition fails_keeping {A} (m : M S A) : Prop :=
  forall s, R s (snd (m s)) /\ exists e, fst (m s) = Throw e.

Lemma fails_keeping_preserves {A} (m : M S A) :
  fails_keeping m -> preserves R m.
Proof. intros H s. apply H. Qed.

Lemma fails_keeping_bind_l {A B} (m : M S A) (k : A -> M S B) :
  fails_keeping m -> fails_keeping (bind m k).
Proof.
  intros H s. destruct (H s) as [HR [e He]]. unfold bind.
  destruct (m s) as [[a|e'] s']; simpl in *; [discriminate|]. eauto.
Qed.

Lemma fails_keeping_bind_r {A B} (m : M S A) (k : A -> M S B) :
  preserves R m -> (forall a, fails_keeping (k a)) -> fails_keeping (bind m k).
Proof.
  intros Hm Hk s. specialize (Hm s). unfold bind.
  destruct (m s) as [[a|e] s']; simpl in *.
  - destruct (Hk a s') as [HR He]. split; [eapply R_trans; eassumption | exact He].
  - eauto.
Qed.

End FailingSteps.

Section PipelineMore.

Import Plugin.

Variable opts : Options.
Variable paths : Paths.

(** Whatever goes wrong with one component is caught: [processComponent]
    never throws. *)
Lemma processComponent_returns (a : Answers) (componentPath : string) (s : State) :
  fst (processComponent opts paths a componentPath s) = Ok tt.
Proof.
  unfold processComponent, bind, gets, try_catch, ret.
  destruct (root_of s) as [rootPath|]; [|reflexivity].
  destruct (processComponent_try opts paths a rootPath componentPath s)
    as [[[]|e] s']; reflexivity.
Qed.

(** A pass over the files is never cut short: it returns normally, and
    processing two batches in a row is processing the first and then, from
    the state that leaves, the second, whatever failed along the way. *)
Theorem processEach_never_stops (files1 files2 : list (string * Answers)) (s : State) :
  fst (processEach opts paths (files1 ++ files2) s) = Ok tt
  /\ snd (processEach opts paths (files1 ++ files2) s)
     = snd (processEach opts paths files2 (snd (processEach opts paths files1 s))).
Proof.
  revert s. induction files1 as [|[p a] rest IH]; intros s; simpl.
  - split; [|reflexivity].
    induction files2 as [|[q b] rest IH] in s |- *; simpl; [reflexivity|].
    unfold bind. pose proof (processComponent_returns b q s) as Hr.
    destruct (processComponent opts paths b q s) as [[[]|e] s1]; simpl in *;
      [apply IH | discriminate].
  - unfold bind. pose proof (processComponent_returns a p s) as Hr.
    destruct (processComponent opts paths a p s) as [[[]|e] s1]; simpl in *;
      [apply IH | discriminate].
Qed.

(** A component whose content hash is the cached one is skipped: nothing is
    rendered or written, the cache and the accumulators stay as they are,
    and only the skip is logged. *)
Theorem processComponent_cached_skips
    (a : Answers) (componentPath rootPath hash : string) (c : CacheManager.t) (s : State) :
  root_of s = Some rootPath ->
  cacheManager s = Some c ->
  hash_before a = Ok hash ->
  CacheManager.isCached c componentPath hash = true ->
  processComponent opts paths a componentPath s
  = (Ok tt,
     set_trace (trace s ++ [Log Info [Txt "Skipping cached: ";
                                      Txt (relative paths rootPath componentPath)]]) s).
Proof.
  intros Hr Hc Hh Hi.
  unfold processComponent, processComponent_try, log, lift_trace.
  unfold_monad. rewrite Hr, Hc, Hh. simpl. rewrite Hi. reflexivity.
Qed.

(** What ends up in the fragment file: the cleaned HTML, minified when
    minification is on and the minifier works. *)
Definition fragment_text (a : Answers) (cleaned : string) : string :=
  if minify opts then
    match minifier a cleaned with
    | Ok minified => minified
    | Throw _ => cleaned
    end
  else cleaned.

(** A changed component that renders: its styles and classes reach the
    stylesheet generator, its cleaned (and minified) HTML is written to
    [<outputDir>/<name>.html], and only then is its cache entry set, to the
    hash read after the write. *)
Theorem processComponent_writes_then_caches
    (a : Answers) (componentPath rootPath hash0 hash1 html cleaned : string)
    (styles classes : list string)
    (c : CacheManager.t) (g : CSSGenerator.t) (kind : RendererKind) (s : State) :
  root_of s = Some rootPath ->
  cacheManager s = Some c ->
  cssGenerator s = Some g ->
  componentRenderer s = Some kind ->
  hash_before a = Ok hash0 ->
  CacheManager.isCached c componentPath hash0 = false ->
  rendered a = Ok (Some html) ->
  html <> "" ->
  extractStyles a html = Ok styles ->
  cleanHTML a html = Ok cleaned ->
  extractClasses a cleaned = Ok classes ->
  written a = Ok tt ->
  hash_after a = Ok hash1 ->
  let s' := snd (processComponent opts paths a componentPath s) in
  entry s' componentPath = Some hash1
  /\ writes (trace s')
     = writes (trace s)
       ++ [(join paths (join paths rootPath (outputDir opts))
                 (basename paths componentPath ".astro" +:+ ".html"),
            fragment_text a cleaned)]
  /\ cssGenerator s'
     = Some (CSSGenerator.addClasses
               (if (0 <? len styles)%Z then CSSGenerator.addStyles g styles else g)
               classes).
Proof.
  intros Hr Hc Hg Hk Hh0 Hi Hrend Hne Hst Hcl Hec Hw Hh1. cbv zeta.
  assert (truthy (Some html) = true) as Ht.
  { simpl. destruct (String.eqb_spec html ""); [contradiction|reflexivity]. }
  destruct s as [r cm gen cr fb t]. simpl in Hc, Hg, Hk. subst cm gen cr.
  unfold processComponent, processComponent_try, emitFragment, writeFragment,
    minifyHTML, fragment_text, log, lift_trace, entry.
  unfold_monad. simpl in Ht.
  repeat (progress (rewrite ?Hr, ?Hh0, ?Hi, ?Hrend, ?Ht, ?Hst, ?Hcl; simpl)).
  destruct (0 <? len styles)%Z; simpl.
  all: repeat (progress (rewrite ?Hec; simpl)).
  all: destruct (minify opts); simpl.
  all: try (destruct (minifier a cleaned); simpl).
  all: repeat (progress (rewrite ?Hw, ?Hh1; simpl)).
  all: unfold writes; rewrite !omap_app; simpl; rewrite ?app_nil_r.
  all: rewrite lookup_insert_eq; auto.
Qed.

(** When the fragment cannot be written, processing stops there with the
    cache as it was. *)
Lemma emitFragment_write_fails (a : Answers) (rootPath componentPath html : string) (e : Error) :
  written a = Throw e ->
  fails_keeping (fun s s' => cacheManager s' = cacheManager s)
                (emitFragment opts paths a rootPath componentPath html).
Proof.
  intros Hw.
  set (R := fun s s' : State => cacheManager s' = cacheManager s).
  assert (forall s, R s s) as Hrefl by reflexivity.
  assert (forall s1 s2 s3, R s1 s2 -> R s2 s3 -> R s1 s3) as Htrans
      by (unfold R; intros; congruence).
  assert (forall level message, preserves R (log level message)) as Hlog
      by (intros level message s; reflexivity).
  assert (forall f : State -> State, (forall s, cacheManager (f s) = cacheManager s) ->
            preserves R (modify f)) as Hmod
      by (intros f Hf; apply preserves_modify; exact Hf).
  unfold emitFragment.
  apply fails_keeping_bind_r; [assumption | apply preserves_await; assumption | intros styles].
  apply fails_keeping_bind_r; [assumption | | intros _].
  { apply Hmod. intros s. destruct (cssGenerator s); [destruct (0 <? len styles)%Z|];
      reflexivity. }
  apply fails_keeping_bind_r; [assumption | apply preserves_await; assumption | intros cleaned].
  apply fails_keeping_bind_r; [assumption | apply preserves_gets; assumption | intros g].
  apply fails_keeping_bind_r; [assumption | | intros _].
  { destruct g; [|apply preserves_ret; assumption].
    apply preserves_bind; [assumption | apply preserves_await; assumption | intros classes].
    apply Hmod. intros s. destruct (cssGenerator s); reflexivity. }
  apply fails_keeping_bind_r; [assumption | | intros cleaned'].
  { destruct (minify opts); [|apply preserves_ret; assumption].
    apply preserves_bind; [assumption | | intros minified].
    - unfold minifyHTML. destruct (minifier a cleaned).
      + apply preserves_ret; assumption.
      + apply preserves_bind; [assumption | apply Hlog | intros _].
        apply preserves_ret; assumption.
    - apply preserves_bind; [assumption | apply Hlog | intros _].
      apply preserves_ret; assumption. }
  apply fails_keeping_bind_l.
  intros s. unfold writeFragment, lift_trace, bind, emit, modify, await. simpl.
  rewrite Hw. simpl. split; [reflexivity | eauto].
Qed.

(** A fragment that cannot be written does not advance the cache. *)
Theorem processComponent_write_failure
    (a : Answers) (componentPath : string) (e : Error) (s : State) :
  written a = Throw e ->
  cacheManager (snd (processComponent opts paths a componentPath s)) = cacheManager s.
Proof.
  intros Hw.
  set (R := fun s s' : State => cacheManager s' = cacheManager s).
  assert (forall s, R s s) as Hrefl by reflexivity.
  assert (forall s1 s2 s3, R s1 s2 -> R s2 s3 -> R s1 s3) as Htrans
      by (unfold R; intros; congruence).
  assert (forall level message, preserves R (log level message)) as Hlog
      by (intros level message s'; reflexivity).
  pose proof (fun rootPath h =>
                fails_keeping_preserves R _
                  (emitFragment_write_fails a rootPath componentPath h e Hw)) as Hemit.
  change (R s (snd (processComponent opts paths a componentPath s))).
  generalize s. change (preserves R (processComponent opts paths a componentPath)).
  unfold processComponent, processComponent_try.
  preserve_steps.
Qed.

(** The watcher's removal handler forgets the removed path and no other. *)
Theorem onUnlink_forgets (filePath other rootPath : string) (s : State) :
  root_of s = Some rootPath ->
  entry (snd (onUnlink paths filePath s)) filePath = None
  /\ (other <> filePath ->
      entry (snd (onUnlink paths filePath s)) other = entry s other).
Proof.
  intros Hr. unfold onUnlink, log, lift_trace, entry. unfold_monad. rewrite Hr. simpl.
  destruct (cacheManager s) as [c|] eqn:Hc; simpl; rewrite ?Hc; simpl.
  - split; [apply lookup_delete_eq|].
    intros Hne. apply lookup_delete_ne. congruence.
  - split; [reflexivity | intros _; reflexivity].
Qed.

Section PassMore.

Variable TailwindConfig : Type.
Variable cssEnv : CSSGenerator.Env TailwindConfig.

(** The events of a trace that persist the cache. *)
Definition saves (t : Trace) : list (gmap string string) :=
  omap (fun e => match e with SaveCache m => Some m | _ => None end) t.

(** A pass that finds no component file stops after the warning: no
    stylesheet is generated and the cache is not persisted. *)
Theorem processAll_no_files (persisted : gmap string string) (s : State) :
  fst (processAll opts paths TailwindConfig cssEnv persisted [] s) = Ok tt
  /\ writes (trace (snd (processAll opts paths TailwindConfig cssEnv persisted [] s)))
     = writes (trace s)
  /\ saves (trace (snd (processAll opts paths TailwindConfig cssEnv persisted [] s)))
     = saves (trace s).
Proof.
  destruct s as [r cm g cr fb t].
  unfold processAll, loadCache, log, lift_trace, root_of. unfold_monad. simpl.
  destruct r as [r|]; simpl; [destruct (String.eqb r ""); simpl|]; auto.
  destruct cm as [[c []]|]; destruct g; simpl.
  all: unfold writes, saves; rewrite !omap_app; simpl; rewrite !app_nil_r; auto.
Qed.

End PassMore.

End PipelineMore.

(** One component that renders, and the states around it. *)
Module FooterPass.

Import Plugin.

Definition html : string := "<footer class=flex>2024</footer><style>footer{margin:0}</style>".
Definition cleaned : string := "<footer class=flex>2024</footer>".

Definition answers : Answers :=
  {| hash_before := Ok "new-hash";
     rendered := Ok (Some html);
     fallback_rendered := Ok None;
     extractStyles := fun _ => Ok ["footer{margin:0}"];
     cleanHTML := fun _ => Ok cleaned;
     extractClasses := fun _ => Ok ["flex"];
     minifier := fun h => Ok h;
     written := Ok tt;
     hash_after := Ok "new-hash" |}.

Definition disk_full : Error := ErrExternal "ENOSPC: no space left on device".

Definition unwritable : Answers :=
  {| hash_before := Ok "new-hash";
     rendered := Ok (Some html);
     fallback_rendered := Ok None;
     extractStyles := fun _ => Ok ["footer{margin:0}"];
     cleanHTML := fun _ => Ok cleaned;
     extractClasses := fun _ => Ok ["flex"];
     minifier := fun h => Ok h;
     written := Throw disk_full;
     hash_after := Ok "new-hash" |}.

Definition fresh : CacheManager.t :=
  {| CacheManager.cache := ∅; CacheManager.loaded := false |}.

Definition generator : CSSGenerator.t :=
  CSSGenerator.new "/site/tailwind.config.mjs" true.

(** The cache already holds the footer at its current hash. *)
Definition warm : CacheManager.t :=
  {| CacheManager.cache := {[ FailingPass.footer := "new-hash" ]};
     CacheManager.loaded := true |}.

Definition warmed : State := set_cacheManager (Some warm) FailingPass.start.

End FooterPass.

Lemma processComponent_cached_skips_witness :
  Plugin.processComponent FailingPass.opts FailingPass.paths FooterPass.answers
    FailingPass.footer FooterPass.warmed
  = (Ok tt,
     Plugin.set_trace
       (Plugin.trace FooterPass.warmed
          ++ [Log Info [Txt "Skipping cached: ";
                        Txt (Plugin.relative FailingPass.paths "/site" FailingPass.footer)]])
       FooterPass.warmed).
Proof.
  apply (processComponent_cached_skips FailingPass.opts FailingPass.paths
           FooterPass.answers FailingPass.footer "/site" "new-hash" FooterPass.warm
           FooterPass.warmed).
  - reflexivity.
  - reflexivity.
  - reflexivity.
  - vm_compute. reflexivity.
Defined.

Lemma processComponent_writes_then_caches_witness :
  entry (snd (Plugin.processComponent FailingPass.opts FailingPass.paths
                FooterPass.answers FailingPass.footer FailingPass.start))
        FailingPass.footer
  = Some "new-hash"
  /\ writes (Plugin.trace (snd (Plugin.processComponent FailingPass.opts FailingPass.paths
                                  FooterPass.answers FailingPass.footer FailingPass.start)))
     = writes (Plugin.trace FailingPass.start)
       ++ [(Plugin.join FailingPass.paths
              (Plugin.join FailingPass.paths "/site"
                 (Plugin.outputDir FailingPass.opts))
              (Plugin.basename FailingPass.paths FailingPass.footer ".astro" +:+ ".html"),
            fragment_text FailingPass.opts FooterPass.answers FooterPass.cleaned)]
  /\ Plugin.cssGenerator (snd (Plugin.processComponent FailingPass.opts FailingPass.paths
                                 FooterPass.answers FailingPass.footer FailingPass.start))
     = Some (CSSGenerator.addClasses
               (if (0 <? len ["footer{margin:0}"])%Z
                then CSSGenerator.addStyles FooterPass.generator ["footer{margin:0}"]
                else FooterPass.generator)
               ["flex"]).
Proof.
  apply (processComponent_writes_then_caches FailingPass.opts FailingPass.paths
           FooterPass.answers FailingPass.footer "/site" "new-hash" "new-hash"
           FooterPass.html FooterPass.cleaned ["footer{margin:0}"] ["flex"]
           FooterPass.fresh FooterPass.generator Plugin.parser FailingPass.start).
  all: try reflexivity.
  discriminate.
Defined.

Lemma processComponent_write_failure_witness :
  Plugin.cacheManager
    (snd (Plugin.processComponent FailingPass.opts FailingPass.paths
            FooterPass.unwritable FailingPass.footer FailingPass.start))
  = Plugin.cacheManager FailingPass.start.
Proof.
  apply (processComponent_write_failure FailingPass.opts FailingPass.paths
           FooterPass.unwritable FailingPass.footer FooterPass.disk_full
           FailingPass.start).
  reflexivity.
Defined.

Lemma onUnlink_forgets_witness :
  entry (snd (Plugin.onUnlink FailingPass.paths FailingPass.footer FooterPass.warmed))
        FailingPass.footer
  = None
  /\ ("/site/src/components/Lazy/Header.astro" <> FailingPass.footer ->
      entry (snd (Plugin.onUnlink FailingPass.paths FailingPass.footer FooterPass.warmed))
            "/site/src/components/Lazy/Header.astro"
      = entry FooterPass.warmed "/site/src/components/Lazy/Header.astro").
Proof.
  apply (onUnlink_forgets FailingPass.paths FailingPass.footer
           "/site/src/components/Lazy/Header.astro" "/site" FooterPass.warmed).
  reflexivity.
Defined.

(* ===================================================================== *)
(** * More on the client runtime loader: the retrying fetch *)
(* ===================================================================== *)

Section RetryFacts.

Import LazyLoader.

Variable browser : Browser.

(** A fetch that does not yield an OK response: it rejects, or answers
    with a status outside 200..299. *)
Definition failing (o : Res Response) : bool :=
  match o with
  | Ok r => negb (ok r)
  | Throw _ => true
  end.

(** The error a failed fetch ends the call with on the last attempt. *)
Definition error_of (o : Res Response) : Error :=
  match o with
  | Ok r => ErrHttp (status r) (statusText r)
  | Throw e => e
  end.

(** The back-off delays a run asked for, in order. *)
Definition timeouts (evs : list Event) : list Z :=
  omap (fun e => match e with SetTimeout ms => Some ms | _ => None end) evs.

Lemma timeouts_app (a b : list Event) : timeouts (a ++ b) = timeouts a ++ timeouts b.
Proof. apply omap_app. Qed.

(** How one turn of the loop ends, read off the outcome of its fetch. *)
Definition turn_result (retries attempt : Z) (o : Res Response) : Res (option Response) :=
  match o with
  | Ok r =>
      if ok r then Ok (Some r)
      else if (attempt =? retries)%Z then Throw (ErrHttp (status r) (statusText r))
      else Ok None
  | Throw e => if (attempt =? retries)%Z then Throw e else Ok None
  end.

(** One turn makes exactly one fetch, asks for no delay and leaves the
    loader's fields alone. *)
Lemma attempt_runs (url : string) (retries attempt : Z) (w : World) :
  fst (fetchWithRetry_attempt browser url retries attempt w)
  = turn_result retries attempt (fetch_outcome browser (fetches w) url)
  /\ fetches (snd (fetchWithRetry_attempt browser url retries attempt w)) = S (fetches w)
  /\ loader (snd (fetchWithRetry_attempt browser url retries attempt w)) = loader w
  /\ links (snd (fetchWithRetry_attempt browser url retries attempt w)) = links w
  /\ timeouts (events (snd (fetchWithRetry_attempt browser url retries attempt w)))
     = timeouts (events w).
Proof.
  unfold fetchWithRetry_attempt, fetch, log, read, emit, turn_result. unfold_monad. simpl.
  destruct (debug (config (loader w))) eqn:Hd; simpl;
    destruct (fetch_outcome browser (fetches w) url) as [r|e]; simpl.
  all: try (destruct (ok r); simpl).
  all: destruct (attempt =? retries)%Z; simpl.
  all: try (destruct (status r =? 404)%Z; simpl).
  all: rewrite ?Hd; simpl.
  all: rewrite ?timeouts_app; simpl; rewrite ?app_nil_r; auto.
Qed.

(** A turn whose fetch fails before the last allowed one hands over to the
    next turn, after asking for a delay of [retryDelay * attempt]. *)
Lemma loop_step_retry (url : string) (retries : Z) (fuel : nat) (attempt : Z) (w : World) :
  (attempt < retries)%Z ->
  failing (fetch_outcome browser (fetches w) url) = true ->
  exists w2,
    fetchWithRetry_loop browser (S fuel) url retries attempt w
    = fetchWithRetry_loop browser fuel url retries (attempt + 1) w2
    /\ fetches w2 = S (fetches w)
    /\ loader w2 = loader w
    /\ timeouts (events w2)
       = timeouts (events w) ++ [(retryDelay (config (loader w)) * attempt)%Z].
Proof.
  intros Hlt Hfail. simpl fetchWithRetry_loop.
  destruct (Z.leb_spec attempt retries); [|lia].
  destruct (attempt_runs url retries attempt w) as (Hres & Hf & Hl & _ & Ht).
  assert (turn_result retries attempt (fetch_outcome browser (fetches w) url) = Ok None)
    as Hturn.
  { unfold turn_result, failing in *.
    destruct (Z.eqb_spec attempt retries); [lia|].
    destruct (fetch_outcome browser (fetches w) url) as [r0|e0]; [|reflexivity].
    destruct (ok r0); [discriminate|reflexivity]. }
  rewrite Hturn in Hres. unfold bind at 1.
  destruct (fetchWithRetry_attempt browser url retries attempt w) as [res w1].
  simpl in Hres, Hf, Hl, Ht. subst res.
  unfold bind at 1, read at 1, gets at 1.
  destruct (Z.ltb_spec attempt retries); [|lia]. unfold when.
  unfold bind at 1, emit at 1, modify at 1.
  eexists. split; [reflexivity|]. simpl.
  rewrite timeouts_app, Ht, Hl. auto.
Qed.

(** A turn that returns or throws ends the loop. *)
Lemma loop_step_final (url : string) (retries : Z) (fuel : nat) (attempt : Z) (w : World)
      (res : Res Response) :
  (attempt <= retries)%Z ->
  turn_result retries attempt (fetch_outcome browser (fetches w) url)
  = match res with Ok r => Ok (Some r) | Throw e => Throw e end ->
  exists w1,
    fetchWithRetry_loop browser (S fuel) url retries attempt w = (res, w1)
    /\ fetches w1 = S (fetches w)
    /\ loader w1 = loader w
    /\ timeouts (events w1) = timeouts (events w).
Proof.
  intros Hle Hturn. simpl fetchWithRetry_loop.
  destruct (Z.leb_spec attempt retries); [|lia].
  destruct (attempt_runs url retries attempt w) as (Hres & Hf & Hl & _ & Ht).
  rewrite Hturn in Hres. unfold bind at 1.
  destruct (fetchWithRetry_attempt browser url retries attempt w) as [res1 w1].
  simpl in Hres, Hf, Hl, Ht. subst res1.
  exists w1. destruct res; auto.
Qed.

(** The loop from turn [attempt] on, when the next [k] fetches fail and the
    one after them succeeds within the bound. *)
Lemma loop_succeeds_after (url : string) (retries : Z) (r : Response) (k : nat) :
  forall (fuel : nat) (attempt : Z) (w : World),
    (attempt + Z.of_nat k <= retries)%Z ->
    (k < fuel)%nat ->
    (forall i, (i < k)%nat -> failing (fetch_outcome browser (fetches w + i) url) = true) ->
    fetch_outcome browser (fetches w + k) url = Ok r ->
    ok r = true ->
    exists w',
      fetchWithRetry_loop browser fuel url retries attempt w = (Ok r, w')
      /\ fetches w' = (fetches w + k + 1)%nat
      /\ loader w' = loader w
      /\ timeouts (events w')
         = timeouts (events w)
           ++ map (fun j => (retryDelay (config (loader w)) * (attempt + Z.of_nat j))%Z)
                  (seq 0 k).
Proof.
  induction k as [|k IH]; intros fuel attempt w Hle Hfuel Hfail Hok Hr.
  - destruct fuel as [|fuel]; [lia|].
    rewrite Nat.add_0_r in Hok.
    destruct (loop_step_final url retries fuel attempt w (Ok r)) as (w1 & He & Hf & Hl & Ht);
      [lia | unfold turn_result; rewrite Hok, Hr; reflexivity |].
    exists w1. simpl. rewrite app_nil_r. repeat split; auto. lia.
  - destruct fuel as [|fuel]; [lia|].
    pose proof (Hfail 0%nat ltac:(lia)) as H0. rewrite Nat.add_0_r in H0.
    destruct (loop_step_retry url retries fuel attempt w) as (w2 & He & Hf & Hl & Ht);
      [lia | exact H0 |].
    destruct (IH fuel (attempt + 1)%Z w2) as (w' & IH1 & IH2 & IH3 & IH4); try lia.
    { intros i Hi. rewrite Hf.
      replace (S (fetches w) + i)%nat with (fetches w + S i)%nat by lia.
      apply Hfail. lia. }
    { rewrite Hf. replace (S (fetches w) + k)%nat with (fetches w + S k)%nat by lia.
      exact Hok. }
    { exact Hr. }
    exists w'. rewrite He. split; [exact IH1|]. split; [lia|]. split; [congruence|].
    rewrite IH4, Ht, Hl. simpl. rewrite <- app_assoc. simpl.
    rewrite Z.add_0_r. do 2 f_equal.
    rewrite <- seq_shift, map_map. apply map_ext. intros j. f_equal. lia.
Qed.

(** The loop from turn [attempt] on, when every fetch up to the last
    allowed turn fails. *)
Lemma loop_exhausts (url : string) (retries : Z) (m : nat) :
  forall (fuel : nat) (attempt : Z) (w : World),
    (attempt + Z.of_nat m = retries)%Z ->
    (m < fuel)%nat ->
    (forall i, (i <= m)%nat -> failing (fetch_outcome browser (fetches w + i) url) = true) ->
    exists w',
      fetchWithRetry_loop browser fuel url retries attempt w
      = (Throw (error_of (fetch_outcome browser (fetches w + m) url)), w')
      /\ fetches w' = (fetches w + m + 1)%nat
      /\ loader w' = loader w
      /\ timeouts (events w')
         = timeouts (events w)
           ++ map (fun j => (retryDelay (config (loader w)) * (attempt + Z.of_nat j))%Z)
                  (seq 0 m).
Proof.
  induction m as [|m IH]; intros fuel attempt w Hle Hfuel Hfail.
  - destruct fuel as [|fuel]; [lia|].
    pose proof (Hfail 0%nat ltac:(lia)) as H0. rewrite Nat.add_0_r in H0 |- *.
    destruct (loop_step_final url retries fuel attempt w
                (Throw (error_of (fetch_outcome browser (fetches w) url))))
      as (w1 & He & Hf & Hl & Ht); [lia | |].
    { unfold turn_result, failing, error_of in *.
      destruct (Z.eqb_spec attempt retries); [|lia].
      destruct (fetch_outcome browser (fetches w) url) as [r0|e0]; [|reflexivity].
      destruct (ok r0); [discriminate|reflexivity]. }
    exists w1. simpl. rewrite app_nil_r. repeat split; auto. lia.
  - destruct fuel as [|fuel]; [lia|].
    pose proof (Hfail 0%nat ltac:(lia)) as H0. rewrite Nat.add_0_r in H0.
    destruct (loop_step_retry url retries fuel attempt w) as (w2 & He & Hf & Hl & Ht);
      [lia | exact H0 |].
    destruct (IH fuel (attempt + 1)%Z w2) as (w' & IH1 & IH2 & IH3 & IH4); try lia.
    { intros i Hi. rewrite Hf.
      replace (S (fetches w) + i)%nat with (fetches w + S i)%nat by lia.
      apply Hfail. lia. }
    exists w'. rewrite He. split; [|split; [lia|split; [congruence|]]].
    + rewrite IH1, Hf. do 4 f_equal. lia.
    + rewrite IH4, Ht, Hl. simpl. rewrite <- app_assoc. simpl.
      rewrite Z.add_0_r. do 2 f_equal.
      rewrite <- seq_shift, map_map. apply map_ext. intros j. f_equal. lia.
Qed.

(** After [k] failed fetches, a success on the next one, still within the
    allowed attempts, is what [fetchWithRetry] resolves with; it has made
    [k + 1] fetches and waited [retryDelay * attempt] after each failed
    attempt. *)
Theorem fetchWithRetry_succeeds_after_failures
    (url : string) (retries : Z) (r : Response) (k : nat) (w : World) :
  (Z.of_nat k < retries)%Z ->
  (forall i, (i < k)%nat -> failing (fetch_outcome browser (fetches w + i) url) = true) ->
  fetch_outcome browser (fetches w + k) url = Ok r ->
  ok r = true ->
  fst (fetchWithRetry browser url retries w) = Ok r
  /\ fetches (snd (fetchWithRetry browser url retries w)) = (fetches w + k + 1)%nat
  /\ timeouts (events (snd (fetchWithRetry browser url retries w)))
     = timeouts (events w)
       ++ map (fun j => (retryDelay (config (loader w)) * (1 + Z.of_nat j))%Z) (seq 0 k).
Proof.
  intros Hk Hfail Hok Hr. unfold fetchWithRetry.
  destruct (loop_succeeds_after url retries r k (Z.to_nat retries) 1 w)
    as (w' & He & H2 & _ & H4); try assumption; try lia.
  rewrite He. auto.
Qed.

(** When every allowed attempt fails, [fetchWithRetry] has made exactly
    [retries] fetches, waited [retryDelay * attempt] between them, and
    throws the error of the last attempt. *)
Theorem fetchWithRetry_exhausts
    (url : string) (retries : Z) (w : World) :
  (1 <= retries)%Z ->
  (forall i, (Z.of_nat i < retries)%Z ->
             failing (fetch_outcome browser (fetches w + i) url) = true) ->
  fst (fetchWithRetry browser url retries w)
  = Throw (error_of (fetch_outcome browser (fetches w + Z.to_nat (retries - 1)) url))
  /\ fetches (snd (fetchWithRetry browser url retries w))
     = (fetches w + Z.to_nat retries)%nat
  /\ timeouts (events (snd (fetchWithRetry browser url retries w)))
     = timeouts (events w)
       ++ map (fun j => (retryDelay (config (loader w)) * (1 + Z.of_nat j))%Z)
              (seq 0 (Z.to_nat (retries - 1))).
Proof.
  intros H1 Hfail. unfold fetchWithRetry.
  destruct (loop_exhausts url retries (Z.to_nat (retries - 1)) (Z.to_nat retries) 1 w)
    as (w' & He & Hb & _ & Hd); try lia.
  { intros i Hi. apply Hfail. lia. }
  rewrite He. simpl. repeat split; try assumption. rewrite Hb. lia.
Qed.

(** With no attempt allowed, [fetchWithRetry] throws without touching the
    network. *)
Theorem fetchWithRetry_no_attempts (url : string) (retries : Z) (w : World) :
  (retries <= 0)%Z ->
  fetchWithRetry browser url retries w = (Throw (ErrRetriesExhausted url retries), w).
Proof.
  intros H. unfold fetchWithRetry.
  replace (Z.to_nat retries) with 0%nat by lia. reflexivity.
Qed.

(** The loop makes at most [fuel] fetches and leaves the loader's own
    fields alone. *)
Lemma loop_bounded (url : string) (retries : Z) (fuel : nat) :
  forall (attempt : Z) (w : World),
    let w' := snd (fetchWithRetry_loop browser fuel url retries attempt w) in
    (fetches w <= fetches w' <= fetches w + fuel)%nat
    /\ loader w' = loader w
    /\ links w' = links w.
Proof.
  induction fuel as [|fuel IH]; intros attempt w; cbv zeta.
  - simpl. split; [lia | auto].
  - simpl fetchWithRetry_loop.
    destruct (attempt <=? retries)%Z; [|simpl; split; [lia | auto]].
    destruct (attempt_runs url retries attempt w) as (_ & Hf & Hl & Hk & _).
    destruct (fetchWithRetry_attempt browser url retries attempt w)
      as [[[r|]|e] w1] eqn:Ha; simpl in Hf, Hl, Hk.
    + rewrite (bind_ok _ _ _ _ _ Ha). simpl. split; [lia | auto].
    + rewrite (bind_ok _ _ _ _ _ Ha).
      erewrite bind_ok; [|reflexivity].
      destruct (attempt <? retries)%Z; simpl when.
      * erewrite bind_ok; [|reflexivity].
        match goal with
        | |- context [fetchWithRetry_loop browser fuel url retries (attempt + 1) ?w2] =>
            specialize (IH (attempt + 1)%Z w2)
        end.
        cbv zeta in IH. simpl in IH. destruct IH as (IH1 & IH2 & IH3).
        split; [lia|]. split; congruence.
      * erewrite bind_ok; [|reflexivity].
        specialize (IH (attempt + 1)%Z w1). cbv zeta in IH.
        destruct IH as (IH1 & IH2 & IH3).
        split; [lia|]. split; congruence.
    + rewrite (bind_throw _ _ _ _ _ Ha). simpl. split; [lia | auto].
Qed.

(** The retrying fetch never makes more fetches than the attempts it is
    allowed, appends no stylesheet link, and leaves the loader's own
    fields (caches, flags, statistics) alone, however it ends. *)
Theorem fetchWithRetry_bounded (url : string) (retries : Z) (w : World) :
  (fetches w <= fetches (snd (fetchWithRetry browser url retries w))
   <= fetches w + Z.to_nat retries)%nat
  /\ loader (snd (fetchWithRetry browser url retries w)) = loader w
  /\ links (snd (fetchWithRetry browser url retries w)) = links w.
Proof. apply loop_bounded. Qed.

End RetryFacts.

(** A browser with no network: every fetch rejects. *)
Module Offline.

Import LazyLoader.

Definition failure : Error := ErrExternal "Failed to fetch".

Definition browser : Browser :=
  {| fetch_outcome := fun _ _ => Throw failure;
     link_loads := fun _ _ => true;
     performance_now := fun n => inject_Z (Z.of_nat n);
     date_now := fun n => Z.of_nat n;
     observer_new := Ok tt;
     observe_throws := fun _ => false;
     querySelector := fun _ => Ok false |}.

Definition world : World := boot (new defaultConfig).

End Offline.

Lemma fetchWithRetry_succeeds_after_failures_witness :
  fst (LazyLoader.fetchWithRetry NotFoundOnce.browser NotFoundOnce.url 3 Offline.world)
  = Ok NotFoundOnce.found
  /\ LazyLoader.fetches
       (snd (LazyLoader.fetchWithRetry NotFoundOnce.browser NotFoundOnce.url 3 Offline.world))
     = (LazyLoader.fetches Offline.world + 1 + 1)%nat
  /\ timeouts (LazyLoader.events
                 (snd (LazyLoader.fetchWithRetry NotFoundOnce.browser NotFoundOnce.url 3
                         Offline.world)))
     = timeouts (LazyLoader.events Offline.world)
       ++ map (fun j => (LazyLoader.retryDelay
                           (LazyLoader.config (LazyLoader.loader Offline.world))
                         * (1 + Z.of_nat j))%Z) (seq 0 1).
Proof.
  apply (fetchWithRetry_succeeds_after_failures NotFoundOnce.browser NotFoundOnce.url 3
           NotFoundOnce.found 1 Offline.world).
  - lia.
  - intros i Hi. assert (i = 0%nat) as -> by lia. reflexivity.
  - reflexivity.
  - reflexivity.
Defined.

Lemma fetchWithRetry_exhausts_witness :
  fst (LazyLoader.fetchWithRetry Offline.browser NotFoundOnce.url 3 Offline.world)
  = Throw (error_of (LazyLoader.fetch_outcome Offline.browser
                       (LazyLoader.fetches Offline.world + Z.to_nat (3 - 1))
                       NotFoundOnce.url))
  /\ LazyLoader.fetches
       (snd (LazyLoader.fetchWithRetry Offline.browser NotFoundOnce.url 3 Offline.world))
     = (LazyLoader.fetches Offline.world + Z.to_nat 3)%nat
  /\ timeouts (LazyLoader.events
                 (snd (LazyLoader.fetchWithRetry Offline.browser NotFoundOnce.url 3
                         Offline.world)))
     = timeouts (LazyLoader.events Offline.world)
       ++ map (fun j => (LazyLoader.retryDelay
                           (LazyLoader.config (LazyLoader.loader Offline.world))
                         * (1 + Z.of_nat j))%Z) (seq 0 (Z.to_nat (3 - 1))).
Proof.
  apply (fetchWithRetry_exhausts Offline.browser NotFoundOnce.url 3 Offline.world).
  - lia.
  - intros i Hi. reflexivity.
Defined.

Example fetchWithRetry_exhausts_delays :
  timeouts (LazyLoader.events
              (snd (LazyLoader.fetchWithRetry Offline.browser NotFoundOnce.url 3
                      Offline.world)))
  = [1000; 2000]%Z.
Proof. reflexivity. Qed.

Lemma fetchWithRetry_no_attempts_witness :
  LazyLoader.fetchWithRetry NotFoundOnce.browser NotFoundOnce.url 0 Offline.world
  = (Throw (ErrRetriesExhausted NotFoundOnce.url 0), Offline.world).
Proof.
  apply (fetchWithRetry_no_attempts NotFoundOnce.browser NotFoundOnce.url 0 Offline.world).
  lia.
Defined.

(* ===================================================================== *)
(** * More on the client runtime loader: loading a fragment *)
(* ===================================================================== *)

Section Returning.

Context {S : Type}.

(** [m] never throws. *)
Definition returns {A} (m : M S A) : Prop :=
  forall s, exists a, fst (m s) = Ok a.

Lemma returns_ret {A} (a : A) : returns (@ret S A a).
Proof. intros s. exists a. reflexivity. Qed.

Lemma returns_gets {A} (f : S -> A) : returns (gets f).
Proof. intros s. eexists. reflexivity. Qed.

Lemma returns_modify (f : S -> S) : returns (modify f).
Proof. intros s. eexists. reflexivity. Qed.

Lemma returns_bind {A B} (m : M S A) (k : A -> M S B) :
  returns m -> (forall a, returns (k a)) -> returns (bind m k).
Proof.
  intros Hm Hk s. destruct (Hm s) as [a Ha]. unfold bind.
  destruct (m s) as [[a'|e] s']; simpl in Ha; [|discriminate]. apply Hk.
Qed.

Lemma returns_try_catch {A} (m : M S A) (h : Error -> M S A) :
  (forall e, returns (h e)) -> returns (try_catch m h).
Proof.
  intros Hh s. unfold try_catch. destruct (m s) as [[a|e] s']; [eexists; reflexivity|].
  apply Hh.
Qed.

Lemma bind_cases {A B} (m : M S A) (k : A -> M S B) (s : S) :
  (exists a s1, m s = (Ok a, s1) /\ bind m k s = k a s1)
  \/ (exists e s1, m s = (Throw e, s1) /\ bind m k s = (Throw e, s1)).
Proof.
  unfold bind. destruct (m s) as [[a|e] s1]; [left | right]; eauto.
Qed.

End Returning.

Section LoadFacts.

Import LazyLoader.

Variable browser : Browser.

(** What loading style sheets and fetching never touch: the counters, the
    HTML cache and the caching switch. *)
Definition keeps_books (w w' : World) : Prop :=
  stats (loader w') = stats (loader w)
  /\ htmlCache (loader w') = htmlCache (loader w)
  /\ cacheHTML (config (loader w')) = cacheHTML (config (loader w)).

Lemma keeps_books_refl w : keeps_books w w.
Proof. unfold keeps_books. auto. Qed.

Lemma keeps_books_trans w1 w2 w3 :
  keeps_books w1 w2 -> keeps_books w2 w3 -> keeps_books w1 w3.
Proof.
  unfold keeps_books. intros (? & ? & ?) (? & ? & ?). repeat split; congruence.
Qed.

Lemma same_loader_keeps_books w w' : loader w' = loader w -> keeps_books w w'.
Proof. unfold keeps_books. intros ->. auto. Qed.

Lemma emit_keeps_books e : preserves keeps_books (emit e).
Proof. intros w. apply same_loader_keeps_books. reflexivity. Qed.

Lemma read_keeps_books {A} (f : Loader -> A) : preserves keeps_books (read f).
Proof. intros w. apply keeps_books_refl. Qed.

Lemma log_keeps_books message : preserves keeps_books (log message).
Proof.
  intros w. apply same_loader_keeps_books. unfold log, read, emit. unfold_monad. simpl.
  destruct (debug (config (loader w))); reflexivity.
Qed.

Lemma now_keeps_books : preserves keeps_books (now browser).
Proof. intros w. apply same_loader_keeps_books. reflexivity. Qed.

Lemma fetch_keeps_books url : preserves keeps_books (fetch browser url).
Proof. intros w. apply same_loader_keeps_books. reflexivity. Qed.

Lemma fetchMaybeRetry_keeps_books url : preserves keeps_books (fetchMaybeRetry browser url).
Proof.
  intros w. unfold fetchMaybeRetry, read, bind, gets.
  destruct (enableRetry (config (loader w))).
  - apply same_loader_keeps_books. unfold fetchWithRetry. apply loop_bounded.
  - apply fetch_keeps_books.
Qed.

Lemma appendStylesheet_keeps_books href :
  preserves keeps_books (appendStylesheet browser href).
Proof.
  intros w. apply same_loader_keeps_books.
  unfold appendStylesheet, read, emit. unfold_monad. simpl.
  destruct (preloadCSS (config (loader w))); reflexivity.
Qed.

Lemma update_keeps_books (f : Loader -> Loader) :
  (forall l, stats (f l) = stats l /\ htmlCache (f l) = htmlCache l
             /\ cacheHTML (config (f l)) = cacheHTML (config l)) ->
  preserves keeps_books (update f).
Proof. intros Hf w. unfold keeps_books. simpl. apply Hf. Qed.

Lemma loadManifest_keeps_books : preserves keeps_books (loadManifest browser).
Proof.
  pose proof keeps_books_refl as Hrefl. pose proof keeps_books_trans as Htrans.
  pose proof emit_keeps_books as Hemit. pose proof log_keeps_books as Hlog.
  pose proof now_keeps_books as Hnow.
  pose proof fetchMaybeRetry_keeps_books as Hfetch.
  assert (forall A (f : Loader -> A), preserves keeps_books (read f)) as Hread
      by (intros; apply read_keeps_books).
  unfold loadManifest. preserve_steps.
  all: apply update_keeps_books; intros l; auto.
Qed.

Lemma loadBaseCSS_keeps_books : preserves keeps_books (loadBaseCSS browser).
Proof.
  pose proof keeps_books_refl as Hrefl. pose proof keeps_books_trans as Htrans.
  pose proof emit_keeps_books as Hemit. pose proof log_keeps_books as Hlog.
  pose proof now_keeps_books as Hnow.
  pose proof loadManifest_keeps_books as Hmanifest.
  pose proof appendStylesheet_keeps_books as Happend.
  assert (forall A (f : Loader -> A), preserves keeps_books (read f)) as Hread
      by (intros; apply read_keeps_books).
  unfold loadBaseCSS. preserve_steps.
  all: apply update_keeps_books; intros l; auto.
Qed.

Lemma loadComponentCSS_keeps_books name :
  preserves keeps_books (loadComponentCSS browser name).
Proof.
  pose proof keeps_books_refl as Hrefl. pose proof keeps_books_trans as Htrans.
  pose proof emit_keeps_books as Hemit. pose proof log_keeps_books as Hlog.
  pose proof now_keeps_books as Hnow.
  pose proof appendStylesheet_keeps_books as Happend.
  assert (forall A (f : Loader -> A), preserves keeps_books (read f)) as Hread
      by (intros; apply read_keeps_books).
  unfold loadComponentCSS. preserve_steps.
  all: apply update_keeps_books; intros l; auto.
Qed.

Lemma loadLegacyCSS_keeps_books : preserves keeps_books (loadLegacyCSS browser).
Proof.
  pose proof keeps_books_refl as Hrefl. pose proof keeps_books_trans as Htrans.
  pose proof emit_keeps_books as Hemit. pose proof log_keeps_books as Hlog.
  pose proof now_keeps_books as Hnow.
  pose proof appendStylesheet_keeps_books as Happend.
  assert (forall A (f : Loader -> A), preserves keeps_books (read f)) as Hread
      by (intros; apply read_keeps_books).
  unfold loadLegacyCSS. preserve_steps.
  all: apply update_keeps_books; intros l; auto.
Qed.

(** The style-sheet phase of a cache miss. *)
Definition stylesheets (componentName : string) (modules : bool) : M World unit :=
  if modules then
    warn_on_failure "Failed to load base CSS:" (loadBaseCSS browser) ;;
    warn_on_failure ("Failed to load CSS for " +:+ componentName +:+ ":")
      (loadComponentCSS browser componentName)
  else
    warn_on_failure "Failed to load legacy CSS:" (loadLegacyCSS browser).

(** A style sheet that fails to load is only warned about. *)
Lemma stylesheets_return name modules : returns (stylesheets name modules).
Proof.
  assert (forall message m, returns (warn_on_failure message m)) as Hwarn.
  { intros message m. apply returns_try_catch. intros e. apply returns_modify. }
  unfold stylesheets. destruct modules; [|apply Hwarn].
  apply returns_bind; [apply Hwarn | intros _; apply Hwarn].
Qed.

Lemma stylesheets_keep_books name modules :
  preserves keeps_books (stylesheets name modules).
Proof.
  pose proof keeps_books_refl as Hrefl. pose proof keeps_books_trans as Htrans.
  pose proof emit_keeps_books as Hemit.
  pose proof loadBaseCSS_keeps_books as Hbase.
  pose proof loadComponentCSS_keeps_books as Hcomponent.
  pose proof loadLegacyCSS_keeps_books as Hlegacy.
  unfold stylesheets, warn_on_failure. preserve_steps.
Qed.

End LoadFacts.

Section LoadAccounting.

Import LazyLoader.

Variable browser : Browser.

(** What a cache miss does once the response is in. *)
Definition load_tail (componentName : string) (startTime : Q) (response : Response)
  : M World string :=
  (if ok response then ret tt
   else throw (ErrHttp (status response) (statusText response))) ;;
  html <- await (text response) ;;
  let bytes := blob_size html in
  caching <- read (fun l => cacheHTML (config l)) ;;
  when caching (update (with_htmlCache (insert componentName html))) ;;
  t <- now browser ;;
  let duration := (t - startTime)%Q in
  update (with_stats bump_totalLoads) ;;
  update (with_stats (add_loadTime duration)) ;;
  update (with_stats (add_bytes bytes)) ;;
  log [Txt "Loaded "; Txt componentName; Txt " in "; Millis duration;
       Txt "ms ("; Num (Z.of_N bytes); Txt " bytes)"] ;;
  await (observer_new browser) ;;
  observeResources browser ;;
  ts <- today browser ;;
  update (with_detailedStats
            (insert componentName
               {| duration := duration; bytes := bytes; fromCache := false;
                  timestamp := ts; secondaryAssets := Some [] |})) ;;
  emit (OnLoad componentName duration bytes false (Some [])) ;;
  ret html.

Lemma load_miss_phases (componentName : string) (startTime : Q) :
  load_miss browser componentName startTime
  = (update (with_stats bump_cacheMisses) ;;
     modules <- read (fun l => cssModules (config l)) ;;
     stylesheets browser componentName modules ;;
     base <- read (fun l => baseUrl (config l)) ;;
     response <- fetchMaybeRetry browser (base +:+ "/" +:+ componentName +:+ ".html") ;;
     load_tail componentName startTime response).
Proof. reflexivity. Qed.

(** The books of a load: the counters, the HTML cache and the caching
    switch. *)
Record Books : Type := mkBooks {
  b_totalLoads : N;
  b_cacheHits : N;
  b_cacheMisses : N;
  b_errors : N;
  b_totalBytes : N;
  b_htmlCache : gmap string string;
  b_caching : bool
}.

Definition books (w : World) : Books :=
  {| b_totalLoads := totalLoads (stats (loader w));
     b_cacheHits := cacheHits (stats (loader w));
     b_cacheMisses := cacheMisses (stats (loader w));
     b_errors := errors (stats (loader w));
     b_totalBytes := totalBytes (stats (loader w));
     b_htmlCache := htmlCache (loader w);
     b_caching := cacheHTML (config (loader w)) |}.

(** The books once a fetched fragment has been stored and counted. *)
Definition counted (componentName html : string) (b : Books) : Books :=
  {| b_totalLoads := b_totalLoads b + 1;
     b_cacheHits := b_cacheHits b;
     b_cacheMisses := b_cacheMisses b;
     b_errors := b_errors b;
     b_totalBytes := b_totalBytes b + blob_size html;
     b_htmlCache := if b_caching b then <[componentName := html]> (b_htmlCache b)
                    else b_htmlCache b;
     b_caching := b_caching b |}.

Definition missed (b : Books) : Books :=
  {| b_totalLoads := b_totalLoads b;
     b_cacheHits := b_cacheHits b;
     b_cacheMisses := b_cacheMisses b + 1;
     b_errors := b_errors b;
     b_totalBytes := b_totalBytes b;
     b_htmlCache := b_htmlCache b;
     b_caching := b_caching b |}.

Definition failed (b : Books) : Books :=
  {| b_totalLoads := b_totalLoads b;
     b_cacheHits := b_cacheHits b;
     b_cacheMisses := b_cacheMisses b;
     b_errors := b_errors b + 1;
     b_totalBytes := b_totalBytes b;
     b_htmlCache := b_htmlCache b;
     b_caching := b_caching b |}.

Lemma keeps_books_books w w' : keeps_books w w' -> books w' = books w.
Proof. unfold keeps_books, books. intros (-> & -> & ->). reflexivity. Qed.

(** The books after a response came in. The fragment is stored and
    counted before the resource observer is constructed, so a failure
    there leaves it stored and counted; a bad status or an unreadable body
    leaves the books alone. *)
Lemma load_tail_books (componentName : string) (startTime : Q) (response : Response)
      (w : World) :
  match load_tail componentName startTime response w with
  | (Ok html, w') => books w' = counted componentName html (books w)
  | (Throw e, w') =>
      books w' = books w
      \/ (observer_new browser = Throw e
          /\ exists html, text response = Ok html
                          /\ books w' = counted componentName html (books w))
  end.
Proof.
  unfold load_tail, observeResources, today, now, log, read, update, emit.
  unfold_monad. simpl.
  destruct (ok response); simpl; [|left; reflexivity].
  destruct (text response) as [html|e]; [|left; reflexivity].
  destruct w as [l evs nf nl nr nd].
  destruct l as [c hc cc ob mf ml bl ll st ds].
  destruct c as [bu cm mu bcu lcu pc ch er mr rd dbg].
  destruct (observer_new browser) as [[]|e] eqn:Hobs.
  - destruct ch, dbg, (observe_throws browser true); reflexivity.
  - destruct ch, dbg; simpl; right; (split; [reflexivity|]); exists html;
      split; reflexivity.
Qed.

Lemma load_miss_books (componentName : string) (startTime : Q) (w : World) :
  match load_miss browser componentName startTime w with
  | (Ok html, w') => books w' = counted componentName html (missed (books w))
  | (Throw e, w') =>
      books w' = missed (books w)
      \/ (observer_new browser = Throw e
          /\ exists html, books w' = counted componentName html (missed (books w)))
  end.
Proof.
  rewrite load_miss_phases.
  set (w1 := with_loader (with_stats bump_cacheMisses) w).
  rewrite (bind_ok _ _ w tt w1) by reflexivity.
  rewrite (bind_ok _ _ w1 (cssModules (config (loader w1))) w1) by reflexivity.
  assert (books w1 = missed (books w)) as Hb1 by reflexivity.
  destruct (stylesheets_return browser componentName (cssModules (config (loader w1))) w1)
    as [[] Hret].
  pose proof (stylesheets_keep_books browser componentName
                (cssModules (config (loader w1))) w1) as Hk2.
  destruct (stylesheets browser componentName (cssModules (config (loader w1))) w1)
    as [r2 w2] eqn:Hs. simpl in Hret, Hk2. subst r2.
  rewrite (bind_ok _ _ w1 tt w2 Hs).
  rewrite (bind_ok _ _ w2 (baseUrl (config (loader w2))) w2) by reflexivity.
  apply keeps_books_books in Hk2.
  set (url := baseUrl (config (loader w2)) +:+ "/" +:+ componentName +:+ ".html").
  pose proof (fetchMaybeRetry_keeps_books browser url w2) as Hk3.
  destruct (fetchMaybeRetry browser url w2) as [[response|e] w3] eqn:Hf; simpl in Hk3;
    apply keeps_books_books in Hk3.
  - rewrite (bind_ok _ _ w2 response w3 Hf).
    pose proof (load_tail_books componentName startTime response w3) as Ht.
    destruct (load_tail componentName startTime response w3) as [[html|e] w4].
    + rewrite Ht, Hk3, Hk2, Hb1. reflexivity.
    + destruct Ht as [Ht|(Hobs & html & _ & Ht)].
      * left. rewrite Ht, Hk3, Hk2, Hb1. reflexivity.
      * right. split; [exact Hobs|]. exists html.
        rewrite Ht, Hk3, Hk2, Hb1. reflexivity.
  - rewrite (bind_throw _ _ w2 e w3 Hf). left. rewrite Hk3, Hk2, Hb1. reflexivity.
Qed.

(** Is this call a cache hit? *)
Definition is_hit (componentName : string) (b : Books) : bool :=
  b_caching b && bool_decide (is_Some (b_htmlCache b !! componentName)).

(** The catch block of [load] counts the error and changes nothing else
    in the books. *)
Lemma load_catch_books (componentName : string) (e : Error) (w : World) :
  books (snd ((update (with_stats bump_errors) ;;
               log [Txt "Error loading "; Txt componentName; Txt ":"; Err e] ;;
               emit (OnError componentName e) ;;
               @throw World string e) w))
  = failed (books w)
  /\ fst ((update (with_stats bump_errors) ;;
           log [Txt "Error loading "; Txt componentName; Txt ":"; Err e] ;;
           emit (OnError componentName e) ;;
           @throw World string e) w) = Throw e.
Proof.
  unfold log, read, update, emit. unfold_monad. simpl.
  destruct (debug (config (loader w))); simpl; split; reflexivity.
Qed.

(** The books of [load] on every path of the model. *)
Lemma load_accounts (componentName : string) (w : World) :
  match load browser componentName w with
  | (Ok html, w') =>
      books w'
      = {| b_totalLoads := b_totalLoads (books w) + 1;
           b_cacheHits :=
             b_cacheHits (books w) + (if is_hit componentName (books w) then 1 else 0);
           b_cacheMisses :=
             b_cacheMisses (books w) + (if is_hit componentName (books w) then 0 else 1);
           b_errors := b_errors (books w);
           b_totalBytes :=
             b_totalBytes (books w)
             + (if is_hit componentName (books w) then 0 else blob_size html);
           b_htmlCache := if b_caching (books w)
                          then <[componentName := html]> (b_htmlCache (books w))
                          else b_htmlCache (books w);
           b_caching := b_caching (books w) |}
  | (Throw e, w') =>
      is_hit componentName (books w) = false
      /\ (books w' = failed (missed (books w))
          \/ (observer_new browser = Throw e
              /\ exists html,
                   books w' = failed (counted componentName html (missed (books w)))))
  end.
Proof.
  unfold is_hit.
  destruct (cacheHTML (config (loader w))) eqn:Hc;
    [destruct (htmlCache (loader w) !! componentName) as [html|] eqn:Hh|].
  - rewrite (load_hit_runs browser componentName html w Hc Hh).
    unfold books at 1; simpl. unfold books; simpl. rewrite Hc, Hh. simpl.
    rewrite !N.add_0_r. f_equal. symmetry. apply insert_id. exact Hh.
  - assert (b_caching (books w)
            && bool_decide (is_Some (b_htmlCache (books w) !! componentName)) = false)
      as ->.
    { simpl. rewrite Hh, Hc. reflexivity. }
    unfold load.
    set (w0 := snd (now browser w)).
    rewrite (bind_ok _ _ w (performance_now browser (readings w)) w0) by reflexivity.
    unfold try_catch.
    rewrite (bind_ok _ _ w0 true w0) by (unfold read, gets; simpl; rewrite Hc; reflexivity).
    rewrite (bind_ok _ _ w0 None w0) by (unfold read, gets; simpl; rewrite Hh; reflexivity).
    pose proof (load_miss_books componentName (performance_now browser (readings w)) w0)
      as Hm.
    destruct (load_miss browser componentName (performance_now browser (readings w)) w0)
      as [[html|e] w1].
    + rewrite Hm. unfold counted, missed; simpl. rewrite !N.add_0_r. reflexivity.
    + destruct (load_catch_books componentName e w1) as [Hb He].
      destruct ((update (with_stats bump_errors) ;;
                 log [Txt "Error loading "; Txt componentName; Txt ":"; Err e] ;;
                 emit (OnError componentName e) ;;
                 @throw World string e) w1) as [r w2]. simpl in Hb, He. subst r.
      split; [reflexivity|]. rewrite Hb.
      destruct Hm as [Hm|(Hobs & html & Hm)].
      * left. rewrite Hm. reflexivity.
      * right. split; [exact Hobs|]. exists html. rewrite Hm. reflexivity.
  - assert (b_caching (books w)
            && bool_decide (is_Some (b_htmlCache (books w) !! componentName)) = false)
      as -> by (simpl; rewrite Hc; reflexivity).
    unfold load.
    set (w0 := snd (now browser w)).
    rewrite (bind_ok _ _ w (performance_now browser (readings w)) w0) by reflexivity.
    unfold try_catch.
    rewrite (bind_ok _ _ w0 false w0) by (unfold read, gets; simpl; rewrite Hc; reflexivity).
    rewrite (bind_ok _ _ w0 (htmlCache (loader w0) !! componentName) w0) by reflexivity.
    pose proof (load_miss_books componentName (performance_now browser (readings w)) w0)
      as Hm.
    destruct (load_miss browser componentName (performance_now browser (readings w)) w0)
      as [[html|e] w1].
    + rewrite Hm. unfold counted, missed; simpl. rewrite !N.add_0_r. reflexivity.
    + destruct (load_catch_books componentName e w1) as [Hb He].
      destruct ((update (with_stats bump_errors) ;;
                 log [Txt "Error loading "; Txt componentName; Txt ":"; Err e] ;;
                 emit (OnError componentName e) ;;
                 @throw World string e) w1) as [r w2]. simpl in Hb, He. subst r.
      split; [reflexivity|]. rewrite Hb.
      destruct Hm as [Hm|(Hobs & html & Hm)].
      * left. rewrite Hm. reflexivity.
      * right. split; [exact Hobs|]. exists html. rewrite Hm. reflexivity.
Qed.

(** A call of [load] that returns a fragment has counted one load and no
    error, and one hit if caching is on and the name was cached, one miss
    otherwise; with caching on the HTML cache then holds the returned
    fragment under the name and is otherwise as before, with caching off
    it is untouched. *)
Theorem load_success_books (componentName html : string) (w : World) :
  fst (load browser componentName w) = Ok html ->
  let s := stats (loader w) in
  let w' := snd (load browser componentName w) in
  let s' := stats (loader w') in
  let hit := cacheHTML (config (loader w))
             && bool_decide (is_Some (htmlCache (loader w) !! componentName)) in
  totalLoads s' = (totalLoads s + 1)%N
  /\ errors s' = errors s
  /\ cacheHits s' = (cacheHits s + (if hit then 1 else 0))%N
  /\ cacheMisses s' = (cacheMisses s + (if hit then 0 else 1))%N
  /\ htmlCache (loader w')
     = if cacheHTML (config (loader w))
       then <[componentName := html]> (htmlCache (loader w))
       else htmlCache (loader w).
Proof.
  intros Hok. cbv zeta.
  pose proof (load_accounts componentName w) as Hb. unfold is_hit in Hb.
  destruct (load browser componentName w) as [[html'|e] w']; simpl in *; [|discriminate].
  injection Hok as ->.
  pose proof (f_equal b_totalLoads Hb) as H1.
  pose proof (f_equal b_errors Hb) as H2.
  pose proof (f_equal b_cacheHits Hb) as H3.
  pose proof (f_equal b_cacheMisses Hb) as H4.
  pose proof (f_equal b_htmlCache Hb) as H5.
  simpl in H1, H2, H3, H4, H5. auto.
Qed.

(** Every call of [load] is counted exactly once as a hit or a miss, and
    at least once as a load or an error: twice when it fails after the
    fragment was counted, once otherwise. So the loads and errors counted
    never fall behind the hits and misses. *)
Theorem load_counts_every_call (componentName : string) (w : World) :
  let s := stats (loader w) in
  let s' := stats (loader (snd (load browser componentName w))) in
  (cacheHits s' + cacheMisses s' = cacheHits s + cacheMisses s + 1
   /\ totalLoads s + errors s + 1 <= totalLoads s' + errors s'
      <= totalLoads s + errors s + 2)%N.
Proof.
  cbv zeta. pose proof (load_accounts componentName w) as Hb.
  destruct (load browser componentName w) as [[html|e] w']; simpl.
  - pose proof (f_equal b_totalLoads Hb) as H1.
    pose proof (f_equal b_errors Hb) as H2.
    pose proof (f_equal b_cacheHits Hb) as H3.
    pose proof (f_equal b_cacheMisses Hb) as H4.
    simpl in H1, H2, H3, H4. rewrite H1, H2, H3, H4.
    destruct (is_hit componentName (books w)); lia.
  - destruct Hb as [_ [Hb|(_ & html & Hb)]].
    all: pose proof (f_equal b_totalLoads Hb) as H1.
    all: pose proof (f_equal b_errors Hb) as H2.
    all: pose proof (f_equal b_cacheHits Hb) as H3.
    all: pose proof (f_equal b_cacheMisses Hb) as H4.
    all: simpl in H1, H2, H3, H4; rewrite H1, H2, H3, H4; lia.
Qed.

(** A fragment loaded once with caching on is served from memory from
    then on: a second [load] of the name returns the same HTML and makes
    no network request. *)
Theorem load_twice_hits (componentName html : string) (w : World) :
  cacheHTML (config (loader w)) = true ->
  fst (load browser componentName w) = Ok html ->
  let w1 := snd (load browser componentName w) in
  fst (load browser componentName w1) = Ok html
  /\ requests (events (snd (load browser componentName w1))) = requests (events w1)
  /\ fetches (snd (load browser componentName w1)) = fetches w1.
Proof.
  intros Hc Hok. pose proof (load_accounts componentName w) as Hb. cbv zeta in *.
  destruct (load browser componentName w) as [[html'|e] w1]; simpl in *; [|discriminate].
  injection Hok as ->.
  assert (cacheHTML (config (loader w1)) = true) as Hc1.
  { apply (f_equal b_caching) in Hb. simpl in Hb. congruence. }
  assert (htmlCache (loader w1) !! componentName = Some html) as Hh1.
  { apply (f_equal b_htmlCache) in Hb. simpl in Hb. rewrite Hb, Hc.
    apply lookup_insert_eq. }
  rewrite (load_hit_runs browser componentName html w1 Hc1 Hh1). simpl.
  repeat split.
  rewrite app_assoc. rewrite requests_snoc by reflexivity.
  destruct (debug (config (loader w1))).
  - apply requests_snoc. reflexivity.
  - rewrite app_nil_r. reflexivity.
Qed.

(** With caching off, [load] never stores anything in the HTML cache. *)
Theorem load_without_caching (componentName : string) (w : World) :
  cacheHTML (config (loader w)) = false ->
  htmlCache (loader (snd (load browser componentName w))) = htmlCache (loader w).
Proof.
  intros Hc. pose proof (load_accounts componentName w) as Hb. cbv zeta in *.
  destruct (load browser componentName w) as [[html|e] w']; simpl.
  - apply (f_equal b_htmlCache) in Hb. simpl in Hb. rewrite Hb, Hc. reflexivity.
  - destruct Hb as [_ [Hb|(_ & html & Hb)]];
      apply (f_equal b_htmlCache) in Hb; simpl in Hb; rewrite Hb, ?Hc; reflexivity.
Qed.


End LoadAccounting.

Section StylesheetFacts.

Import LazyLoader.

Variable browser : Browser.

Lemma loop_all_failing (url : string) (retries : Z) (fuel : nat) :
  forall (attempt : Z) (w : World),
    (forall n, failing (fetch_outcome browser n url) = true) ->
    exists e, fst (fetchWithRetry_loop browser fuel url retries attempt w) = Throw e.
Proof.
  induction fuel as [|fuel IH]; intros attempt w Hfail; simpl.
  - eexists. reflexivity.
  - destruct (attempt <=? retries)%Z; [|eexists; reflexivity].
    destruct (attempt_runs browser url retries attempt w) as (Hres & _).
    destruct (fetchWithRetry_attempt browser url retries attempt w)
      as [[[r|]|e] w1] eqn:Ha; simpl in Hres.
    + exfalso. specialize (Hfail (fetches w)). unfold turn_result, failing in *.
      destruct (fetch_outcome browser (fetches w) url) as [r0|e0].
      * destruct (ok r0); [discriminate|].
        destruct (attempt =? retries)%Z; discriminate.
      * destruct (attempt =? retries)%Z; discriminate.
    + rewrite (bind_ok _ _ _ _ _ Ha).
      erewrite bind_ok; [|reflexivity].
      destruct (attempt <? retries)%Z; simpl when;
        (erewrite bind_ok; [|reflexivity]); apply IH; exact Hfail.
    + rewrite (bind_throw _ _ _ _ _ Ha). eexists. reflexivity.
Qed.

(** When no fetch of [url] can succeed, neither can the loader's fetch,
    with or without retries. *)
Lemma fetchMaybeRetry_failing (url : string) (w : World) :
  (forall n, failing (fetch_outcome browser n url) = true) ->
  loader (snd (fetchMaybeRetry browser url w)) = loader w
  /\ match fst (fetchMaybeRetry browser url w) with
     | Ok r => ok r = false
     | Throw _ => True
     end.
Proof.
  intros Hfail. unfold fetchMaybeRetry, read, bind, gets.
  destruct (enableRetry (config (loader w))).
  - split; [apply loop_bounded|].
    destruct (loop_all_failing url (maxRetries (config (loader w)))
                (Z.to_nat (maxRetries (config (loader w)))) 1 w Hfail) as [e He].
    unfold fetchWithRetry. rewrite He. exact I.
  - split; [reflexivity|]. unfold fetch. unfold_monad. simpl.
    specialize (Hfail (fetches w)). unfold failing in Hfail.
    destruct (fetch_outcome browser (fetches w) url) as [r|e]; [|exact I].
    apply negb_true_iff. exact Hfail.
Qed.

(** [loadManifest] never throws, and once it has run the manifest counts
    as loaded, so it is not fetched again. *)
Theorem loadManifest_settles (w : World) :
  fst (loadManifest browser w) = Ok tt
  /\ manifestLoaded (loader (snd (loadManifest browser w))) = true
  /\ loadManifest browser (snd (loadManifest browser w))
     = (Ok tt, snd (loadManifest browser w)).
Proof.
  assert (fst (loadManifest browser w) = Ok tt
          /\ manifestLoaded (loader (snd (loadManifest browser w))) = true) as [H1 H2].
  { unfold loadManifest.
    destruct (manifestLoaded (loader w)) eqn:Hm.
    { rewrite (bind_ok _ _ w true w) by (unfold read, gets; rewrite Hm; reflexivity).
      simpl. auto. }
    rewrite (bind_ok _ _ w false w) by (unfold read, gets; rewrite Hm; reflexivity).
    set (w0 := snd (now browser w)).
    rewrite (bind_ok _ _ w (performance_now browser (readings w)) w0) by reflexivity.
    unfold try_catch.
    rewrite (bind_ok _ _ w0 (manifestUrl (config (loader w0))) w0) by reflexivity.
    destruct (fetchMaybeRetry browser (manifestUrl (config (loader w0))) w0)
      as [[response|e] w1] eqn:Hf.
    - rewrite (bind_ok _ _ _ _ _ Hf).
      unfold now, log, read, update, emit. unfold_monad. simpl.
      destruct (ok response); simpl; [|auto].
      destruct (json response) as [m|e]; simpl; [|auto].
      destruct (debug (config (loader w1))); simpl; auto.
    - rewrite (bind_throw _ _ _ _ _ Hf).
      unfold update, emit. unfold_monad. simpl. auto. }
  split; [exact H1|]. split; [exact H2|].
  unfold loadManifest at 1.
  rewrite (bind_ok _ _ _ true (snd (loadManifest browser w)))
    by (unfold read, gets; rewrite H2; reflexivity).
  reflexivity.
Qed.

(** A manifest that cannot be fetched does not fail the load: the loader
    falls back to the single shared style sheet for the rest of the
    session, with no manifest installed. *)
Theorem loadManifest_degrades (w : World) :
  manifestLoaded (loader w) = false ->
  (forall n, failing (fetch_outcome browser n (manifestUrl (config (loader w)))) = true) ->
  fst (loadManifest browser w) = Ok tt
  /\ cssModules (config (loader (snd (loadManifest browser w)))) = false
  /\ manifest (loader (snd (loadManifest browser w))) = manifest (loader w).
Proof.
  intros Hm Hfail. unfold loadManifest.
  rewrite (bind_ok _ _ w false w) by (unfold read, gets; rewrite Hm; reflexivity).
  set (w0 := snd (now browser w)).
  rewrite (bind_ok _ _ w (performance_now browser (readings w)) w0) by reflexivity.
  unfold try_catch.
  rewrite (bind_ok _ _ w0 (manifestUrl (config (loader w0))) w0) by reflexivity.
  destruct (fetchMaybeRetry_failing (manifestUrl (config (loader w0))) w0 Hfail)
    as [Hl Hr].
  destruct (fetchMaybeRetry browser (manifestUrl (config (loader w0))) w0)
    as [[response|e] w1] eqn:Hf; simpl in Hl, Hr.
  - rewrite (bind_ok _ _ _ _ _ Hf).
    unfold now, log, read, update, emit. unfold_monad. simpl. rewrite Hr. simpl.
    rewrite Hl. auto.
  - rewrite (bind_throw _ _ _ _ _ Hf).
    unfold update, emit. unfold_monad. simpl. rewrite Hl. auto.
Qed.

(** The shared style sheet is appended at most once: after
    [loadLegacyCSS] has succeeded, calling it again does nothing. *)
Theorem loadLegacyCSS_once (w : World) :
  fst (loadLegacyCSS browser w) = Ok tt ->
  loadLegacyCSS browser (snd (loadLegacyCSS browser w))
  = (Ok tt, snd (loadLegacyCSS browser w)).
Proof.
  intros Hok.
  assert (legacyCssLoaded (loader (snd (loadLegacyCSS browser w))) = true) as Hflag.
  { revert Hok. unfold loadLegacyCSS, appendStylesheet, now, log, read, update, emit.
    unfold_monad. simpl.
    destruct (legacyCssLoaded (loader w)) eqn:Hl; simpl; [auto|].
    destruct (preloadCSS (config (loader w))); simpl;
      destruct (link_loads browser (links w) (legacyCssUrl (config (loader w)))); simpl;
      destruct (debug (config (loader w))); simpl; auto; discriminate. }
  unfold loadLegacyCSS at 1.
  rewrite (bind_ok _ _ _ true (snd (loadLegacyCSS browser w)))
    by (unfold read, gets; rewrite Hflag; reflexivity).
  reflexivity.
Qed.

(** A component's own style sheet is appended once per file: after
    [loadComponentCSS] has succeeded for a component, calling it again for
    that component appends no link. *)
Theorem loadComponentCSS_once (componentName : string) (w : World) :
  fst (loadComponentCSS browser componentName w) = Ok tt ->
  let w1 := snd (loadComponentCSS browser componentName w) in
  links (snd (loadComponentCSS browser componentName w1)) = links w1
  /\ requests (events (snd (loadComponentCSS browser componentName w1)))
     = requests (events w1).
Proof.
  intros Hok. cbv zeta. revert Hok.
  unfold loadComponentCSS, appendStylesheet, now, log, read, update, emit.
  unfold_monad. simpl.
  destruct w as [l evs nf nl nr nd]; simpl.
  destruct l as [c hc cc ob mf ml bl ll st ds]; simpl.
  destruct c as [bu cm mu bcu lcu pc ch er mr rd dbg]; simpl.
  destruct cm; simpl; [|auto].
  destruct mf as [m|]; simpl; [|auto].
  destruct (components m !! componentName) as [cssFile|] eqn:Hfile; simpl.
  - destruct (String.eqb cssFile "") eqn:He; simpl.
    + destruct dbg; simpl; rewrite ?Hfile; simpl; rewrite ?He; simpl; intros _;
        split; try reflexivity.
      rewrite requests_snoc by reflexivity. reflexivity.
    + destruct (bool_decide (cssFile ∈ cc)) eqn:Hin; simpl.
      * destruct dbg; simpl; rewrite ?Hfile; simpl; rewrite ?He; simpl;
          rewrite ?Hin; simpl; intros _; split; try reflexivity.
        rewrite requests_snoc by reflexivity. reflexivity.
      * destruct pc; simpl;
          destruct (link_loads browser nl (bu +:+ "/" +:+ cssFile)); simpl;
          destruct dbg; simpl; try discriminate; intros _.
        all: rewrite ?Hfile; simpl; rewrite ?He; simpl.
        all: assert (bool_decide (cssFile ∈ {[cssFile]} ∪ cc) = true) as ->
            by (apply bool_decide_eq_true; set_solver); simpl.
        all: split; try reflexivity.
        all: rewrite requests_snoc by reflexivity; reflexivity.
  - destruct dbg; simpl; rewrite ?Hfile; simpl; intros _; split; try reflexivity.
    rewrite requests_snoc by reflexivity. reflexivity.
Qed.

End StylesheetFacts.

(** A page in CSS-modules mode whose manifest lists one style sheet. *)
Module Modular.

Import LazyLoader.

Definition sheets : CSSModuleManifest :=
  {| components := {["Footer" := "footer.css"]} |}.

Definition world : World :=
  boot (with_manifest (Some sheets) true (new (set_cssModules true defaultConfig))).

Definition unfetched : World := boot (new (set_cssModules true defaultConfig)).

Definition uncached : World :=
  boot (new {| baseUrl := "/prerendered"; cssModules := false;
               manifestUrl := "/prerendered/manifest.json";
               baseCssUrl := "/prerendered/base.css";
               legacyCssUrl := "/prerendered/lazy-components.css";
               preloadCSS := false; cacheHTML := false; enableRetry := true;
               maxRetries := 3; retryDelay := 1000; debug := false |}).

End Modular.

Lemma load_success_books_witness :
  let s := LazyLoader.stats (LazyLoader.loader Offline.world) in
  let w' := snd (LazyLoader.load NotFoundOnce.browser "Footer" Offline.world) in
  let s' := LazyLoader.stats (LazyLoader.loader w') in
  let hit := LazyLoader.cacheHTML (LazyLoader.config (LazyLoader.loader Offline.world))
             && bool_decide
                  (is_Some (LazyLoader.htmlCache (LazyLoader.loader Offline.world)
                              !! "Footer")) in
  LazyLoader.totalLoads s' = (LazyLoader.totalLoads s + 1)%N
  /\ LazyLoader.errors s' = LazyLoader.errors s
  /\ LazyLoader.cacheHits s' = (LazyLoader.cacheHits s + (if hit then 1 else 0))%N
  /\ LazyLoader.cacheMisses s' = (LazyLoader.cacheMisses s + (if hit then 0 else 1))%N
  /\ LazyLoader.htmlCache (LazyLoader.loader w')
     = if LazyLoader.cacheHTML (LazyLoader.config (LazyLoader.loader Offline.world))
       then <["Footer" := "<footer></footer>"]>
              (LazyLoader.htmlCache (LazyLoader.loader Offline.world))
       else LazyLoader.htmlCache (LazyLoader.loader Offline.world).
Proof.
  apply (load_success_books NotFoundOnce.browser "Footer" "<footer></footer>"
           Offline.world).
  vm_compute. reflexivity.
Defined.

(** A browser without [PerformanceObserver]: constructing one throws. *)
Module NoObserver.

Import LazyLoader.

Definition failure : Error := ErrExternal "PerformanceObserver is not defined".

Definition browser : Browser :=
  {| fetch_outcome := fun _ _ => Ok NotFoundOnce.found;
     link_loads := fun _ _ => true;
     performance_now := fun n => inject_Z (Z.of_nat n);
     date_now := fun n => Z.of_nat n;
     observer_new := Throw failure;
     observe_throws := fun _ => false;
     querySelector := fun _ => Ok true |}.

End NoObserver.

(** There the load fails although the fragment was fetched: it is counted
    as a miss, as a load and as an error, and stays in the cache. *)
Example load_fails_after_counting :
  let w' := snd (LazyLoader.load NoObserver.browser "Footer" Offline.world) in
  fst (LazyLoader.load NoObserver.browser "Footer" Offline.world)
  = Throw NoObserver.failure
  /\ LazyLoader.cacheMisses (LazyLoader.stats (LazyLoader.loader w')) = 1%N
  /\ LazyLoader.totalLoads (LazyLoader.stats (LazyLoader.loader w')) = 1%N
  /\ LazyLoader.errors (LazyLoader.stats (LazyLoader.loader w')) = 1%N
  /\ LazyLoader.htmlCache (LazyLoader.loader w') !! "Footer" = Some "<footer></footer>".
Proof. vm_compute. repeat split. Qed.

Lemma load_twice_hits_witness :
  let w1 := snd (LazyLoader.load NotFoundOnce.browser "Footer" Offline.world) in
  fst (LazyLoader.load NotFoundOnce.browser "Footer" w1) = Ok "<footer></footer>"
  /\ LazyLoader.requests
       (LazyLoader.events (snd (LazyLoader.load NotFoundOnce.browser "Footer" w1)))
     = LazyLoader.requests (LazyLoader.events w1)
  /\ LazyLoader.fetches (snd (LazyLoader.load NotFoundOnce.browser "Footer" w1))
     = LazyLoader.fetches w1.
Proof.
  apply (load_twice_hits NotFoundOnce.browser "Footer" "<footer></footer>" Offline.world).
  - reflexivity.
  - vm_compute. reflexivity.
Defined.

Lemma load_without_caching_witness :
  LazyLoader.htmlCache
    (LazyLoader.loader (snd (LazyLoader.load NotFoundOnce.browser "Footer" Modular.uncached)))
  = LazyLoader.htmlCache (LazyLoader.loader Modular.uncached).
Proof.
  apply (load_without_caching NotFoundOnce.browser "Footer" Modular.uncached).
  reflexivity.
Defined.

Lemma loadManifest_degrades_witness :
  fst (LazyLoader.loadManifest Offline.browser Modular.unfetched) = Ok tt
  /\ LazyLoader.cssModules
       (LazyLoader.config
          (LazyLoader.loader (snd (LazyLoader.loadManifest Offline.browser Modular.unfetched))))
     = false
  /\ LazyLoader.manifest
       (LazyLoader.loader (snd (LazyLoader.loadManifest Offline.browser Modular.unfetched)))
     = LazyLoader.manifest (LazyLoader.loader Modular.unfetched).
Proof.
  apply (loadManifest_degrades Offline.browser Modular.unfetched).
  - reflexivity.
  - intros n. reflexivity.
Defined.

Lemma loadLegacyCSS_once_witness :
  LazyLoader.loadLegacyCSS NotFoundOnce.browser
    (snd (LazyLoader.loadLegacyCSS NotFoundOnce.browser Offline.world))
  = (Ok tt, snd (LazyLoader.loadLegacyCSS NotFoundOnce.browser Offline.world)).
Proof.
  apply (loadLegacyCSS_once NotFoundOnce.browser Offline.world).
  reflexivity.
Defined.

Lemma loadComponentCSS_once_witness :
  let w1 := snd (LazyLoader.loadComponentCSS NotFoundOnce.browser "Footer" Modular.world) in
  LazyLoader.links (snd (LazyLoader.loadComponentCSS NotFoundOnce.browser "Footer" w1))
  = LazyLoader.links w1
  /\ LazyLoader.requests
       (LazyLoader.events
          (snd (LazyLoader.loadComponentCSS NotFoundOnce.browser "Footer" w1)))
     = LazyLoader.requests (LazyLoader.events w1).
Proof.
  apply (loadComponentCSS_once NotFoundOnce.browser "Footer" Modular.world).
  vm_compute. reflexivity.
Defined.

Example loadComponentCSS_appends_first :
  LazyLoader.links (snd (LazyLoader.loadComponentCSS NotFoundOnce.browser "Footer"
                           Modular.world)) = 1%nat.
Proof. vm_compute. reflexivity. Qed.

(* ===================================================================== *)
(** * Class extraction *)
(* ===================================================================== *)

Section ExtractFacts.

Import Js RegExp Extract.

Lemma star_turns_answers (R : Type)
      (turn : Pos -> Captures -> (Pos -> Captures -> option R) -> option R)
      (k : Pos -> Captures -> option R) (n : nat) (p : Pos) (caps : Captures) :
  (forall p' caps', k p' caps' <> None) ->
  star_turns R turn k n p caps <> None.
Proof.
  intros Hk. destruct n as [|n]; simpl; [apply Hk|].
  destruct (turn p caps _); [discriminate | apply Hk].
Qed.

(** The separator matches wherever a white-space character stands. *)
Lemma white_space_refuses (behind : list ascii) (c : ascii) (rest : list ascii) :
  match_at white_space {| behind := behind; ahead := c :: rest |} = None ->
  is_space c = false.
Proof.
  unfold match_at, white_space, Plus. simpl. unfold advance. simpl.
  unfold in_class. simpl. destruct (is_space c); [|reflexivity].
  simpl. intros H. exfalso. revert H. apply star_turns_answers.
  intros p' caps'. discriminate.
Qed.

Definition spaceless (l : list ascii) : Prop := Forall (fun c => is_space c = false) l.

Lemma split_scan_spaceless (ahead : list ascii) :
  forall (behind : list ascii) (skip : nat) (piece : list ascii),
    spaceless piece ->
    Forall spaceless (split_scan white_space behind ahead skip piece).
Proof.
  induction ahead as [|c rest IH]; intros behind skip piece Hp; simpl.
  - constructor; [|constructor]. apply Forall_rev. exact Hp.
  - destruct skip as [|skip]; [|apply IH; exact Hp].
    destruct (match_at white_space {| behind := behind; ahead := c :: rest |})
      as [[p' caps]|] eqn:Hm.
    + apply match_at_consumes in Hm. simpl in Hm.
      destruct (S (length rest) - length (RegExp.ahead p'))%nat as [|n] eqn:Hn; [lia|].
      constructor; [apply Forall_rev; exact Hp|].
      apply IH. constructor.
    + apply white_space_refuses in Hm.
      apply IH. constructor; assumption.
Qed.

Lemma split_white_space_spaceless (subject : string) :
  Forall (fun piece => spaceless (chars piece)) (split white_space subject).
Proof.
  unfold split. destruct (chars subject) as [|c rest].
  - destruct (match_at white_space _); repeat constructor.
  - apply Forall_map.
    eapply Forall_impl; [apply split_scan_spaceless; constructor|].
    intros piece Hp. simpl. rewrite chars_text. exact Hp.
Qed.

(** What holds of the set of classes while it is filled. *)
Definition tokens (classes : list string) : Prop :=
  NoDup classes
  /\ Forall (fun cls => cls <> "" /\ spaceless (chars cls)) classes.

Lemma add_tokens_tokens (classList classes : list string) :
  Forall (fun piece => spaceless (chars piece)) classList ->
  tokens classes -> tokens (add_tokens classes classList).
Proof.
  unfold add_tokens. revert classes.
  induction classList as [|cls classList IH]; intros classes Hl Hc; simpl; [exact Hc|].
  inversion Hl as [|? ? Hcls Hrest]; subst.
  apply IH; [exact Hrest|].
  destruct (String.eqb cls "") eqn:He; simpl; [exact Hc|].
  apply String.eqb_neq in He.
  unfold CSSGenerator.set_add. destruct (decide (cls ∈ classes)) as [Hin|Hout]; [exact Hc|].
  destruct Hc as [Hnd Hall]. split.
  - apply NoDup_app. split; [exact Hnd|]. split.
    + intros x Hx Hx'. apply list_elem_of_singleton in Hx'. subst. contradiction.
    + apply NoDup_singleton.
  - apply Forall_app. split; [exact Hall|]. constructor; [|constructor]. auto.
Qed.

(** [extractClasses] returns class names only: no name twice, no empty
    name, and no name with white space in it. *)
Theorem extractClasses_tokens (html : string) :
  NoDup (extractClasses html)
  /\ forall cls, cls ∈ extractClasses html ->
       cls <> "" /\ forall c, c ∈ chars cls -> is_space c = false.
Proof.
  assert (tokens (extractClasses html)) as [Hnd Hall].
  { unfold extractClasses.
    assert (tokens []) as H0 by (split; constructor).
    revert H0. generalize (@nil string).
    induction (matchAll class_attributes html) as [|caps l IH]; intros classes Hc; simpl.
    - exact Hc.
    - apply IH. apply add_tokens_tokens; [|exact Hc].
      apply split_white_space_spaceless. }
  split; [exact Hnd|].
  intros cls Hin. rewrite Forall_forall in Hall. destruct (Hall cls Hin) as [Hne Hsp].
  split; [exact Hne|]. intros c Hc. unfold spaceless in Hsp.
  rewrite Forall_forall in Hsp. apply Hsp. exact Hc.
Qed.

End ExtractFacts.

Section CleanMore.

Import Utils.

(** [cleanHTML] only removes: its result is never longer than its input,
    and it carries no white space at either end. *)
Theorem cleanHTML_never_grows (html : string) :
  String.length (cleanHTML html) <= String.length html
  /\ Js.trim (cleanHTML html) = cleanHTML html.
Proof.
  split.
  - destruct (is_clean html) eqn:E.
    + rewrite (cleanHTML_of_clean _ E). apply trim_length.
    + apply cleanHTML_shrinks in E. lia.
  - unfold cleanHTML. apply trim_idempotent.
Qed.

End CleanMore.

Example extractClasses_sample :
  Extract.extractClasses
    ("<div class=" +:+ ParserRenderer.quote +:+ "flex  p-4 " +:+ ParserRenderer.quote
     +:+ "><p class=" +:+ ParserRenderer.quote +:+ "mt-2 flex" +:+ ParserRenderer.quote
     +:+ "></p><i class=" +:+ ParserRenderer.quote +:+ ParserRenderer.quote +:+ "></i></div>")
  = ["flex"; "p-4"; "mt-2"].
Proof. vm_compute. reflexivity. Qed.

(* ===================================================================== *)
(** * Structural renderer *)
(* ===================================================================== *)

Section RendererFacts.

Import Js RegExp Ast ParserRenderer.

Lemma selfClose_app (s rest : string) :
  (forall c, c ∈ chars s -> c <> ">"%char) ->
  selfClose (s +:+ rest) = s +:+ selfClose rest.
Proof.
  induction s as [|a s IH]; intros H; simpl; [reflexivity|].
  destruct (Ascii.eqb a ">") eqn:E.
  - apply Ascii.eqb_eq in E. exfalso. apply (H a); [left | exact E].
  - change (String a s +:+ selfClose rest) with (String a (s +:+ selfClose rest)).
    f_equal. apply IH. intros c Hc. apply H. right. exact Hc.
Qed.

(** An element of the void kinds without children is written as one
    self-closed tag, provided no attribute text holds a [>]: the first
    [>] of the tag is the one replaced. *)
Theorem void_element_self_closes (name : string) (attributes : list AttributeNode) :
  name ∈ voidElements ->
  (forall c, c ∈ chars (attributesToString attributes) -> c <> ">"%char) ->
  nodeToHTML (element name attributes [])
  = if nonempty (attributesToString attributes)
    then "<" +:+ name +:+ " " +:+ attributesToString attributes +:+ " />"
    else "<" +:+ name +:+ " />".
Proof.
  intros Hname Hattrs. cbn [nodeToHTML]. cbv zeta.
  assert (existsb (String.eqb name) voidElements = true) as ->.
  { apply existsb_exists. exists name. split; [|apply String.eqb_refl].
    apply list_elem_of_In. exact Hname. }
  assert (forall c, c ∈ chars name -> c <> ">"%char) as Hn.
  { unfold voidElements in Hname.
    repeat (apply elem_of_cons in Hname as [->|Hname];
            [apply Forall_forall; vm_compute; repeat constructor; discriminate|]).
    apply elem_of_nil in Hname. contradiction. }
  destruct (nonempty (attributesToString attributes)).
  - change ("<" +:+ name +:+ " " +:+ attributesToString attributes +:+ ">")
      with (String "<" (name +:+ String " " (attributesToString attributes +:+ ">"))).
    simpl. f_equal.
    rewrite (selfClose_app name _ Hn). f_equal. simpl. f_equal.
    rewrite (selfClose_app _ _ Hattrs). reflexivity.
  - change ("<" +:+ name +:+ ">") with (String "<" (name +:+ ">")).
    simpl. f_equal. rewrite (selfClose_app name _ Hn). reflexivity.
Qed.

Lemma literal_needs_first (c : ascii) (l : list ascii) (R : Type) (p : Pos)
      (caps : Captures) (k : Pos -> Captures -> option R) :
  match ahead p with [] => True | x :: _ => x <> c end ->
  run false (literal (c :: l)) R p caps k = None.
Proof.
  intros H.
  assert (run false (Lit c) R p caps
              (fun p' caps' => run false (literal l) R p' caps' k) = None
          /\ run false (Lit c) R p caps k = None) as [H1 H2].
  { simpl. unfold advance. destruct (ahead p) as [|x rest]; [auto|].
    unfold same_char. destruct (Ascii.eqb c x) eqn:E; [|auto].
    apply Ascii.eqb_eq in E. congruence. }
  destruct l as [|d l]; [exact H2 | exact H1].
Qed.

Lemma placeholder_needs_brace (key : string) (ahead behind : list ascii) :
  Forall (fun c => c <> "{"%char) ahead ->
  search (placeholder key) behind ahead = false.
Proof.
  intros H. revert behind.
  assert (forall behind ahead,
            match ahead with [] => True | c :: _ => c <> "{"%char end ->
            match_at (placeholder key) {| behind := behind; ahead := ahead |} = None)
    as Hnone.
  { intros behind ahead' Hc. unfold match_at, placeholder, str. simpl source.
    change (chars ("{" +:+ key +:+ "}")) with ("{"%char :: chars (key +:+ "}")).
    apply literal_needs_first. exact Hc. }
  induction H as [|c rest Hc Hrest IH]; intros behind; simpl.
  - rewrite Hnone by exact I. reflexivity.
  - rewrite Hnone by exact Hc. apply IH.
Qed.

(** Markup without an opening brace has no placeholder to fill: the
    frontmatter variables leave it as it is. *)
Theorem replaceFrontmatterVars_without_braces (html : string) (vars : JsObject.t) :
  (forall c, c ∈ chars html -> c <> "{"%char) ->
  replaceFrontmatterVars html vars = html.
Proof.
  intros H. unfold replaceFrontmatterVars.
  induction (JsObject.entries vars) as [|kv l IH]; simpl; [reflexivity|].
  rewrite replace_no_match; [exact IH|].
  unfold test. apply placeholder_needs_brace.
  apply Forall_forall. exact H.
Qed.

End RendererFacts.

Lemma void_element_self_closes_witness :
  ParserRenderer.nodeToHTML
    (Ast.element "img" [Ast.mkAttr Ast.quoted "src" "/logo.png"; Ast.mkAttr Ast.empty "hidden" ""] [])
  = if ParserRenderer.nonempty
         (ParserRenderer.attributesToString
            [Ast.mkAttr Ast.quoted "src" "/logo.png"; Ast.mkAttr Ast.empty "hidden" ""])
    then "<" +:+ "img" +:+ " "
         +:+ ParserRenderer.attributesToString
               [Ast.mkAttr Ast.quoted "src" "/logo.png"; Ast.mkAttr Ast.empty "hidden" ""]
         +:+ " />"
    else "<" +:+ "img" +:+ " />".
Proof.
  apply (void_element_self_closes "img"
           [Ast.mkAttr Ast.quoted "src" "/logo.png"; Ast.mkAttr Ast.empty "hidden" ""]).
  - unfold ParserRenderer.voidElements. apply elem_of_cons. left. reflexivity.
  - apply Forall_forall. vm_compute. repeat constructor; discriminate.
Defined.

(** Where an attribute value holds a [>], it is that one which is
    replaced, and the tag is left open. *)
Example void_element_with_angle_in_attribute :
  ParserRenderer.nodeToHTML (Ast.element "img" [Ast.mkAttr Ast.quoted "alt" "a>b"] [])
  = "<img alt=" +:+ ParserRenderer.quote +:+ "a />b" +:+ ParserRenderer.quote +:+ ">".
Proof. reflexivity. Qed.

Lemma replaceFrontmatterVars_without_braces_witness :
  ParserRenderer.replaceFrontmatterVars "<footer>2024</footer>" [("year", "2025")]
  = "<footer>2024</footer>".
Proof.
  apply (replaceFrontmatterVars_without_braces "<footer>2024</footer>" [("year", "2025")]).
  apply Forall_forall. vm_compute. repeat constructor; discriminate.
Defined.
